(** * The threaded scene-graph render loop (qsgthreadedrenderloop.cpp)

    A shallow embedding of [QSGRenderThread] and [QSGThreadedRenderLoop]:
    the two objects as records, their member functions as programs in a
    small state-and-trace monad, and the two threads as an interleaving
    of the atomic segments of those programs. *)

From Stdlib Require Import ZArith List Bool Lia String QArith Qround.
Import ListNotations.
Close Scope Q_scope.
Open Scope Z_scope.

Set Implicit Arguments.

(** ** Data model *)

(** [QQuickWindow *]: an address; [0] is the null pointer. *)
Definition window := nat.

Record QSize := mkSize { width : Z; height : Z }.

(** [QImage]: either the null image [QImage()] or what
    [qt_gl_read_framebuffer] returned for a given size. *)
Inductive QImage := NullImage | FramebufferImage (size : QSize).

Inductive thread := GuiThread | RenderThread.

Definition thread_eqb (a b : thread) : bool :=
  match a, b with
  | GuiThread, GuiThread | RenderThread, RenderThread => true
  | _, _ => false
  end.

(** The queued slots of the render thread object (connected to the
    animation driver's [started()] and [stopped()] signals). *)
Inductive slot := slot_animationStarted | slot_animationStopped.

(** Events whose receiver lives on the render thread. *)
Inductive REvent :=
| WM_Expose (w : window) (size : QSize)
| WM_Obscure (w : window)
| WM_RequestSync
| WM_RequestRepaint
| WM_Resize (w : window) (size : QSize)
| WM_TryRelease (w : window) (inDestructor : bool)
| WM_Grab (w : window)
| MetaCall (sl : slot).

(** Events whose receiver is the render loop object, on the GUI thread. *)
Inductive GEvent :=
| TimerEvent (timerId : Z)
| WM_UpdateLater (w : window)
| WM_AdvanceAnimations.

(** State of a [QWaitCondition] on which only the GUI thread ever waits. *)
Inductive waitcond := NoWaiter | GuiWaiting | GuiWoken.

Module RenderThread.
(** [QSGRenderThread::Window] *)
Record Window := mkWindow { window : window; size : QSize }.

(** [QSGRenderThread].  [gl] tells whether the context pointer is
    non-null, [sg_ready] is [sg->isReady()], [exit_called] records a
    pending [QThread::exit()]. *)
Record t := mk {
  gl : bool;
  sg_ready : bool;
  pendingUpdate : Z;
  sleeping : bool;
  animationRunning : bool;
  guiIsLocked : bool;
  shouldExit : bool;
  animationRequestsPending : Z;
  mutex : option thread;
  waitCondition : waitcond;
  m_windows : list Window;
  exit_called : bool
}.
End RenderThread.

Module RenderLoop.
(** [QSGThreadedRenderLoop::Window] *)
Record Window := mkWindow { window : window; pendingUpdate : bool }.

(** [QSGThreadedRenderLoop]; [driver_running] is
    [m_animation_driver->isRunning()]. *)
Record t := mk {
  m_windows : list Window;
  m_animation_timer : Z;
  m_update_timer : Z;
  m_exhaust_delay : Z;
  driver_running : bool
}.
End RenderLoop.

(** What the code reads from its collaborators: the windows' attributes
    and the primary screen. *)
Record Host := mkHost {
  isVisible : window -> bool;
  isExposed : window -> bool;
  isPersistentSceneGraph : window -> bool;
  isPersistentOpenGLContext : window -> bool;
  handle : window -> bool;
  renderer : window -> bool;
  windowSize : window -> QSize;
  refreshRate : Q
}.

(** Program points of the GUI thread: the entry of each member function
    of the render loop, and the points inside a function where the other
    thread may run before the function goes on. *)
Inductive gframe :=
| F_show (w : window)
| F_hide (w : window)
| F_windowDestroyed (w : window)
| F_exposureChanged (w : window)
| F_handleExposure (w : window)
| F_handleObscurity (w : window)
| F_maybeUpdate (w : window)
| F_update (w : window)
| F_releaseResources (w : window) (inDestructor : bool)
| F_polishAndSync
| F_grab (w : window)
| F_resize (w : window) (size : QSize)
| F_event (e : GEvent)
| F_driverStarted
| F_driverStopped
| K_hide_remove (w : window)
| K_handleExposure_start
| K_handleExposure_timer
| PS_lock | PS_setLocked | PS_post | PS_wait | PS_waiting | PS_clearLocked | PS_unlock
| RR_check (w : window) (inDestructor : bool) | RR_wait | RR_waiting | RR_unlock
| G_lock (w : window) | G_post (w : window) | G_wait | G_waiting | G_unlock.

(** Program points of [QSGRenderThread::run()]. *)
Inductive rpoint :=
| RNotRunning
| RLoopTop
| RLoopBody
| RAnimTest
| RAnimInc
| RAnimPost
| RSync
| RRender
| RProcessEvents
| RSleepTest
| RExec.

Inductive fault :=
| NullDereference
| AssertFailure (what : string).

(** The whole system. [grab_image] is the local [result] of [grab], to
    which the pending [WM_Grab] event points; [grab_return] the value the
    last call of [grab] returned. *)
Record sys := mkSys {
  th : RenderThread.t;
  wm : RenderLoop.t;
  host : Host;
  timer_seq : Z;
  rq : list REvent;
  gq : list GEvent;
  gstack : list gframe;
  rpc : rpoint;
  grab_image : QImage;
  grab_return : option QImage;
  crashed : option fault
}.

(** Observable actions, in program order. *)
Inductive field := f_pendingUpdate | f_guiIsLocked | f_shouldExit | f_animationRequestsPending.

Inductive action :=
| ALock | AUnlock | AWait | AWaitReturn | AWakeOne
| AExit
| APostRT (e : REvent)
| APostGUI (e : GEvent)
| AStore (f : field) (v : Z)
| ACall_invalidateOpenGL (w : window) (inDestructor : bool)
| AMakeCurrent (w : window)
| ADoneCurrent
| ASwapBuffers (w : window)
| ACreateContext
| ADeleteContext
| ACreateTempWindow
| AMakeCurrentTemp
| ADeleteTempWindow
| APolishItems (w : window)
| ASyncSceneGraph (w : window)
| ARenderSceneGraph (w : window) (size : QSize)
| AFireFrameSwapped (w : window)
| ACleanupNodesOnShutdown (w : window)
| ASgInitialize
| ASgInvalidate
| ASendDeferredDelete
| AReadFramebuffer (size : QSize)
| AWindowCreate (w : window)
| AStartTimer (id : Z) (interval : Z) (precise : bool)
| AKillTimer (id : Z)
| AAdvance
| AStartThread
| AWarning (msg : string).

Definition trace := list action.

(** ** Record updates *)

Module ThSet.
Import RenderThread.
Definition gl (v : bool) (r : t) : t :=
  mk v (sg_ready r) (pendingUpdate r) (sleeping r) (animationRunning r) (guiIsLocked r)
     (shouldExit r) (animationRequestsPending r) (mutex r) (waitCondition r) (m_windows r) (exit_called r).
Definition sg_ready (v : bool) (r : t) : t :=
  mk (RenderThread.gl r) v (pendingUpdate r) (sleeping r) (animationRunning r) (guiIsLocked r)
     (shouldExit r) (animationRequestsPending r) (mutex r) (waitCondition r) (m_windows r) (exit_called r).
Definition pendingUpdate (v : Z) (r : t) : t :=
  mk (RenderThread.gl r) (RenderThread.sg_ready r) v (sleeping r) (animationRunning r) (guiIsLocked r)
     (shouldExit r) (animationRequestsPending r) (mutex r) (waitCondition r) (m_windows r) (exit_called r).
Definition sleeping (v : bool) (r : t) : t :=
  mk (RenderThread.gl r) (RenderThread.sg_ready r) (RenderThread.pendingUpdate r) v (animationRunning r)
     (guiIsLocked r) (shouldExit r) (animationRequestsPending r) (mutex r) (waitCondition r)
     (m_windows r) (exit_called r).
Definition animationRunning (v : bool) (r : t) : t :=
  mk (RenderThread.gl r) (RenderThread.sg_ready r) (RenderThread.pendingUpdate r) (RenderThread.sleeping r) v
     (guiIsLocked r) (shouldExit r) (animationRequestsPending r) (mutex r) (waitCondition r)
     (m_windows r) (exit_called r).
Definition guiIsLocked (v : bool) (r : t) : t :=
  mk (RenderThread.gl r) (RenderThread.sg_ready r) (RenderThread.pendingUpdate r) (RenderThread.sleeping r)
     (RenderThread.animationRunning r) v (shouldExit r) (animationRequestsPending r) (mutex r)
     (waitCondition r) (m_windows r) (exit_called r).
Definition shouldExit (v : bool) (r : t) : t :=
  mk (RenderThread.gl r) (RenderThread.sg_ready r) (RenderThread.pendingUpdate r) (RenderThread.sleeping r)
     (RenderThread.animationRunning r) (RenderThread.guiIsLocked r) v (animationRequestsPending r) (mutex r)
     (waitCondition r) (m_windows r) (exit_called r).
Definition animationRequestsPending (v : Z) (r : t) : t :=
  mk (RenderThread.gl r) (RenderThread.sg_ready r) (RenderThread.pendingUpdate r) (RenderThread.sleeping r)
     (RenderThread.animationRunning r) (RenderThread.guiIsLocked r) (RenderThread.shouldExit r) v (mutex r)
     (waitCondition r) (m_windows r) (exit_called r).
Definition mutex (v : option thread) (r : t) : t :=
  mk (RenderThread.gl r) (RenderThread.sg_ready r) (RenderThread.pendingUpdate r) (RenderThread.sleeping r)
     (RenderThread.animationRunning r) (RenderThread.guiIsLocked r) (RenderThread.shouldExit r)
     (RenderThread.animationRequestsPending r) v (waitCondition r) (m_windows r) (exit_called r).
Definition waitCondition (v : waitcond) (r : t) : t :=
  mk (RenderThread.gl r) (RenderThread.sg_ready r) (RenderThread.pendingUpdate r) (RenderThread.sleeping r)
     (RenderThread.animationRunning r) (RenderThread.guiIsLocked r) (RenderThread.shouldExit r)
     (RenderThread.animationRequestsPending r) (RenderThread.mutex r) v (m_windows r) (exit_called r).
Definition m_windows (v : list Window) (r : t) : t :=
  mk (RenderThread.gl r) (RenderThread.sg_ready r) (RenderThread.pendingUpdate r) (RenderThread.sleeping r)
     (RenderThread.animationRunning r) (RenderThread.guiIsLocked r) (RenderThread.shouldExit r)
     (RenderThread.animationRequestsPending r) (RenderThread.mutex r) (RenderThread.waitCondition r) v
     (exit_called r).
Definition exit_called (v : bool) (r : t) : t :=
  mk (RenderThread.gl r) (RenderThread.sg_ready r) (RenderThread.pendingUpdate r) (RenderThread.sleeping r)
     (RenderThread.animationRunning r) (RenderThread.guiIsLocked r) (RenderThread.shouldExit r)
     (RenderThread.animationRequestsPending r) (RenderThread.mutex r) (RenderThread.waitCondition r)
     (RenderThread.m_windows r) v.
End ThSet.

Module WmSet.
Import RenderLoop.
Definition m_windows (v : list Window) (r : t) : t :=
  mk v (m_animation_timer r) (m_update_timer r) (m_exhaust_delay r) (driver_running r).
Definition m_animation_timer (v : Z) (r : t) : t :=
  mk (RenderLoop.m_windows r) v (m_update_timer r) (m_exhaust_delay r) (driver_running r).
Definition m_update_timer (v : Z) (r : t) : t :=
  mk (RenderLoop.m_windows r) (RenderLoop.m_animation_timer r) v (m_exhaust_delay r) (driver_running r).
Definition driver_running (v : bool) (r : t) : t :=
  mk (RenderLoop.m_windows r) (RenderLoop.m_animation_timer r) (RenderLoop.m_update_timer r)
     (m_exhaust_delay r) v.
End WmSet.

Definition set_th (v : RenderThread.t) (s : sys) : sys :=
  mkSys v (wm s) (host s) (timer_seq s) (rq s) (gq s) (gstack s) (rpc s) (grab_image s) (grab_return s) (crashed s).
Definition set_wm (v : RenderLoop.t) (s : sys) : sys :=
  mkSys (th s) v (host s) (timer_seq s) (rq s) (gq s) (gstack s) (rpc s) (grab_image s) (grab_return s) (crashed s).
Definition set_host (v : Host) (s : sys) : sys :=
  mkSys (th s) (wm s) v (timer_seq s) (rq s) (gq s) (gstack s) (rpc s) (grab_image s) (grab_return s) (crashed s).
Definition set_timer_seq (v : Z) (s : sys) : sys :=
  mkSys (th s) (wm s) (host s) v (rq s) (gq s) (gstack s) (rpc s) (grab_image s) (grab_return s) (crashed s).
Definition set_rq (v : list REvent) (s : sys) : sys :=
  mkSys (th s) (wm s) (host s) (timer_seq s) v (gq s) (gstack s) (rpc s) (grab_image s) (grab_return s) (crashed s).
Definition set_gq (v : list GEvent) (s : sys) : sys :=
  mkSys (th s) (wm s) (host s) (timer_seq s) (rq s) v (gstack s) (rpc s) (grab_image s) (grab_return s) (crashed s).
Definition set_gstack (v : list gframe) (s : sys) : sys :=
  mkSys (th s) (wm s) (host s) (timer_seq s) (rq s) (gq s) v (rpc s) (grab_image s) (grab_return s) (crashed s).
Definition set_rpc (v : rpoint) (s : sys) : sys :=
  mkSys (th s) (wm s) (host s) (timer_seq s) (rq s) (gq s) (gstack s) v (grab_image s) (grab_return s) (crashed s).
Definition set_grab_image (v : QImage) (s : sys) : sys :=
  mkSys (th s) (wm s) (host s) (timer_seq s) (rq s) (gq s) (gstack s) (rpc s) v (grab_return s) (crashed s).
Definition set_grab_return (v : option QImage) (s : sys) : sys :=
  mkSys (th s) (wm s) (host s) (timer_seq s) (rq s) (gq s) (gstack s) (rpc s) (grab_image s) v (crashed s).
Definition set_crashed (v : option fault) (s : sys) : sys :=
  mkSys (th s) (wm s) (host s) (timer_seq s) (rq s) (gq s) (gstack s) (rpc s) (grab_image s) (grab_return s) v.

(** ** The monad of member functions

    A member function runs on the system state and yields a value, the
    new state and the actions it performed; or it stops at a null
    dereference or a failed [Q_ASSERT]; or it cannot start because its
    first action, [mutex.lock()], finds the mutex held. *)

Inductive outcome (A : Type) :=
| Ok (a : A) (s : sys) (t : trace)
| Fault (f : fault) (t : trace)
| Blocked.
Arguments Fault {A} f t.
Arguments Blocked {A}.

Definition M (A : Type) := sys -> outcome A.

Definition ret {A} (a : A) : M A := fun s => Ok a s [].

(** The actions done so far, put in front of those of what follows. *)
Definition prefix {A} (t : trace) (o : outcome A) : outcome A :=
  match o with
  | Ok a s t2 => Ok a s (t ++ t2)
  | Fault f t2 => Fault f (t ++ t2)
  | Blocked => Blocked
  end.

Definition bind {A B} (m : M A) (k : A -> M B) : M B :=
  fun s =>
    match m s with
    | Ok a s1 t1 => prefix t1 (k a s1)
    | Fault f t => Fault f t
    | Blocked => Blocked
    end.

Declare Scope prog_scope.
Delimit Scope prog_scope with prog.
Notation "x <- m ;; k" := (bind m (fun x => k))
  (at level 61, m at next level, right associativity) : prog_scope.
Notation "m ;; k" := (bind m (fun _ => k))
  (at level 61, right associativity) : prog_scope.
Open Scope prog_scope.

Definition get : M sys := fun s => Ok s s [].
Definition modify (f : sys -> sys) : M unit := fun s => Ok tt (f s) [].
Definition emit (a : action) : M unit := fun s => Ok tt s [a].
Definition raise {A} (f : fault) : M A := fun _ => Fault f [].
Definition when (b : bool) (m : M unit) : M unit := if b then m else ret tt.
Definition upd_th (f : RenderThread.t -> RenderThread.t) : M unit :=
  modify (fun s => set_th (f (th s)) s).
Definition upd_wm (f : RenderLoop.t -> RenderLoop.t) : M unit :=
  modify (fun s => set_wm (f (wm s)) s).

(** [Q_ASSERT_X(cond, where, what)] *)
Definition Q_ASSERT_X (cond : bool) (what : string) : M unit :=
  if cond then ret tt else raise (AssertFailure what).

Fixpoint foreach {T} (l : list T) (body : T -> M unit) : M unit :=
  match l with
  | [] => ret tt
  | x :: l' => body x ;; foreach l' body
  end.

Definition b2z (b : bool) : Z := if b then 1 else 0.

(** *** [QMutex], [QWaitCondition], [QCoreApplication::postEvent] *)

Definition lock (who : thread) : M unit :=
  fun s =>
    match RenderThread.mutex (th s) with
    | None => Ok tt (set_th (ThSet.mutex (Some who) (th s)) s) [ALock]
    | Some _ => Blocked
    end.

Definition unlock : M unit :=
  upd_th (ThSet.mutex None) ;; emit AUnlock.

(** [waitCondition.wakeOne()]: wakes the waiter, if there is one. *)
Definition wakeOne : M unit :=
  upd_th (fun t => match RenderThread.waitCondition t with
                   | GuiWaiting => ThSet.waitCondition GuiWoken t
                   | _ => t
                   end) ;;
  emit AWakeOne.

(** [waitCondition.wait(&mutex)] on the GUI thread, first half: release
    the mutex and sleep. *)
Definition wait : M unit :=
  upd_th (fun t => ThSet.waitCondition GuiWaiting (ThSet.mutex None t)) ;; emit AWait.

(** Second half: once woken, take the mutex again and return. *)
Definition wait_return : M unit :=
  fun s =>
    match RenderThread.waitCondition (th s), RenderThread.mutex (th s) with
    | GuiWoken, None =>
        Ok tt (set_th (ThSet.waitCondition NoWaiter (ThSet.mutex (Some GuiThread) (th s))) s)
           [AWaitReturn]
    | _, _ => Blocked
    end.

Definition postRT (e : REvent) : M unit :=
  modify (fun s => set_rq (rq s ++ [e]) s) ;; emit (APostRT e).

Definition postGUI (e : GEvent) : M unit :=
  modify (fun s => set_gq (gq s ++ [e]) s) ;; emit (APostGUI e).

(** [QThread::exit()] *)
Definition exit : M unit :=
  upd_th (ThSet.exit_called true) ;; emit AExit.

(** [QThread::isRunning()] *)
Definition isRunning (s : sys) : bool :=
  match rpc s with RNotRunning => false | _ => true end.

(** Writes to the flags shared by the two threads. *)
Definition store_pendingUpdate (v : Z) : M unit :=
  upd_th (ThSet.pendingUpdate v) ;; emit (AStore f_pendingUpdate v).
Definition store_guiIsLocked (v : bool) : M unit :=
  upd_th (ThSet.guiIsLocked v) ;; emit (AStore f_guiIsLocked (b2z v)).
Definition store_shouldExit (v : bool) : M unit :=
  upd_th (ThSet.shouldExit v) ;; emit (AStore f_shouldExit (b2z v)).
Definition store_animationRequestsPending (v : Z) : M unit :=
  upd_th (ThSet.animationRequestsPending v) ;; emit (AStore f_animationRequestsPending v).

(** ** Helpers of the source file *)

(** [int] arithmetic: the result wrapped to 32 bits, two's complement. *)
Definition wrap32 (z : Z) : Z := (z + 2147483648) mod 4294967296 - 2147483648.

(** [get_env_int(name, defaultValue)]; [qgetenv] and [QByteArray::toInt]
    belong to the platform. *)
Record Platform := mkPlatform {
  qgetenv : string -> string;
  toInt : string -> Z * bool
}.

Definition get_env_int (p : Platform) (name : string) (defaultValue : Z) : Z :=
  let content := qgetenv p name in
  let '(value, ok) := toInt p content in
  if ok then value else defaultValue.

(** [qsgrl_animation_interval()] *)
Definition qsgrl_animation_interval (h : Host) : Z :=
  if Qle_bool 1 (refreshRate h) then Qfloor (Qdiv (inject_Z 1000) (refreshRate h)) else 16.

(** [windowFor(list, window)]: the first entry for [window], or null. *)
Definition windowFor {T} (win : T -> window) (l : list T) (w : window) : option T :=
  find (fun t => Nat.eqb (win t) w) l.

Definition size_of {T} (l : list T) : Z := Z.of_nat (List.length l).

(** [QSGRenderThread::UpdateRequest] *)
Definition SyncRequest : Z := 1.
Definition RepaintRequest : Z := 2.

(** [pendingUpdate |= flag] on the two-bit field. *)
Definition set_flag (p flag : Z) : Z := Z.land (Z.lor p flag) 3.
Definition has_flag (p flag : Z) : bool := negb (Z.land p flag =? 0).

(** ** [QSGRenderThread] *)

(** [gl->makeCurrent(w)] *)
Definition gl_makeCurrent (w : window) : M unit :=
  s <- get ;;
  if RenderThread.gl (th s) then emit (AMakeCurrent w) else raise NullDereference.

(** [m_windows.removeAt(i)] for the first [i] whose window is [w]
    (the loop of [WM_Obscure], and of [hide]). *)
Fixpoint rt_removeFirst (w : window) (l : list RenderThread.Window) : list RenderThread.Window :=
  match l with
  | [] => []
  | x :: l' => if Nat.eqb (RenderThread.window x) w then l' else x :: rt_removeFirst w l'
  end.

(** [w->size = size] through the pointer [windowFor] returned: the first
    entry for [w] is updated in place. *)
Fixpoint rt_setSize (w : window) (sz : QSize) (l : list RenderThread.Window)
  : list RenderThread.Window :=
  match l with
  | [] => []
  | x :: l' =>
      if Nat.eqb (RenderThread.window x) w
      then RenderThread.mkWindow (RenderThread.window x) sz :: l'
      else x :: rt_setSize w sz l'
  end.

Definition requestRepaint : M unit :=
  s <- get ;;
  when (RenderThread.sleeping (th s)) exit ;;
  s <- get ;;
  when (size_of (RenderThread.m_windows (th s)) >? 0)
       (store_pendingUpdate (set_flag (RenderThread.pendingUpdate (th s)) RepaintRequest)).

Definition rt_animationStarted : M unit :=
  upd_th (ThSet.animationRunning true) ;;
  s <- get ;;
  when (RenderThread.sleeping (th s)) exit.

Definition rt_animationStopped : M unit :=
  upd_th (ThSet.animationRunning false).

(** The loop of [invalidateOpenGL] over the render loop's windows:
    [(persistentSG, persistentGL)] after the loop. *)
Fixpoint persistence (h : Host) (inDestructor : bool) (w : window)
         (l : list RenderLoop.Window) (acc : bool * bool) : bool * bool :=
  match l with
  | [] => acc
  | x :: l' =>
      let '(persistentSG, persistentGL) := acc in
      persistence h inDestructor w l'
        (if negb inDestructor || negb (Nat.eqb (RenderLoop.window x) w)
         then (persistentSG || isPersistentSceneGraph h (RenderLoop.window x),
               persistentGL || isPersistentOpenGLContext h (RenderLoop.window x))
         else acc)
  end.

Definition invalidateOpenGL (w : window) (inDestructor : bool) : M unit :=
  emit (ACall_invalidateOpenGL w inDestructor) ;;
  s <- get ;;
  if negb (RenderThread.gl (th s)) then ret tt
  else if Nat.eqb w 0 then
    emit (AWarning "QSGThreadedRenderLoop:QSGRenderThread: no window to make current...")
  else
    let '(persistentSG, persistentGL) :=
      persistence (host s) inDestructor w (RenderLoop.m_windows (wm s)) (false, false) in
    gl_makeCurrent w ;;
    when (negb persistentSG || inDestructor) (emit (ACleanupNodesOnShutdown w)) ;;
    if persistentSG then ret tt
    else
      upd_th (ThSet.sg_ready false) ;; emit ASgInvalidate ;;
      emit ASendDeferredDelete ;;
      emit ADoneCurrent ;;
      if negb persistentGL
      then upd_th (ThSet.gl false) ;; emit ADeleteContext
      else ret tt.

(** [QSize::isEmpty()] *)
Definition QSize_isEmpty (sz : QSize) : bool := (width sz <? 1) || (height sz <? 1).

Definition initializeOpenGL : M unit :=
  s <- get ;;
  match RenderThread.m_windows (th s) with
  | [] => raise (AssertFailure "QList::at: index out of range")
  | w0 :: _ =>
      let temp := QSize_isEmpty (RenderThread.size w0) in
      when temp (emit ACreateTempWindow) ;;
      upd_th (ThSet.gl true) ;; emit ACreateContext ;;
      (if temp then emit AMakeCurrentTemp else emit (AMakeCurrent (RenderThread.window w0))) ;;
      upd_th (ThSet.sg_ready true) ;; emit ASgInitialize ;;
      when temp (emit ADeleteTempWindow)
  end.

Definition degenerate (sz : QSize) : bool := (width sz =? 0) || (height sz =? 0).

(** The body of the loop of [sync()]. *)
Definition sync_window (w : RenderThread.Window) : M unit :=
  if degenerate (RenderThread.size w) then ret tt
  else gl_makeCurrent (RenderThread.window w) ;; emit (ASyncSceneGraph (RenderThread.window w)).

Definition sync_assert : string :=
  "sync triggered on bad terms as gui is not already locked...".

Definition sync : M unit :=
  lock RenderThread ;;
  s <- get ;;
  Q_ASSERT_X (RenderThread.guiIsLocked (th s)) sync_assert ;;
  store_pendingUpdate 0 ;;
  foreach (RenderThread.m_windows (th s)) sync_window ;;
  wakeOne ;;
  unlock.

(** The body of the rendering loop of [syncAndRender()]. *)
Definition render_window (h : Host) (w : RenderThread.Window) : M unit :=
  if negb (renderer h (RenderThread.window w)) || degenerate (RenderThread.size w) then ret tt
  else
    gl_makeCurrent (RenderThread.window w) ;;
    emit (ARenderSceneGraph (RenderThread.window w) (RenderThread.size w)) ;;
    emit (ASwapBuffers (RenderThread.window w)) ;;
    emit (AFireFrameSwapped (RenderThread.window w)).

(** The three parts of [syncAndRender()], and the function. *)
Definition syncAndRender_animate : M unit :=
  s <- get ;;
  when (RenderThread.animationRunning (th s) && (RenderThread.animationRequestsPending (th s) <? 2))
       (store_animationRequestsPending (wrap32 (RenderThread.animationRequestsPending (th s) + 1)) ;;
        postGUI WM_AdvanceAnimations).

Definition syncAndRender_sync : M unit :=
  s <- get ;;
  when (has_flag (RenderThread.pendingUpdate (th s)) SyncRequest) sync.

Definition syncAndRender_render : M unit :=
  s <- get ;;
  foreach (RenderThread.m_windows (th s)) (render_window (host s)).

Definition syncAndRender : M unit :=
  syncAndRender_animate ;;
  syncAndRender_sync ;;
  syncAndRender_render.

(** [QThread::event(e)], reached for what the switch does not handle:
    the queued slot calls are run, other events are not recognised. *)
Definition QThread_event (e : REvent) : M bool :=
  match e with
  | MetaCall slot_animationStarted => rt_animationStarted ;; ret true
  | MetaCall slot_animationStopped => rt_animationStopped ;; ret true
  | _ => ret false
  end.

(** [QSGRenderThread::event(e)] *)
Definition QSGRenderThread_event (e : REvent) : M bool :=
  match e with
  | WM_Expose w size =>
      s <- get ;;
      match windowFor RenderThread.window (RenderThread.m_windows (th s)) w with
      | Some _ => ret true
      | None =>
          upd_th (fun t => ThSet.m_windows
                             (RenderThread.m_windows t ++ [RenderThread.mkWindow w size]) t) ;;
          ret true
      end
  | WM_Obscure w =>
      upd_th (fun t => ThSet.m_windows (rt_removeFirst w (RenderThread.m_windows t)) t) ;;
      s <- get ;;
      when (RenderThread.sleeping (th s) && negb (size_of (RenderThread.m_windows (th s)) =? 0))
           exit ;;
      ret true
  | WM_RequestSync =>
      s <- get ;;
      when (RenderThread.sleeping (th s)) exit ;;
      when (size_of (RenderThread.m_windows (th s)) >? 0)
           (store_pendingUpdate (set_flag (RenderThread.pendingUpdate (th s)) SyncRequest)) ;;
      ret true
  | WM_Resize w size =>
      s <- get ;;
      match windowFor RenderThread.window (RenderThread.m_windows (th s)) w with
      | None => raise NullDereference
      | Some _ =>
          upd_th (fun t => ThSet.m_windows (rt_setSize w size (RenderThread.m_windows t)) t) ;;
          ret true
      end
  | WM_TryRelease w inDestructor =>
      lock RenderThread ;;
      s <- get ;;
      (if size_of (RenderThread.m_windows (th s)) =? 0 then
         invalidateOpenGL w inDestructor ;;
         s1 <- get ;;
         store_shouldExit (negb (RenderThread.gl (th s1))) ;;
         when (RenderThread.sleeping (th s1)) exit
       else ret tt) ;;
      wakeOne ;;
      unlock ;;
      ret true
  | WM_Grab w =>
      s <- get ;;
      let found := windowFor RenderThread.window (RenderThread.m_windows (th s)) w in
      lock RenderThread ;;
      match found with
      | Some r =>
          gl_makeCurrent w ;;
          emit (ASyncSceneGraph (RenderThread.window r)) ;;
          emit (ARenderSceneGraph w (RenderThread.size r)) ;;
          emit (AReadFramebuffer (RenderThread.size r)) ;;
          modify (set_grab_image (FramebufferImage (RenderThread.size r)))
      | None => ret tt
      end ;;
      wakeOne ;;
      unlock ;;
      ret true
  | _ => QThread_event e
  end.

(** ** [QSGThreadedRenderLoop]

    A member function that waits for the render thread is cut at the
    points where the render thread can run in between: each piece is a
    program that returns the program points to go on with, the first of
    them next (the empty list when the function returns). *)

(** [w->pendingUpdate = true] through the pointer [windowFor] returned. *)
Fixpoint gui_setPending (w : window) (l : list RenderLoop.Window) : list RenderLoop.Window :=
  match l with
  | [] => []
  | x :: l' =>
      if Nat.eqb (RenderLoop.window x) w
      then RenderLoop.mkWindow (RenderLoop.window x) true :: l'
      else x :: gui_setPending w l'
  end.

Fixpoint gui_removeFirst (w : window) (l : list RenderLoop.Window) : list RenderLoop.Window :=
  match l with
  | [] => []
  | x :: l' => if Nat.eqb (RenderLoop.window x) w then l' else x :: gui_removeFirst w l'
  end.

(** [QObject::startTimer] hands out the next timer id; ids are positive. *)
Definition startTimer (interval : Z) (precise : bool) : M Z :=
  s <- get ;;
  let id := timer_seq s in
  modify (set_timer_seq (id + 1)) ;;
  emit (AStartTimer id interval precise) ;;
  ret id.

Definition killTimer (id : Z) : M unit := emit (AKillTimer id).

Definition anyoneShowing (s : sys) : bool :=
  existsb (fun c => isVisible (host s) (RenderLoop.window c)
                    && isExposed (host s) (RenderLoop.window c))
          (RenderLoop.m_windows (wm s)).

(** The slots [animationStarted()] and [animationStopped()] of the loop. *)
Definition animationStarted : M unit :=
  s <- get ;;
  when (negb (anyoneShowing s) && (RenderLoop.m_animation_timer (wm s) =? 0))
       (id <- startTimer (qsgrl_animation_interval (host s)) false ;;
        upd_wm (WmSet.m_animation_timer id)).

Definition animationStopped : M unit :=
  s <- get ;;
  when (negb (anyoneShowing s))
       (killTimer (RenderLoop.m_animation_timer (wm s)) ;;
        upd_wm (WmSet.m_animation_timer 0)).

(** The animation driver starts or stops: its signal reaches the render
    thread's slot through the event queue and the loop's slot directly. *)
Definition driverStarted : M (list gframe) :=
  upd_wm (WmSet.driver_running true) ;;
  postRT (MetaCall slot_animationStarted) ;;
  animationStarted ;;
  ret [].

Definition driverStopped : M (list gframe) :=
  upd_wm (WmSet.driver_running false) ;;
  postRT (MetaCall slot_animationStopped) ;;
  animationStopped ;;
  ret [].

Definition show (w : window) : M (list gframe) :=
  upd_wm (fun l => WmSet.m_windows (RenderLoop.m_windows l ++ [RenderLoop.mkWindow w false]) l) ;;
  ret [].

Definition hide (w : window) : M (list gframe) :=
  s <- get ;;
  ret ((if isExposed (host s) w then [F_handleObscurity w] else [])
         ++ [F_releaseResources w false; K_hide_remove w]).

Definition hide_remove (w : window) : M (list gframe) :=
  upd_wm (fun l => WmSet.m_windows (gui_removeFirst w (RenderLoop.m_windows l)) l) ;;
  ret [].

Definition windowDestroyed (w : window) : M (list gframe) :=
  s <- get ;;
  ret ((if isVisible (host s) w then [F_hide w] else []) ++ [F_releaseResources w true]).

Definition exposureChanged (w : window) : M (list gframe) :=
  s <- get ;;
  match windowFor RenderLoop.window (RenderLoop.m_windows (wm s)) w with
  | None => ret []
  | Some _ => if isExposed (host s) w then ret [F_handleExposure w] else ret [F_handleObscurity w]
  end.

(** [window->create()] *)
Definition window_create (w : window) : M unit :=
  modify (fun s =>
            set_host (mkHost (isVisible (host s)) (isExposed (host s))
                             (isPersistentSceneGraph (host s)) (isPersistentOpenGLContext (host s))
                             (fun x => Nat.eqb x w || handle (host s) x)
                             (renderer (host s)) (windowSize (host s)) (refreshRate (host s))) s) ;;
  emit (AWindowCreate w).

(** [handleExposure]: up to the posting of [WM_Expose] ... *)
Definition handleExposure (w : window) : M (list gframe) :=
  s <- get ;;
  when (negb (handle (host s) w)) (window_create w) ;;
  postRT (WM_Expose w (windowSize (host s) w)) ;;
  ret [K_handleExposure_start; F_polishAndSync; K_handleExposure_timer].

(** ... the start of the render thread, before [polishAndSync()] ... *)
Definition handleExposure_start : M (list gframe) :=
  s <- get ;;
  when (negb (isRunning s))
       (store_shouldExit false ;;
        upd_th (ThSet.animationRunning (RenderLoop.driver_running (wm s))) ;;
        modify (set_rpc RLoopTop) ;;
        emit AStartThread) ;;
  ret [].

(** ... and the end, after it. *)
Definition handleExposure_timer : M (list gframe) :=
  s <- get ;;
  when (negb (RenderLoop.m_animation_timer (wm s) =? 0))
       (killTimer (RenderLoop.m_animation_timer (wm s)) ;;
        upd_wm (WmSet.m_animation_timer 0)) ;;
  ret [].

Definition handleObscurity (w : window) : M (list gframe) :=
  s <- get ;;
  when (isRunning s) (postRT (WM_Obscure w)) ;;
  when (negb (anyoneShowing s) && RenderLoop.driver_running (wm s)
        && (RenderLoop.m_animation_timer (wm s) =? 0))
       (id <- startTimer (qsgrl_animation_interval (host s)) false ;;
        upd_wm (WmSet.m_animation_timer id)) ;;
  ret [].

Definition maybeUpdate_assert : string :=
  "Function can only be called from GUI thread or during QQuickItem::updatePaintNode()".

(** [maybeUpdate(window)], called on thread [caller]. *)
Definition maybeUpdate (caller : thread) (w : window) : M unit :=
  s <- get ;;
  Q_ASSERT_X (thread_eqb caller GuiThread || RenderThread.guiIsLocked (th s)) maybeUpdate_assert ;;
  match windowFor RenderLoop.window (RenderLoop.m_windows (wm s)) w with
  | None => ret tt
  | Some r =>
      if RenderLoop.pendingUpdate r || negb (isRunning s) then ret tt
      else if thread_eqb caller RenderThread then postGUI (WM_UpdateLater w)
      else
        upd_wm (fun l => WmSet.m_windows (gui_setPending w (RenderLoop.m_windows l)) l) ;;
        if RenderLoop.m_update_timer (wm s) >? 0 then ret tt
        else
          id <- startTimer (if RenderLoop.driver_running (wm s)
                            then RenderLoop.m_exhaust_delay (wm s) else 0) true ;;
          upd_wm (WmSet.m_update_timer id)
  end.

(** [update(window)], called on thread [caller]. *)
Definition update (caller : thread) (w : window) : M unit :=
  if thread_eqb caller RenderThread then requestRepaint else maybeUpdate caller w.

(** [releaseResources(window, inDestructor)], cut after [mutex.lock()],
    before [wait], inside [wait], and before [mutex.unlock()]. *)
Definition releaseResources (w : window) (inDestructor : bool) : M (list gframe) :=
  lock GuiThread ;; ret [RR_check w inDestructor].

Definition releaseResources_check (w : window) (inDestructor : bool) : M (list gframe) :=
  s <- get ;;
  if isRunning s && negb (RenderThread.shouldExit (th s))
  then postRT (WM_TryRelease w inDestructor) ;; ret [RR_wait]
  else ret [RR_unlock].

Definition releaseResources_wait : M (list gframe) := wait ;; ret [RR_waiting].
Definition releaseResources_waiting : M (list gframe) := wait_return ;; ret [RR_unlock].
Definition releaseResources_unlock : M (list gframe) := unlock ;; ret [].

(** [polishAndSync()]: the polish pass and the clearing of the flags;
    then one piece for each of [lock], [guiIsLocked = true], [postEvent],
    [wait] (two halves), [guiIsLocked = false], [unlock]. *)
Definition polishAndSync : M (list gframe) :=
  s <- get ;;
  if negb (anyoneShowing s) then ret []
  else
    foreach (RenderLoop.m_windows (wm s)) (fun w => emit (APolishItems (RenderLoop.window w))) ;;
    upd_wm (fun l => WmSet.m_windows
                       (map (fun w => RenderLoop.mkWindow (RenderLoop.window w) false)
                            (RenderLoop.m_windows l)) l) ;;
    ret [PS_lock].

Definition polishAndSync_lock : M (list gframe) := lock GuiThread ;; ret [PS_setLocked].
Definition polishAndSync_setLocked : M (list gframe) := store_guiIsLocked true ;; ret [PS_post].
Definition polishAndSync_post : M (list gframe) := postRT WM_RequestSync ;; ret [PS_wait].
Definition polishAndSync_wait : M (list gframe) := wait ;; ret [PS_waiting].
Definition polishAndSync_waiting : M (list gframe) := wait_return ;; ret [PS_clearLocked].
Definition polishAndSync_clearLocked : M (list gframe) := store_guiIsLocked false ;; ret [PS_unlock].
Definition polishAndSync_unlock : M (list gframe) := unlock ;; ret [].

(** [QSGThreadedRenderLoop::event(e)] *)
Definition QSGThreadedRenderLoop_event (e : GEvent) : M (list gframe) :=
  match e with
  | TimerEvent id =>
      s <- get ;;
      if id =? RenderLoop.m_animation_timer (wm s) then emit AAdvance ;; ret []
      else if id =? RenderLoop.m_update_timer (wm s) then
        killTimer (RenderLoop.m_update_timer (wm s)) ;;
        upd_wm (WmSet.m_update_timer 0) ;;
        ret [F_polishAndSync]
      else ret []
  | WM_UpdateLater w =>
      s <- get ;;
      match windowFor RenderLoop.window (RenderLoop.m_windows (wm s)) w with
      | Some _ => maybeUpdate GuiThread w ;; ret []
      | None => ret []
      end
  | WM_AdvanceAnimations =>
      s <- get ;;
      store_animationRequestsPending (wrap32 (RenderThread.animationRequestsPending (th s) - 1)) ;;
      when (RenderLoop.driver_running (wm s)) (emit AAdvance) ;;
      ret []
  end.

(** [grab(window)], cut like [polishAndSync]. *)
Definition grab (w : window) : M (list gframe) :=
  s <- get ;;
  if negb (isRunning s) then modify (set_grab_return (Some NullImage)) ;; ret []
  else
    when (negb (handle (host s) w)) (window_create w) ;;
    emit (APolishItems w) ;;
    modify (set_grab_image NullImage) ;;
    ret [G_lock w].

Definition grab_lock (w : window) : M (list gframe) := lock GuiThread ;; ret [G_post w].
Definition grab_post (w : window) : M (list gframe) := postRT (WM_Grab w) ;; ret [G_wait].
Definition grab_wait : M (list gframe) := wait ;; ret [G_waiting].
Definition grab_waiting : M (list gframe) := wait_return ;; ret [G_unlock].
Definition grab_unlock : M (list gframe) :=
  unlock ;;
  modify (fun s => set_grab_return (Some (grab_image s)) s) ;;
  ret [].

Definition resize (w : window) (size : QSize) : M (list gframe) :=
  s <- get ;;
  if negb (isRunning s) || (size_of (RenderLoop.m_windows (wm s)) =? 0)
     || negb (isExposed (host s) w)
     || match windowFor RenderLoop.window (RenderLoop.m_windows (wm s)) w with
        | None => true | Some _ => false end
  then ret []
  else if degenerate size then ret []
  else postRT (WM_Resize w size) ;; ret [F_polishAndSync].

(** The piece of code at a program point of the GUI thread. *)
Definition gui_frame (f : gframe) : M (list gframe) :=
  match f with
  | F_show w => show w
  | F_hide w => hide w
  | F_windowDestroyed w => windowDestroyed w
  | F_exposureChanged w => exposureChanged w
  | F_handleExposure w => handleExposure w
  | F_handleObscurity w => handleObscurity w
  | F_maybeUpdate w => maybeUpdate GuiThread w ;; ret []
  | F_update w => update GuiThread w ;; ret []
  | F_releaseResources w d => releaseResources w d
  | F_polishAndSync => polishAndSync
  | F_grab w => grab w
  | F_resize w sz => resize w sz
  | F_event e => QSGThreadedRenderLoop_event e
  | F_driverStarted => driverStarted
  | F_driverStopped => driverStopped
  | K_hide_remove w => hide_remove w
  | K_handleExposure_start => handleExposure_start
  | K_handleExposure_timer => handleExposure_timer
  | PS_lock => polishAndSync_lock
  | PS_setLocked => polishAndSync_setLocked
  | PS_post => polishAndSync_post
  | PS_wait => polishAndSync_wait
  | PS_waiting => polishAndSync_waiting
  | PS_clearLocked => polishAndSync_clearLocked
  | PS_unlock => polishAndSync_unlock
  | RR_check w d => releaseResources_check w d
  | RR_wait => releaseResources_wait
  | RR_waiting => releaseResources_waiting
  | RR_unlock => releaseResources_unlock
  | G_lock w => grab_lock w
  | G_post w => grab_post w
  | G_wait => grab_wait
  | G_waiting => grab_waiting
  | G_unlock => grab_unlock
  end.

(** ** [QSGRenderThread::run()] and the two threads together *)

Definition block {A} : M A := fun _ => Blocked.

(** The event loop of the render thread delivers the first posted event. *)
Definition deliver_head : M unit :=
  s <- get ;;
  match rq s with
  | [] => block
  | e :: q => modify (set_rq q) ;; QSGRenderThread_event e ;; ret tt
  end.

Definition run_assert : string :=
  "The OpenGL context should be cleaned up before exiting the render thread...".

(** One step of [run()] from the program point of the render thread; the
    result is the next program point.  [leave] asks the event processing
    of [QCoreApplication::processEvents()] or of [exec()] to return
    ([exec()] returns only once [exit()] was called). *)
Definition run_step (leave : bool) : M rpoint :=
  s <- get ;;
  match rpc s with
  | RNotRunning => block
  | RLoopTop =>
      if RenderThread.shouldExit (th s)
      then Q_ASSERT_X (negb (RenderThread.gl (th s))) run_assert ;; ret RNotRunning
      else ret RLoopBody
  | RLoopBody =>
      if size_of (RenderThread.m_windows (th s)) >? 0 then
        when (negb (RenderThread.gl (th s))) initializeOpenGL ;;
        s1 <- get ;;
        when (negb (RenderThread.sg_ready (th s1)))
             (upd_th (ThSet.sg_ready true) ;; emit ASgInitialize) ;;
        ret RAnimTest
      else ret RProcessEvents
  | RAnimTest =>
      if RenderThread.animationRunning (th s) && (RenderThread.animationRequestsPending (th s) <? 2)
      then ret RAnimInc else ret RSync
  | RAnimInc =>
      store_animationRequestsPending (wrap32 (RenderThread.animationRequestsPending (th s) + 1)) ;;
      ret RAnimPost
  | RAnimPost => postGUI WM_AdvanceAnimations ;; ret RSync
  | RSync => syncAndRender_sync ;; ret RRender
  | RRender => syncAndRender_render ;; ret RProcessEvents
  | RProcessEvents =>
      if leave then emit ASendDeferredDelete ;; ret RSleepTest
      else deliver_head ;; ret RProcessEvents
  | RSleepTest =>
      if negb (RenderThread.shouldExit (th s))
         && ((negb (RenderThread.animationRunning (th s))
              && (RenderThread.pendingUpdate (th s) =? 0))
             || (size_of (RenderThread.m_windows (th s)) =? 0))
      then upd_th (ThSet.sleeping true) ;; ret RExec
      else ret RLoopTop
  | RExec =>
      if leave then
        if RenderThread.exit_called (th s)
        then upd_th (fun t => ThSet.sleeping false (ThSet.exit_called false t)) ;; ret RLoopTop
        else block
      else deliver_head ;; ret RExec
  end.

(** What the scene graph may call back on the render thread. *)
Inductive callback := cb_update (w : window) | cb_maybeUpdate (w : window).

Definition run_callback (cb : callback) : M unit :=
  match cb with
  | cb_update w => update RenderThread w
  | cb_maybeUpdate w => maybeUpdate RenderThread w
  end.

(** The operations the host calls on the loop. *)
Definition host_callable (f : gframe) : bool :=
  match f with
  | F_show _ | F_hide _ | F_windowDestroyed _ | F_exposureChanged _
  | F_maybeUpdate _ | F_update _ | F_releaseResources _ false | F_grab _ | F_resize _ _
  | F_driverStarted | F_driverStopped => true
  | _ => false
  end.

(** Points at which the GUI thread holds the mutex, and points inside
    [waitCondition.wait]. *)
Definition holds_mutex (f : option gframe) : bool :=
  match f with
  | Some (PS_setLocked | PS_post | PS_wait | PS_clearLocked | PS_unlock
         | RR_check _ _ | RR_wait | RR_unlock | G_post _ | G_wait | G_unlock) => true
  | _ => false
  end.

Definition in_wait (f : option gframe) : bool :=
  match f with
  | Some (PS_waiting | RR_waiting | G_waiting) => true
  | _ => false
  end.

(** The program point the GUI thread is at, if it is inside a call. *)
Definition gui_at (s : sys) : option gframe := hd_error (gstack s).

(** The moves of the system: the host calls an operation or changes the
    windows' attributes; a timer that was started fires; the GUI event
    loop delivers an event; the GUI thread goes on to its next program
    point, or an item calls [maybeUpdate] back from inside an operation
    (outside the critical sections); the render thread goes on, or the
    scene graph calls back on it. *)
Inductive choice :=
| HostCall (f : gframe)
| HostChange (h : Host)
| TimerFires (id : Z)
| GuiDeliver
| GuiStep
| GuiCallback (w : window)
| RtStep
| RtLeave
| RtCallback (cb : callback).

Definition settle {A} (s : sys) (o : outcome A) (k : A -> sys -> sys) : option (sys * trace) :=
  match o with
  | Ok a s' t => Some (k a s', t)
  | Fault f t => Some (set_crashed (Some f) s, t)
  | Blocked => None
  end.

Definition step (c : choice) (s : sys) : option (sys * trace) :=
  match crashed s with
  | Some _ => None
  | None =>
      match c with
      | HostCall f =>
          match gstack s with
          | [] => if host_callable f then Some (set_gstack [f] s, []) else None
          | _ :: _ => None
          end
      | HostChange h => Some (set_host h s, [])
      | TimerFires id =>
          if (1 <=? id) && (id <? timer_seq s)
          then Some (set_gq (gq s ++ [TimerEvent id]) s, [])
          else None
      | GuiDeliver =>
          match gstack s, gq s with
          | [], e :: q => Some (set_gstack [F_event e] (set_gq q s), [])
          | _, _ => None
          end
      | GuiStep =>
          match gstack s with
          | [] => None
          | f :: k => settle s (gui_frame f s) (fun fs s' => set_gstack (fs ++ k) s')
          end
      | GuiCallback w =>
          match gstack s with
          | [] => None
          | _ :: _ =>
              if holds_mutex (gui_at s) || in_wait (gui_at s) then None
              else settle s (maybeUpdate GuiThread w s) (fun _ s' => s')
          end
      | RtStep => settle s (run_step false s) set_rpc
      | RtLeave => settle s (run_step true s) set_rpc
      | RtCallback cb =>
          if isRunning s then settle s (run_callback cb s) (fun _ s' => s') else None
      end
  end.

Fixpoint run (cs : list choice) (s : sys) : option (sys * trace) :=
  match cs with
  | [] => Some (s, [])
  | c :: cs' =>
      match step c s with
      | None => None
      | Some (s1, t1) =>
          match run cs' s1 with
          | None => None
          | Some (s2, t2) => Some (s2, t1 ++ t2)
          end
      end
  end.

(** The constructors, and the system they build. *)
Definition QSGRenderThread_ctor : RenderThread.t :=
  RenderThread.mk false false 0 false false false false 0 None NoWaiter [] false.

Definition QSGThreadedRenderLoop_ctor (p : Platform) : RenderLoop.t :=
  RenderLoop.mk [] 0 0 (get_env_int p "QML_EXHAUST_DELAY" 5) false.

Definition init (p : Platform) (h : Host) : sys :=
  mkSys QSGRenderThread_ctor (QSGThreadedRenderLoop_ctor p) h 1 [] [] [] RNotRunning
        NullImage None None.

Definition reachable (p : Platform) (h : Host) (s : sys) : Prop :=
  exists cs t, run cs (init p h) = Some (s, t).

(** ** Vocabulary of the statements *)

Definition is_lock (a : action) : bool := match a with ALock => true | _ => false end.
Definition is_unlock (a : action) : bool := match a with AUnlock => true | _ => false end.
Definition is_wake (a : action) : bool := match a with AWakeOne => true | _ => false end.
Definition is_wait (a : action) : bool := match a with AWait => true | _ => false end.
Definition is_post (a : action) : bool :=
  match a with APostRT _ | APostGUI _ => true | _ => false end.
Definition is_invalidate_call (a : action) : bool :=
  match a with ACall_invalidateOpenGL _ _ => true | _ => false end.
Definition is_store_of (f : field) (a : action) : bool :=
  match a, f with
  | AStore f_pendingUpdate _, f_pendingUpdate
  | AStore f_guiIsLocked _, f_guiIsLocked
  | AStore f_shouldExit _, f_shouldExit
  | AStore f_animationRequestsPending _, f_animationRequestsPending => true
  | _, _ => false
  end.

(** Uses of the mutex and of the wait condition. *)
Definition is_sync_action (a : action) : bool :=
  is_lock a || is_unlock a || is_wake a || is_wait a.

Definition count (p : action -> bool) (t : trace) : nat := List.length (filter p t).

Definition trace_of {A} (o : outcome A) : trace :=
  match o with
  | Ok _ _ t => t
  | Fault _ t => t
  | Blocked => []
  end.

(** The thread object after [wakeOne()]. *)
Definition woken (t : RenderThread.t) : RenderThread.t :=
  match RenderThread.waitCondition t with
  | GuiWaiting => ThSet.waitCondition GuiWoken t
  | _ => t
  end.

(** The windows [invalidateOpenGL(w, inDestructor)] asks for their
    persistence: all those of the loop, but [w] itself in the destructor. *)
Definition remaining (inDestructor : bool) (w : window) (l : list RenderLoop.Window)
  : list window :=
  filter (fun x => negb inDestructor || negb (Nat.eqb x w)) (map RenderLoop.window l).

Definition anyPersistentSG (h : Host) (inDestructor : bool) (w : window)
           (l : list RenderLoop.Window) : bool :=
  existsb (isPersistentSceneGraph h) (remaining inDestructor w l).

Definition anyPersistentGL (h : Host) (inDestructor : bool) (w : window)
           (l : list RenderLoop.Window) : bool :=
  existsb (isPersistentOpenGLContext h) (remaining inDestructor w l).

(** What [sync()] and the rendering loop do for one window record. *)
Definition sync_actions (w : RenderThread.Window) : trace :=
  if degenerate (RenderThread.size w) then []
  else [AMakeCurrent (RenderThread.window w); ASyncSceneGraph (RenderThread.window w)].

Definition render_actions (h : Host) (w : RenderThread.Window) : trace :=
  if negb (renderer h (RenderThread.window w)) || degenerate (RenderThread.size w) then []
  else [AMakeCurrent (RenderThread.window w);
        ARenderSceneGraph (RenderThread.window w) (RenderThread.size w);
        ASwapBuffers (RenderThread.window w);
        AFireFrameSwapped (RenderThread.window w)].

(** The persistence claim in its first form: after a [WM_TryRelease]
    handled with no window left on the render thread, the context is
    there iff a remaining window asks for a persistent context. *)
Definition context_survives_iff_persistentGL (s : sys) (w : window) (d : bool) : Prop :=
  forall s' t,
    RenderThread.gl (th s) = true ->
    RenderThread.m_windows (th s) = [] ->
    QSGRenderThread_event (WM_TryRelease w d) s = Ok true s' t ->
    (RenderThread.gl (th s') = true
     <-> anyPersistentGL (host s) d w (RenderLoop.m_windows (wm s)) = true).

(** ** Concrete systems, for examples *)

Definition platform0 : Platform := mkPlatform (fun _ => EmptyString) (fun _ => (0, false)).

Definition size0 : QSize := mkSize 640 480.

(** Every window visible and exposed, none persistent. *)
Definition host0 : Host :=
  mkHost (fun _ => true) (fun _ => true) (fun _ => false) (fun _ => false)
         (fun _ => true) (fun _ => true) (fun _ => size0) (inject_Z 60).

(** The same, with every window asking for a persistent scene graph. *)
Definition host_persistentSG : Host :=
  mkHost (fun _ => true) (fun _ => true) (fun _ => true) (fun _ => false)
         (fun _ => true) (fun _ => true) (fun _ => size0) (inject_Z 60).

Definition sys0 : sys := init platform0 host0.

(** The render thread tracking window 2 only. *)
Definition sys_tracking_2 : sys :=
  set_th (ThSet.m_windows [RenderThread.mkWindow 2%nat size0] (th sys0)) sys0.

(** The render thread with a context and no window left; the loop shows
    window 1, which asks for a persistent scene graph and not for a
    persistent context. *)
Definition sys_release_persistentSG : sys :=
  set_wm (WmSet.m_windows [RenderLoop.mkWindow 1%nat false] (wm sys0))
    (set_th (ThSet.gl true (th sys0)) (set_host host_persistentSG sys0)).

Definition is_sg_invalidate (a : action) : bool :=
  match a with ASgInvalidate => true | _ => false end.
Definition is_delete_context (a : action) : bool :=
  match a with ADeleteContext => true | _ => false end.

(** The windows the rendering loop passes over. *)
Definition render_skipped (h : Host) (w : RenderThread.Window) : bool :=
  negb (renderer h (RenderThread.window w)) || degenerate (RenderThread.size w).

(** The state [sync()] leaves. *)
Definition after_sync (s : sys) : sys :=
  set_th (ThSet.mutex None
            (woken (ThSet.pendingUpdate 0 (ThSet.mutex (Some RenderThread) (th s))))) s.

(** The state the first part of [syncAndRender()] leaves when it posts. *)
Definition after_animate (s : sys) : sys :=
  set_gq (gq s ++ [WM_AdvanceAnimations])
    (set_th (ThSet.animationRequestsPending
               (wrap32 (RenderThread.animationRequestsPending (th s) + 1)) (th s)) s).

(** The actions that sync, draw or present window [w]. *)
Definition draws (w : window) (a : action) : bool :=
  match a with
  | AMakeCurrent x | ASyncSceneGraph x | ARenderSceneGraph x _ | ASwapBuffers x
  | AFireFrameSwapped x => Nat.eqb x w
  | _ => false
  end.

(** ** The protocol invariant *)

(** Points between the two writes of [guiIsLocked] in [polishAndSync]. *)
Definition locked_at (f : option gframe) : bool :=
  match f with
  | Some (PS_post | PS_wait | PS_waiting | PS_clearLocked) => true
  | _ => false
  end.

(** Points a caller can be suspended at while its callee runs: what may
    lie below the top of the GUI thread's stack. *)
Definition resumable (f : gframe) : bool :=
  match f with
  | F_hide _ | F_handleExposure _ | F_handleObscurity _ | F_releaseResources _ _
  | F_polishAndSync | K_hide_remove _ | K_handleExposure_start | K_handleExposure_timer => true
  | _ => false
  end.

Definition is_RequestSync (e : REvent) : bool :=
  match e with WM_RequestSync => true | _ => false end.
Definition is_TryRelease (e : REvent) : bool :=
  match e with WM_TryRelease _ _ => true | _ => false end.
Definition is_Grab (e : REvent) : bool :=
  match e with WM_Grab _ => true | _ => false end.
Definition is_AdvanceAnimations (e : GEvent) : bool :=
  match e with WM_AdvanceAnimations => true | _ => false end.

Definition occ {T} (p : T -> bool) (l : list T) : nat := List.length (filter p l).

(** Sync requests under way: the [WM_RequestSync] events not yet
    delivered, and the [SyncRequest] flag once one was. *)
Definition sync_requests (s : sys) : nat :=
  occ is_RequestSync (rq s)
  + (if has_flag (RenderThread.pendingUpdate (th s)) SyncRequest then 1 else 0).

(** The GUI thread has posted its request and is not woken yet: at the
    point before the wait, or inside it. *)
Definition awaits (before inside : gframe -> bool) (s : sys) : nat :=
  match gui_at s with
  | Some f =>
      if before f then 1
      else if inside f then
             match RenderThread.waitCondition (th s) with GuiWaiting => 1 | _ => 0 end
           else 0
  | None => 0
  end%nat.

Definition awaits_sync : sys -> nat :=
  awaits (fun f => match f with PS_wait => true | _ => false end)
         (fun f => match f with PS_waiting => true | _ => false end).
Definition awaits_release : sys -> nat :=
  awaits (fun f => match f with RR_wait => true | _ => false end)
         (fun f => match f with RR_waiting => true | _ => false end).
Definition awaits_grab : sys -> nat :=
  awaits (fun f => match f with G_wait => true | _ => false end)
         (fun f => match f with G_waiting => true | _ => false end).

(** Points of [run()] inside [syncAndRender()]. *)
Definition in_syncAndRender (p : rpoint) : bool :=
  match p with
  | RAnimTest | RAnimInc | RAnimPost | RSync | RRender => true
  | _ => false
  end.

(** [WM_AdvanceAnimations] messages in flight: posted and not delivered,
    or delivered to a handler that has not counted it down yet. *)
Definition in_flight (s : sys) : nat :=
  occ is_AdvanceAnimations (gq s)
  + match gui_at s with Some (F_event WM_AdvanceAnimations) => 1 | _ => 0 end.

Record protocol_inv (s : sys) : Prop := {
  inv_mutex :
    RenderThread.mutex (th s) = if holds_mutex (gui_at s) then Some GuiThread else None;
  inv_wait :
    in_wait (gui_at s) = negb match RenderThread.waitCondition (th s) with
                              | NoWaiter => true | _ => false end;
  inv_locked : RenderThread.guiIsLocked (th s) = locked_at (gui_at s);
  inv_stack : forallb resumable (tl (gstack s)) = true;
  inv_sync : (sync_requests s <= awaits_sync s)%nat;
  inv_release : (occ is_TryRelease (rq s) <= awaits_release s)%nat;
  inv_grab : (occ is_Grab (rq s) <= awaits_grab s)%nat;
  inv_context : in_syncAndRender (rpc s) = true -> RenderThread.gl (th s) = true;
  inv_no_sync_assert : crashed s <> Some (AssertFailure sync_assert)
}.

Record animation_inv (s : sys) : Prop := {
  inv_counter :
    RenderThread.animationRequestsPending (th s)
    = Z.of_nat (in_flight s) + (match rpc s with RAnimPost => 1 | _ => 0 end);
  inv_bound : RenderThread.animationRequestsPending (th s) <= 2;
  inv_tested :
    rpc s = RAnimInc -> RenderThread.animationRequestsPending (th s) < 2
}.

(** What never changes, or only grows. *)
Record config_inv (p : Platform) (s : sys) : Prop := {
  inv_exhaust_delay :
    RenderLoop.m_exhaust_delay (wm s) = get_env_int p "QML_EXHAUST_DELAY" 5;
  inv_timer_seq : 1 <= timer_seq s;
  inv_nodup : NoDup (map RenderThread.window (RenderThread.m_windows (th s)))
}.

(** The states [maybeUpdate] leaves on the GUI thread: the window
    flagged, and the update timer started as well. *)
Definition flagged (w : window) (s : sys) : sys :=
  set_wm (WmSet.m_windows (gui_setPending w (RenderLoop.m_windows (wm s))) (wm s)) s.

Definition timer_started (w : window) (s : sys) : sys :=
  set_wm (WmSet.m_update_timer (timer_seq s)
            (WmSet.m_windows (gui_setPending w (RenderLoop.m_windows (wm s))) (wm s)))
         (set_timer_seq (timer_seq s + 1) s).



(** The counters: the animation requests and what never changes. *)
Definition counters_inv (p : Platform) (s : sys) : Prop := animation_inv s /\ config_inv p s.

(** ** Runs used as examples *)

Definition state_after (cs : list choice) (s : sys) : sys :=
  match run cs s with Some (s', _) => s' | None => s end.

Definition trace_after (cs : list choice) (s : sys) : trace :=
  match run cs s with Some (_, t) => t | None => [] end.

(** Window 1 is shown and exposed; the GUI thread starts the render
    thread and waits in [polishAndSync()] ... *)
Definition run_to_wait : list choice :=
  [HostCall (F_show 1%nat); GuiStep; HostCall (F_exposureChanged 1%nat)] ++ repeat GuiStep 8.

(** ... the render thread takes [WM_Expose] and [WM_RequestSync], makes
    its context and reaches the call of [sync()] ... *)
Definition run_to_sync : list choice :=
  run_to_wait ++ repeat RtStep 4 ++ [RtLeave] ++ repeat RtStep 4.

(** ... syncs, the GUI thread returns, the first frame is rendered. *)
Definition run_first_frame : list choice :=
  run_to_sync ++ [RtStep] ++ repeat GuiStep 4 ++ [RtStep].

(** An animation starts after the first frame, and the render thread
    comes to the increment of its counter. *)
Definition run_to_increment : list choice :=
  run_first_frame ++ [HostCall F_driverStarted; GuiStep; RtStep; RtLeave]
    ++ repeat RtStep 4.

(** Window 1 shrunk to width zero next to window 2, a sync requested and
    the GUI thread waiting for it. *)
Definition sys_degenerate : sys :=
  set_th (RenderThread.mk true true 1 false false true false 0 None GuiWaiting
            [RenderThread.mkWindow 1%nat (mkSize 0 480); RenderThread.mkWindow 2%nat size0]
            false) sys0.

(** Window 1 is shown and rendered with a persistent scene graph, then
    hidden while still exposed, shown again and resized before any
    exposure change is reported. *)
Definition run_resize_race : list choice :=
  run_first_frame
    ++ [HostCall (F_hide 1%nat)] ++ repeat GuiStep 5 ++ repeat RtStep 2 ++ repeat GuiStep 3
    ++ [HostCall (F_show 1%nat); GuiStep; HostCall (F_resize 1%nat (mkSize 800 600)); GuiStep]
    ++ [RtStep].

(** An outcome with its final state changed by [f]. *)
Definition map_state {A} (f : sys -> sys) (o : outcome A) : outcome A :=
  match o with
  | Ok a s t => Ok a (f s) t
  | Fault fl t => Fault fl t
  | Blocked => Blocked
  end.

(** ** Vocabulary of the further properties *)

Definition is_exit (a : action) : bool := match a with AExit => true | _ => false end.

(** The window list of the render thread. *)
Definition rt_windows (s : sys) : list RenderThread.Window := RenderThread.m_windows (th s).

(** The record the render thread has for a window, if any. *)
Definition rt_lookup (s : sys) (w : window) : option RenderThread.Window :=
  windowFor RenderThread.window (rt_windows s) w.

(** The thread object after a handler raised [flag] in [pendingUpdate],
    having called [exit()] first if the thread slept. *)
Definition requested (flag : Z) (t : RenderThread.t) : RenderThread.t :=
  let t1 := if RenderThread.sleeping t then ThSet.exit_called true t else t in
  if size_of (RenderThread.m_windows t) >? 0
  then ThSet.pendingUpdate (set_flag (RenderThread.pendingUpdate t) flag) t1
  else t1.

Definition at_assert : string := "QList::at: index out of range".

(** What [run()] keeps true of the thread object. *)
Record thread_inv (s : sys) : Prop := {
  inv_exit_context :
    RenderThread.shouldExit (th s) = true -> RenderThread.gl (th s) = false;
  inv_loop_body : rpc s = RLoopBody -> RenderThread.shouldExit (th s) = false;
  inv_sleeping :
    RenderThread.sleeping (th s) = match rpc s with RExec => true | _ => false end;
  inv_exit_called : RenderThread.exit_called (th s) = true -> rpc s = RExec;
  inv_two_bits : 0 <= RenderThread.pendingUpdate (th s) <= 3;
  inv_sg_ready : in_syncAndRender (rpc s) = true -> RenderThread.sg_ready (th s) = true;
  inv_faults :
    forall what, crashed s = Some (AssertFailure what) -> what = maybeUpdate_assert;
  inv_stopped : rpc s = RNotRunning -> RenderThread.gl (th s) = false;
  inv_sg_context : RenderThread.sg_ready (th s) = true -> RenderThread.gl (th s) = true
}.

(** A [WM_Resize] event with a size the render thread can use. *)
Definition resize_ok (e : REvent) : bool :=
  match e with
  | WM_Resize _ sz => negb (degenerate sz)
  | _ => true
  end.

(** [animationRunning] as it will be once the slot calls of the queue
    are delivered, [b] being its value now. *)
Fixpoint animationRunning_after (q : list REvent) (b : bool) : bool :=
  match q with
  | [] => b
  | MetaCall slot_animationStarted :: q' => animationRunning_after q' true
  | MetaCall slot_animationStopped :: q' => animationRunning_after q' false
  | _ :: q' => animationRunning_after q' b
  end.

(** What the render loop keeps true of its timers and of what it posts. *)
Record loop_inv (s : sys) : Prop := {
  inv_seq : 1 <= timer_seq s;
  inv_animation_timer : 0 <= RenderLoop.m_animation_timer (wm s) < timer_seq s;
  inv_update_timer : 0 <= RenderLoop.m_update_timer (wm s) < timer_seq s;
  inv_timers_differ :
    RenderLoop.m_update_timer (wm s) = 0
    \/ RenderLoop.m_update_timer (wm s) <> RenderLoop.m_animation_timer (wm s);
  inv_resize_sizes : forallb resize_ok (rq s) = true;
  inv_driver :
    animationRunning_after (rq s) (RenderThread.animationRunning (th s))
    = RenderLoop.driver_running (wm s)
}.

(** After the first frame the render thread finds nothing to do and
    goes to sleep in [exec()] ... *)
Definition run_to_sleep : list choice := run_first_frame ++ [RtLeave; RtStep].

(** ... window 1 is hidden: the render thread forgets it, gives up its
    context and is told to exit ... *)
Definition run_to_release : list choice :=
  run_to_sleep ++ [HostCall (F_hide 1%nat)] ++ repeat GuiStep 5 ++ repeat RtStep 2
    ++ repeat GuiStep 3.

(** ... and [run()] returns. *)
Definition run_to_exit : list choice := run_to_release ++ [RtLeave; RtStep].

(** An item calls [maybeUpdate] on the render thread outside of a sync. *)
Definition run_stray_callback : list choice :=
  run_first_frame ++ [RtCallback (cb_maybeUpdate 1%nat)].

(** The scene changes after the first frame: [maybeUpdate] starts the
    update timer. *)
Definition run_to_update_timer : list choice :=
  run_first_frame ++ [HostCall (F_maybeUpdate 1%nat); GuiStep].

Definition is_MetaCall (e : REvent) : bool :=
  match e with MetaCall _ => true | _ => false end.


Definition gui_move (c : choice) : bool :=
  match c with
  | HostCall _ | TimerFires _ | GuiDeliver | GuiStep | GuiCallback _ => true
  | _ => false
  end.

(** What belongs to the render thread: the GUI thread does not write
    it. *)
Definition render_data (s : sys) :=
  (RenderThread.m_windows (th s), RenderThread.pendingUpdate (th s), RenderThread.gl (th s),
   RenderThread.sg_ready (th s), RenderThread.sleeping (th s), RenderThread.exit_called (th s)).


Definition is_start_thread (a : action) : bool :=
  match a with AStartThread => true | _ => false end.

(** The loop with its animation timer cleared. *)
Definition animation_timer_cleared (s : sys) : sys :=
  set_wm (WmSet.m_animation_timer 0 (wm s)) s.

(** The render thread is inside an event loop: in [processEvents()] or
    in [exec()]. *)
Definition in_event_loop (p : rpoint) : bool :=
  match p with RProcessEvents | RExec => true | _ => false end.

(** The GUI thread waiting for the answer to a request it posted. *)
Definition requested_and_waiting (e : REvent) (s : sys) : sys :=
  set_rq (rq s ++ [e]) (set_th (ThSet.waitCondition GuiWaiting (th s)) s).

(** A grab from the call to the return: the GUI thread up to its wait,
    the render thread handling the event, the GUI thread to the end. *)
Definition run_grab : list choice := repeat GuiStep 4 ++ [RtStep] ++ repeat GuiStep 2.

(** After the first frame the host asks for a grab of window 1. *)
Definition run_to_grab : list choice := run_first_frame ++ [HostCall (F_grab 1%nat)].

(** After the first frame window 1 is resized. *)
Definition run_to_resize : list choice :=
  run_first_frame ++ [HostCall (F_resize 1%nat (mkSize 800 600)); GuiStep].


(** ** Running the programs *)

Unset Implicit Arguments.

Ltac unfold_prims :=
  unfold store_pendingUpdate, store_guiIsLocked, store_shouldExit, store_animationRequestsPending,
    exit, postRT, postGUI, unlock, wakeOne, wait, gl_makeCurrent, Q_ASSERT_X, when, upd_th, upd_wm,
    killTimer, startTimer, window_create, modify, emit, raise, block, get, ret, bind, prefix in *.

Lemma prefix_nil {A} (o : outcome A) : prefix [] o = o.
Proof. destruct o; reflexivity. Qed.

Lemma prefix_prefix {A} (t1 t2 : trace) (o : outcome A) :
  prefix t1 (prefix t2 o) = prefix (t1 ++ t2) o.
Proof. destruct o; simpl; now rewrite ?app_assoc. Qed.

Section MonadLaws.
Context {A B : Type}.

Lemma bind_ret (a : A) (k : A -> M B) (s : sys) : bind (ret a) k s = k a s.
Proof. unfold bind, ret. apply prefix_nil. Qed.

Lemma bind_get (k : sys -> M B) (s : sys) : bind get k s = k s s.
Proof. unfold bind, get. apply prefix_nil. Qed.

Lemma bind_modify (f : sys -> sys) (k : unit -> M B) (s : sys) :
  bind (modify f) k s = k tt (f s).
Proof. unfold bind, modify. apply prefix_nil. Qed.

Lemma bind_emit (a : action) (k : unit -> M B) (s : sys) :
  bind (emit a) k s = prefix [a] (k tt s).
Proof. reflexivity. Qed.

Lemma bind_raise (f : fault) (k : A -> M B) (s : sys) : bind (raise f) k s = Fault f [].
Proof. reflexivity. Qed.

Lemma bind_block (k : A -> M B) (s : sys) : bind block k s = Blocked.
Proof. reflexivity. Qed.

Lemma bind_Ok (m : M A) (k : A -> M B) (s s1 : sys) (a : A) (t : trace) :
  m s = Ok a s1 t -> bind m k s = prefix t (k a s1).
Proof. unfold bind. now intros ->. Qed.

Lemma bind_Fault (m : M A) (k : A -> M B) (s : sys) (f : fault) (t : trace) :
  m s = Fault f t -> bind m k s = Fault f t.
Proof. unfold bind. now intros ->. Qed.

Lemma bind_Blocked (m : M A) (k : A -> M B) (s : sys) :
  m s = Blocked -> bind m k s = Blocked.
Proof. unfold bind. now intros ->. Qed.
End MonadLaws.

Lemma bind_bind {A B C} (m : M A) (k : A -> M B) (k' : B -> M C) (s : sys) :
  bind (bind m k) k' s = bind m (fun a => bind (k a) k') s.
Proof.
  unfold bind. destruct (m s) as [a s1 t1| |]; try reflexivity.
  destruct (k a s1) as [b s2 t2| |]; simpl; try reflexivity.
  now rewrite prefix_prefix.
Qed.

Lemma bind_upd_th {B} (f : RenderThread.t -> RenderThread.t) (k : unit -> M B) (s : sys) :
  bind (upd_th f) k s = k tt (set_th (f (th s)) s).
Proof. unfold upd_th. now rewrite bind_modify. Qed.

Lemma bind_upd_wm {B} (f : RenderLoop.t -> RenderLoop.t) (k : unit -> M B) (s : sys) :
  bind (upd_wm f) k s = k tt (set_wm (f (wm s)) s).
Proof. unfold upd_wm. now rewrite bind_modify. Qed.

Lemma bind_lock_free {B} (who : thread) (k : unit -> M B) (s : sys) :
  RenderThread.mutex (th s) = None ->
  bind (lock who) k s = prefix [ALock] (k tt (set_th (ThSet.mutex (Some who) (th s)) s)).
Proof. intros H. unfold bind, lock. now rewrite H. Qed.

Lemma bind_lock_held {B} (who : thread) (k : unit -> M B) (s : sys) :
  RenderThread.mutex (th s) <> None -> bind (lock who) k s = Blocked.
Proof. intros H. unfold bind, lock. destruct (RenderThread.mutex (th s)); congruence. Qed.

Lemma bind_wakeOne {B} (k : unit -> M B) (s : sys) :
  bind wakeOne k s = prefix [AWakeOne] (k tt (set_th (woken (th s)) s)).
Proof. unfold wakeOne. rewrite bind_bind, bind_upd_th, bind_emit. reflexivity. Qed.

Lemma bind_unlock {B} (k : unit -> M B) (s : sys) :
  bind unlock k s = prefix [AUnlock] (k tt (set_th (ThSet.mutex None (th s)) s)).
Proof. unfold unlock. rewrite bind_bind, bind_upd_th, bind_emit. reflexivity. Qed.

Lemma bind_when_true {B} (m : M unit) (k : unit -> M B) (s : sys) :
  bind (when true m) k s = bind m k s.
Proof. reflexivity. Qed.

Lemma bind_when_false {B} (m : M unit) (k : unit -> M B) (s : sys) :
  bind (when false m) k s = k tt s.
Proof. unfold when. apply bind_ret. Qed.

Lemma bind_exit {B} (k : unit -> M B) (s : sys) :
  bind exit k s = prefix [AExit] (k tt (set_th (ThSet.exit_called true (th s)) s)).
Proof. unfold exit. rewrite bind_bind, bind_upd_th, bind_emit. reflexivity. Qed.

Lemma bind_store_shouldExit {B} (v : bool) (k : unit -> M B) (s : sys) :
  bind (store_shouldExit v) k s
  = prefix [AStore f_shouldExit (b2z v)] (k tt (set_th (ThSet.shouldExit v (th s)) s)).
Proof. unfold store_shouldExit. rewrite bind_bind, bind_upd_th, bind_emit. reflexivity. Qed.

Lemma bind_store_pendingUpdate {B} (v : Z) (k : unit -> M B) (s : sys) :
  bind (store_pendingUpdate v) k s
  = prefix [AStore f_pendingUpdate v] (k tt (set_th (ThSet.pendingUpdate v (th s)) s)).
Proof. unfold store_pendingUpdate. rewrite bind_bind, bind_upd_th, bind_emit. reflexivity. Qed.

Lemma bind_store_guiIsLocked {B} (v : bool) (k : unit -> M B) (s : sys) :
  bind (store_guiIsLocked v) k s
  = prefix [AStore f_guiIsLocked (b2z v)] (k tt (set_th (ThSet.guiIsLocked v (th s)) s)).
Proof. unfold store_guiIsLocked. rewrite bind_bind, bind_upd_th, bind_emit. reflexivity. Qed.

Lemma bind_postRT {B} (e : REvent) (k : unit -> M B) (s : sys) :
  bind (postRT e) k s = prefix [APostRT e] (k tt (set_rq (rq s ++ [e]) s)).
Proof. unfold postRT. rewrite bind_bind, bind_modify, bind_emit. reflexivity. Qed.

Lemma bind_postGUI {B} (e : GEvent) (k : unit -> M B) (s : sys) :
  bind (postGUI e) k s = prefix [APostGUI e] (k tt (set_gq (gq s ++ [e]) s)).
Proof. unfold postGUI. rewrite bind_bind, bind_modify, bind_emit. reflexivity. Qed.

Create Rewrite HintDb prog.
#[local] Hint Rewrite @bind_bind @bind_ret @bind_get @bind_modify @bind_emit @bind_raise @bind_block
  @bind_upd_th @bind_upd_wm @bind_wakeOne @bind_unlock @bind_when_true @bind_when_false @bind_exit
  @bind_store_shouldExit @bind_store_pendingUpdate @bind_store_guiIsLocked @bind_postRT
  @bind_postGUI @prefix_prefix @prefix_nil : prog.

Ltac norm_trace := simpl; repeat rewrite <- app_assoc; simpl.

Ltac prog := repeat (progress (autorewrite with prog; cbv beta)); simpl prefix.

Lemma th_mutex_free_eta (t : RenderThread.t) :
  RenderThread.mutex t = None -> ThSet.mutex None t = t.
Proof. destruct t; simpl; intros ->; reflexivity. Qed.

Lemma relock_eta (who : thread) (t : RenderThread.t) :
  RenderThread.mutex t = None -> ThSet.mutex None (ThSet.mutex (Some who) t) = t.
Proof. destruct t; simpl; intros ->; reflexivity. Qed.

Lemma set_th_eta (s : sys) : set_th (th s) s = s.
Proof. destruct s; reflexivity. Qed.

Lemma count_app p t1 t2 : count p (t1 ++ t2) = (count p t1 + count p t2)%nat.
Proof. unfold count. now rewrite filter_app, length_app. Qed.

Lemma count_cons p a t : count p (a :: t) = ((if p a then 1 else 0) + count p t)%nat.
Proof. unfold count. simpl. destruct (p a); reflexivity. Qed.

Lemma count_nil p : count p [] = 0%nat.
Proof. reflexivity. Qed.

Lemma count_wake_sync t : count is_sync_action t = 0%nat -> count is_wake t = 0%nat.
Proof.
  induction t as [|a t IH]; [reflexivity|].
  rewrite !count_cons. unfold is_sync_action.
  destruct a; simpl; try discriminate; exact IH.
Qed.

Ltac count_simpl := repeat (progress (rewrite ?count_cons, ?count_app, ?count_nil)).

Lemma persistence_spec h d w l a b :
  persistence h d w l (a, b)
  = (a || anyPersistentSG h d w l, b || anyPersistentGL h d w l).
Proof.
  unfold anyPersistentSG, anyPersistentGL, remaining.
  revert a b; induction l as [|x l IH]; intros a b; simpl.
  - now rewrite !orb_false_r.
  - destruct (negb d || negb (Nat.eqb (RenderLoop.window x) w)); simpl; rewrite IH.
    + now rewrite !orb_assoc.
    + reflexivity.
Qed.

(** [invalidateOpenGL] always returns, never touches the mutex or the
    wait condition, and leaves the window list alone. *)
Lemma invalidateOpenGL_runs (w : window) (d : bool) (s : sys) :
  exists s' t,
    invalidateOpenGL w d s = Ok tt s' (ACall_invalidateOpenGL w d :: t)
    /\ count is_sync_action t = 0%nat
    /\ count is_invalidate_call t = 0%nat
    /\ count (is_store_of f_shouldExit) t = 0%nat
    /\ RenderThread.mutex (th s') = RenderThread.mutex (th s)
    /\ RenderThread.waitCondition (th s') = RenderThread.waitCondition (th s)
    /\ RenderThread.sleeping (th s') = RenderThread.sleeping (th s)
    /\ RenderThread.shouldExit (th s') = RenderThread.shouldExit (th s)
    /\ RenderThread.m_windows (th s') = RenderThread.m_windows (th s).
Proof.
  unfold invalidateOpenGL. unfold_prims.
  destruct (RenderThread.gl (th s)) eqn:Hgl; simpl.
  2:{ eexists _, _. repeat split. }
  destruct (Nat.eqb w 0) eqn:Hw; simpl.
  { eexists _, _. repeat split. }
  destruct (persistence (host s) d w (RenderLoop.m_windows (wm s)) (false, false)) as [psg pgl].
  rewrite Hgl. simpl.
  destruct psg, d, pgl; simpl; eexists _, _; repeat split.
Qed.

(** C1. For every [WM_TryRelease] event the handler takes the mutex,
    signals the wait condition exactly once and releases the mutex before
    it returns, whether or not it tears anything down; it calls
    [invalidateOpenGL] and writes [shouldExit] only when the render
    thread's window list is empty, and then [shouldExit] is true iff the
    context is gone afterwards. *)
Theorem tryRelease_completes_rendezvous (s : sys) (w : window) (d : bool) :
  RenderThread.mutex (th s) = None ->
  exists s' mid,
    QSGRenderThread_event (WM_TryRelease w d) s
    = Ok true s' (ALock :: mid ++ [AWakeOne; AUnlock])
    /\ count is_sync_action mid = 0%nat
    /\ count is_wake (ALock :: mid ++ [AWakeOne; AUnlock]) = 1%nat
    /\ RenderThread.mutex (th s') = None
    /\ RenderThread.waitCondition (th s') = RenderThread.waitCondition (woken (th s))
    /\ (RenderThread.m_windows (th s) <> [] ->
        mid = [] /\ s' = set_th (woken (th s)) s)
    /\ (RenderThread.m_windows (th s) = [] ->
        count is_invalidate_call mid = 1%nat
        /\ count (is_store_of f_shouldExit) mid = 1%nat
        /\ RenderThread.shouldExit (th s') = negb (RenderThread.gl (th s'))).
Proof.
  intros Hm. unfold QSGRenderThread_event.
  rewrite (bind_lock_free _ _ _ Hm), bind_get.
  set (s1 := set_th (ThSet.mutex (Some RenderThread) (th s)) s).
  assert (Hw1 : RenderThread.m_windows (th s1) = RenderThread.m_windows (th s)) by reflexivity.
  rewrite Hw1.
  destruct (RenderThread.m_windows (th s)) as [|r l] eqn:Hl.
  - (* no window left: teardown *)
    simpl (size_of [] =? 0). cbv iota.
    destruct (invalidateOpenGL_runs w d s1)
      as (s2 & t & Hinv & Hc & Hci & Hse & Hmu & Hwc & Hsl & _ & Hws).
    rewrite !bind_bind, (bind_Ok _ _ _ _ _ _ Hinv). cbv beta.
    prog.
    assert (Hwk : RenderThread.waitCondition (woken (th s))
                  = match RenderThread.waitCondition (th s2) with
                    | GuiWaiting => GuiWoken | c => c end).
    { rewrite Hwc. unfold woken. subst s1. simpl.
      destruct (RenderThread.waitCondition (th s)) eqn:E; simpl; congruence. }
    destruct (RenderThread.sleeping (th s2)) eqn:Hsleep; prog.
    + eexists _, (ACall_invalidateOpenGL w d :: t ++ [_; AExit]).
      split. { norm_trace. reflexivity. }
      rewrite Hwk. count_simpl. rewrite Hc, Hci, Hse, (count_wake_sync _ Hc).
      unfold woken. simpl.
      repeat split; intros; try congruence;
        destruct (RenderThread.waitCondition (th s2)) eqn:E; simpl; congruence.
    + eexists _, (ACall_invalidateOpenGL w d :: t ++ [_]).
      split. { norm_trace. reflexivity. }
      rewrite Hwk. count_simpl. rewrite Hc, Hci, Hse, (count_wake_sync _ Hc).
      unfold woken. simpl.
      repeat split; intros; try congruence;
        destruct (RenderThread.waitCondition (th s2)) eqn:E; simpl; congruence.
  - (* windows are still there: nothing is released *)
    replace (size_of (r :: l) =? 0) with false
      by (symmetry; apply Z.eqb_neq; unfold size_of; simpl List.length; lia).
    prog.
    exists (set_th (woken (th s)) s), [].
    split.
    { f_equal. subst s1. unfold woken. destruct s as [t0 ? ? ? ? ? ? ? ? ? ?]; simpl in *.
      destruct t0; simpl in *; subst. destruct waitCondition; reflexivity. }
    unfold woken. repeat split; try discriminate.
    destruct (RenderThread.waitCondition (th s)); simpl; exact Hm.
Qed.

(** *** [WM_Resize] *)

Lemma resize_unknown_window (s : sys) (w : window) (sz : QSize) :
  windowFor RenderThread.window (RenderThread.m_windows (th s)) w = None ->
  QSGRenderThread_event (WM_Resize w sz) s = Fault NullDereference [].
Proof. intros H. unfold QSGRenderThread_event. rewrite bind_get, H. reflexivity. Qed.

Lemma rt_setSize_windows w sz l :
  map RenderThread.window (rt_setSize w sz l) = map RenderThread.window l.
Proof.
  induction l as [|x l IH]; simpl; [reflexivity|].
  destruct (Nat.eqb (RenderThread.window x) w); simpl; now rewrite ?IH.
Qed.

(** With a record for the window the handler writes the size of that
    record and nothing else: no event, no [exit()], no lock. *)
Lemma resize_known_window (s : sys) (w : window) (sz : QSize) (r : RenderThread.Window) :
  windowFor RenderThread.window (RenderThread.m_windows (th s)) w = Some r ->
  QSGRenderThread_event (WM_Resize w sz) s
  = Ok true (set_th (ThSet.m_windows (rt_setSize w sz (RenderThread.m_windows (th s))) (th s)) s) [].
Proof. intros H. unfold QSGRenderThread_event. rewrite bind_get, H. prog. reflexivity. Qed.

(** C2. A [WM_Resize] for a window the render thread has no record of:
    [windowFor] returns null and the handler writes through it. *)
Theorem resize_unknown_window_faults :
  windowFor RenderThread.window (RenderThread.m_windows (th sys_tracking_2)) 1%nat = None
  /\ QSGRenderThread_event (WM_Resize 1%nat (mkSize 800 600)) sys_tracking_2
     = Fault NullDereference [].
Proof. split; reflexivity. Qed.

(** *** [WM_Grab] *)

(** C10. A [WM_Grab] for a window the render thread has no record of
    does no sync, render or readback and leaves the image alone; it still
    takes the mutex, signals the wait condition once and releases the
    mutex, so a waiting GUI thread is woken. *)
Theorem grab_unknown_window_still_signals (s : sys) (w : window) :
  windowFor RenderThread.window (RenderThread.m_windows (th s)) w = None ->
  RenderThread.mutex (th s) = None ->
  QSGRenderThread_event (WM_Grab w) s
  = Ok true (set_th (woken (th s)) s) [ALock; AWakeOne; AUnlock]
  /\ grab_image (set_th (woken (th s)) s) = grab_image s
  /\ (RenderThread.waitCondition (th s) = GuiWaiting ->
      RenderThread.waitCondition (woken (th s)) = GuiWoken).
Proof.
  intros Hw Hm. split; [|split].
  - unfold QSGRenderThread_event. rewrite bind_get, Hw.
    rewrite (bind_lock_free _ _ _ Hm). prog.
    f_equal. unfold woken.
    destruct s as [t0 ? ? ? ? ? ? ? ? ? ?]; simpl in *.
    destruct t0; simpl in *; subst. destruct waitCondition; reflexivity.
  - reflexivity.
  - unfold woken. intros ->. reflexivity.
Qed.

Lemma grab_unknown_window_still_signals_witness :
  windowFor RenderThread.window (RenderThread.m_windows (th sys_tracking_2)) 1%nat = None
  /\ RenderThread.mutex (th sys_tracking_2) = None
  /\ QSGRenderThread_event (WM_Grab 1%nat) sys_tracking_2
     = Ok true (set_th (woken (th sys_tracking_2)) sys_tracking_2) [ALock; AWakeOne; AUnlock].
Proof.
  split; [reflexivity|]. split; [reflexivity|].
  apply (grab_unknown_window_still_signals sys_tracking_2 1%nat); reflexivity.
Defined.

Lemma tryRelease_completes_rendezvous_witness :
  RenderThread.mutex (th sys0) = None
  /\ exists s' mid,
       QSGRenderThread_event (WM_TryRelease 1%nat false) sys0
       = Ok true s' (ALock :: mid ++ [AWakeOne; AUnlock])
       /\ count is_sync_action mid = 0%nat.
Proof.
  split; [reflexivity|].
  destruct (tryRelease_completes_rendezvous sys0 1%nat false eq_refl) as (s' & mid & H & Hc & _).
  exists s', mid. split; assumption.
Defined.

(** *** [invalidateOpenGL] and the persistence flags *)

(** With a context and a window to make current, [invalidateOpenGL]
    keeps the context iff some remaining window asks for a persistent
    scene graph or for a persistent context. *)
Lemma invalidateOpenGL_persistence (w : window) (d : bool) (s : sys) :
  RenderThread.gl (th s) = true ->
  w <> 0%nat ->
  let sg := anyPersistentSG (host s) d w (RenderLoop.m_windows (wm s)) in
  let gl := anyPersistentGL (host s) d w (RenderLoop.m_windows (wm s)) in
  exists t,
    invalidateOpenGL w d s
    = Ok tt (if sg then s
             else if gl then set_th (ThSet.sg_ready false (th s)) s
             else set_th (ThSet.gl false (ThSet.sg_ready false (th s))) s)
         (ACall_invalidateOpenGL w d :: t)
    /\ count is_sg_invalidate t = (if sg then 0 else 1)%nat
    /\ count is_delete_context t = (if sg || gl then 0 else 1)%nat.
Proof.
  intros Hgl Hw sg gl. unfold invalidateOpenGL.
  rewrite bind_emit, bind_get, Hgl. cbv beta iota. simpl negb. cbv iota.
  replace (Nat.eqb w 0) with false by (symmetry; now apply Nat.eqb_neq).
  rewrite persistence_spec. simpl orb. fold sg gl.
  destruct sg, d, gl; unfold_prims; simpl; rewrite Hgl; simpl;
    eexists; (split; [reflexivity|split; reflexivity]).
Qed.

(** C5, as amended. After a [WM_TryRelease] handled with no window left
    on the render thread, a context present and a window to make current:
    the context survives iff a remaining window (the requesting one left
    out in the destructor) asks for a persistent scene graph or for a
    persistent context; with a persistent scene graph the scene graph is
    left alive; the context is deleted exactly when no remaining window
    asks for either. *)
Theorem tryRelease_context_persistence (s : sys) (w : window) (d : bool) :
  RenderThread.mutex (th s) = None ->
  RenderThread.m_windows (th s) = [] ->
  RenderThread.gl (th s) = true ->
  w <> 0%nat ->
  let sg := anyPersistentSG (host s) d w (RenderLoop.m_windows (wm s)) in
  let gl := anyPersistentGL (host s) d w (RenderLoop.m_windows (wm s)) in
  exists s' t,
    QSGRenderThread_event (WM_TryRelease w d) s = Ok true s' t
    /\ (RenderThread.gl (th s') = true <-> sg = true \/ gl = true)
    /\ (sg = true ->
        RenderThread.sg_ready (th s') = RenderThread.sg_ready (th s)
        /\ count is_sg_invalidate t = 0%nat)
    /\ (sg = false ->
        RenderThread.sg_ready (th s') = false /\ count is_sg_invalidate t = 1%nat)
    /\ (count is_delete_context t = 1%nat <-> sg = false /\ gl = false)
    /\ (count is_delete_context t = 0%nat <-> sg = true \/ gl = true)
    /\ RenderThread.shouldExit (th s') = negb (RenderThread.gl (th s')).
Proof.
  intros Hm Hws Hgl Hw sg gl. unfold QSGRenderThread_event.
  rewrite (bind_lock_free _ _ _ Hm), bind_get.
  set (s1 := set_th (ThSet.mutex (Some RenderThread) (th s)) s).
  replace (RenderThread.m_windows (th s1)) with (@nil RenderThread.Window) by (symmetry; exact Hws).
  simpl (size_of [] =? 0). cbv iota.
  destruct (invalidateOpenGL_persistence w d s1 Hgl Hw) as (t & Hinv & Hsg & Hdel).
  change (anyPersistentSG (host s1) d w (RenderLoop.m_windows (wm s1))) with sg in *.
  change (anyPersistentGL (host s1) d w (RenderLoop.m_windows (wm s1))) with gl in *.
  rewrite !bind_bind, (bind_Ok _ _ _ _ _ _ Hinv). prog.
  match goal with
  | |- context [when ?b exit] => destruct b
  end; prog; eexists _, _; (split; [reflexivity|]); count_simpl; rewrite Hsg, Hdel;
    subst s1; destruct sg, gl; simpl; unfold woken; simpl;
    try rewrite Hgl;
    destruct (RenderThread.waitCondition (th s)); simpl; try rewrite Hgl;
    intuition congruence.
Qed.

Lemma tryRelease_context_persistence_witness :
  RenderThread.mutex (th sys_release_persistentSG) = None
  /\ RenderThread.m_windows (th sys_release_persistentSG) = []
  /\ RenderThread.gl (th sys_release_persistentSG) = true
  /\ 1%nat <> 0%nat
  /\ exists s' t,
       QSGRenderThread_event (WM_TryRelease 1%nat false) sys_release_persistentSG = Ok true s' t
       /\ RenderThread.gl (th s') = true.
Proof.
  split; [reflexivity|]. split; [reflexivity|]. split; [reflexivity|].
  split; [discriminate|].
  destruct (tryRelease_context_persistence sys_release_persistentSG 1%nat false
              eq_refl eq_refl eq_refl (fun e => O_S 0 (eq_sym e)))
    as (s' & t & H & Hiff & _).
  exists s', t. split; [exact H|]. apply Hiff. left. reflexivity.
Defined.

(** C5, first form: refuted by a window with a persistent scene graph
    and no persistent context; the context survives the release. *)
Lemma persistentSG_keeps_context :
  ~ context_survives_iff_persistentGL sys_release_persistentSG 1%nat false.
Proof.
  intros H.
  destruct (QSGRenderThread_event (WM_TryRelease 1%nat false) sys_release_persistentSG)
    as [b s' t| |] eqn:E; try (vm_compute in E; discriminate E).
  assert (E' := E). vm_compute in E'. injection E' as Hb Hs Ht.
  subst b. specialize (H s' t eq_refl eq_refl E).
  subst s'. simpl in H. destruct H as [H _]. specialize (H eq_refl). discriminate H.
Qed.

(** *** [sync()] and the rendering loop *)

Lemma foreach_emits {T} (l : list T) (body : T -> M unit) (acts : T -> trace) (s : sys) :
  (forall x, In x l -> body x s = Ok tt s (acts x)) ->
  foreach l body s = Ok tt s (flat_map acts l).
Proof.
  induction l as [|x l IH]; intros H; simpl; [reflexivity|].
  rewrite (bind_Ok _ _ _ _ _ _ (H x (or_introl eq_refl))).
  rewrite IH by (intros y Hy; apply H; now right). reflexivity.
Qed.

Lemma foreach_skips_or_faults {T} (l : list T) (body : T -> M unit) (skip : T -> bool)
      (f : fault) (s : sys) :
  (forall x, body x s = if skip x then Ok tt s [] else Fault f []) ->
  foreach l body s = if forallb skip l then Ok tt s [] else Fault f [].
Proof.
  intros H. induction l as [|x l IH]; simpl; [reflexivity|].
  unfold bind. rewrite (H x). destruct (skip x); simpl; [|reflexivity].
  rewrite IH. destruct (forallb skip l); reflexivity.
Qed.

Lemma sync_window_with_context (s : sys) (w : RenderThread.Window) :
  RenderThread.gl (th s) = true -> sync_window w s = Ok tt s (sync_actions w).
Proof.
  intros H. unfold sync_window, sync_actions, gl_makeCurrent.
  destruct (degenerate (RenderThread.size w)); [reflexivity|].
  rewrite bind_bind, bind_get, H. reflexivity.
Qed.

Lemma sync_window_without_context (s : sys) (w : RenderThread.Window) :
  RenderThread.gl (th s) = false ->
  sync_window w s = if degenerate (RenderThread.size w) then Ok tt s [] else Fault NullDereference [].
Proof.
  intros H. unfold sync_window, gl_makeCurrent.
  destruct (degenerate (RenderThread.size w)); [reflexivity|].
  rewrite bind_bind, bind_get, H. reflexivity.
Qed.

Lemma render_window_with_context (s : sys) (h : Host) (w : RenderThread.Window) :
  RenderThread.gl (th s) = true -> render_window h w s = Ok tt s (render_actions h w).
Proof.
  intros H. unfold render_window, render_actions, gl_makeCurrent.
  destruct (negb (renderer h (RenderThread.window w)) || degenerate (RenderThread.size w));
    [reflexivity|].
  rewrite bind_bind, bind_get, H. reflexivity.
Qed.

Lemma render_window_without_context (s : sys) (h : Host) (w : RenderThread.Window) :
  RenderThread.gl (th s) = false ->
  render_window h w s = if render_skipped h w then Ok tt s [] else Fault NullDereference [].
Proof.
  intros H. unfold render_window, render_skipped, gl_makeCurrent.
  destruct (negb (renderer h (RenderThread.window w)) || degenerate (RenderThread.size w));
    [reflexivity|].
  rewrite bind_bind, bind_get, H. reflexivity.
Qed.

(** What [sync()] does, case by case. *)
Lemma sync_spec (s : sys) :
  sync s =
  match RenderThread.mutex (th s) with
  | Some _ => Blocked
  | None =>
      if RenderThread.guiIsLocked (th s) then
        if RenderThread.gl (th s)
           || forallb (fun w => degenerate (RenderThread.size w)) (RenderThread.m_windows (th s))
        then Ok tt (after_sync s)
                (ALock :: AStore f_pendingUpdate 0
                   :: flat_map sync_actions (RenderThread.m_windows (th s))
                   ++ [AWakeOne; AUnlock])
        else Fault NullDereference [ALock; AStore f_pendingUpdate 0]
      else Fault (AssertFailure sync_assert) [ALock]
  end.
Proof.
  unfold sync.
  destruct (RenderThread.mutex (th s)) eqn:Hm.
  { apply bind_lock_held. congruence. }
  rewrite (bind_lock_free _ _ _ Hm), bind_get.
  set (s1 := set_th (ThSet.mutex (Some RenderThread) (th s)) s).
  change (RenderThread.guiIsLocked (th s1)) with (RenderThread.guiIsLocked (th s)).
  change (RenderThread.m_windows (th s1)) with (RenderThread.m_windows (th s)).
  destruct (RenderThread.guiIsLocked (th s)); [|reflexivity].
  unfold Q_ASSERT_X. rewrite bind_ret, bind_store_pendingUpdate.
  set (s2 := set_th (ThSet.pendingUpdate 0 (th s1)) s1).
  destruct (RenderThread.gl (th s)) eqn:Hgl.
  - simpl orb. cbv iota.
    rewrite (bind_Ok _ _ _ _ _ _
               (foreach_emits (RenderThread.m_windows (th s)) sync_window sync_actions s2
                  (fun x _ => sync_window_with_context s2 x Hgl))).
    prog. norm_trace. reflexivity.
  - simpl orb.
    pose proof (foreach_skips_or_faults (RenderThread.m_windows (th s)) sync_window
                  (fun w => degenerate (RenderThread.size w)) NullDereference s2
                  (fun x => sync_window_without_context s2 x Hgl)) as Hf.
    destruct (forallb (fun w => degenerate (RenderThread.size w)) (RenderThread.m_windows (th s)))
      eqn:Hall.
    + rewrite (bind_Ok _ _ _ _ _ _ Hf). prog.
      replace (flat_map sync_actions (RenderThread.m_windows (th s))) with (@nil action).
      * reflexivity.
      * symmetry. clear - Hall. induction (RenderThread.m_windows (th s)) as [|x l IH];
          [reflexivity|]. simpl in *. apply andb_prop in Hall as [Hx Hl].
        unfold sync_actions at 1. rewrite Hx. simpl. now apply IH.
    + rewrite (bind_Fault _ _ _ _ _ Hf). reflexivity.
Qed.

Lemma syncAndRender_render_spec (s : sys) :
  syncAndRender_render s =
  if RenderThread.gl (th s) || forallb (render_skipped (host s)) (RenderThread.m_windows (th s))
  then Ok tt s (flat_map (render_actions (host s)) (RenderThread.m_windows (th s)))
  else Fault NullDereference [].
Proof.
  unfold syncAndRender_render. rewrite bind_get.
  destruct (RenderThread.gl (th s)) eqn:Hgl; simpl orb; cbv iota.
  - apply foreach_emits. intros x _. now apply render_window_with_context.
  - rewrite (foreach_skips_or_faults (RenderThread.m_windows (th s)) (render_window (host s))
               (render_skipped (host s)) NullDereference s
               (fun x => render_window_without_context s (host s) x Hgl)).
    destruct (forallb (render_skipped (host s)) (RenderThread.m_windows (th s))) eqn:Hall;
      [|reflexivity].
    f_equal. symmetry. clear - Hall. induction (RenderThread.m_windows (th s)) as [|x l IH];
      [reflexivity|]. simpl in *. apply andb_prop in Hall as [Hx Hl].
    unfold render_actions at 1. unfold render_skipped in Hx. rewrite Hx. simpl. now apply IH.
Qed.

Lemma syncAndRender_animate_spec (s : sys) :
  syncAndRender_animate s =
  if RenderThread.animationRunning (th s) && (RenderThread.animationRequestsPending (th s) <? 2)
  then Ok tt (after_animate s)
          [AStore f_animationRequestsPending
             (wrap32 (RenderThread.animationRequestsPending (th s) + 1));
           APostGUI WM_AdvanceAnimations]
  else Ok tt s [].
Proof.
  unfold syncAndRender_animate. rewrite bind_get.
  destruct (RenderThread.animationRunning (th s)
            && (RenderThread.animationRequestsPending (th s) <? 2)); [|reflexivity].
  unfold when, store_animationRequestsPending, postGUI, upd_th, modify, emit, bind. reflexivity.
Qed.

Lemma syncAndRender_sync_spec (s : sys) :
  syncAndRender_sync s
  = if has_flag (RenderThread.pendingUpdate (th s)) SyncRequest then sync s else Ok tt s [].
Proof. unfold syncAndRender_sync. rewrite bind_get. now destruct (has_flag _ _). Qed.

Lemma nodup_window_inj (l : list RenderThread.Window) (x r : RenderThread.Window) :
  NoDup (map RenderThread.window l) -> In x l -> In r l ->
  RenderThread.window x = RenderThread.window r -> x = r.
Proof.
  induction l as [|y l IH]; simpl; intros Hnd Hx Hr Heq; [contradiction|].
  inversion Hnd as [|? ? Hnotin Hnd']; subst.
  destruct Hx as [->|Hx], Hr as [->|Hr]; auto.
  - exfalso. apply Hnotin. rewrite Heq. now apply in_map.
  - exfalso. apply Hnotin. rewrite <- Heq. now apply in_map.
Qed.

Section Degenerate.
Variable l : list RenderThread.Window.
Variable r : RenderThread.Window.
Hypothesis Hnd : NoDup (map RenderThread.window l).
Hypothesis Hin : In r l.
Hypothesis Hdeg : degenerate (RenderThread.size r) = true.

Lemma other_window (x : RenderThread.Window) :
  In x l -> degenerate (RenderThread.size x) = false ->
  Nat.eqb (RenderThread.window x) (RenderThread.window r) = false.
Proof.
  intros Hx Hnot. apply Nat.eqb_neq. intros Heq.
  rewrite (nodup_window_inj l x r Hnd Hx Hin Heq) in Hnot. congruence.
Qed.

Lemma no_draw_in (acts : RenderThread.Window -> trace) :
  (forall x, In x l ->
             acts x = [] \/ (degenerate (RenderThread.size x) = false
                             /\ forall a, In a (acts x) ->
                                          draws (RenderThread.window r) a
                                          = match a with
                                            | AWarning _ => false
                                            | _ => Nat.eqb (RenderThread.window x)
                                                           (RenderThread.window r)
                                            end)) ->
  count (draws (RenderThread.window r)) (flat_map acts l) = 0%nat.
Proof.
  intros H. unfold count.
  assert (Hall : forall a, In a (flat_map acts l) -> draws (RenderThread.window r) a = false).
  { intros a Ha. apply in_flat_map in Ha as (x & Hx & Ha).
    destruct (H x Hx) as [Hnil|[Hnot Hd]].
    - rewrite Hnil in Ha. contradiction.
    - rewrite (Hd a Ha). destruct a; try (now apply other_window). reflexivity. }
  induction (flat_map acts l) as [|a t IH]; [reflexivity|].
  simpl. rewrite (Hall a (or_introl eq_refl)). apply IH. intros b Hb. apply Hall. now right.
Qed.

Lemma no_draw_in_sync : count (draws (RenderThread.window r)) (flat_map sync_actions l) = 0%nat.
Proof.
  apply no_draw_in. intros x Hx. unfold sync_actions.
  destruct (degenerate (RenderThread.size x)) eqn:E; [now left|right].
  split; [reflexivity|]. intros a [<-|[<-|[]]]; reflexivity.
Qed.

Lemma no_draw_in_render (h : Host) :
  count (draws (RenderThread.window r)) (flat_map (render_actions h) l) = 0%nat.
Proof.
  apply no_draw_in. intros x Hx. unfold render_actions.
  destruct (negb (renderer h (RenderThread.window x))); simpl; [now left|].
  destruct (degenerate (RenderThread.size x)) eqn:E; [now left|right].
  split; [reflexivity|]. intros a [<-|[<-|[<-|[<-|[]]]]]; reflexivity.
Qed.
End Degenerate.

Lemma degenerate_iff (sz : QSize) :
  degenerate sz = true <-> width sz = 0 \/ height sz = 0.
Proof.
  unfold degenerate. rewrite orb_true_iff, !Z.eqb_eq. reflexivity.
Qed.

Lemma count_bind_le {A B} p (m : M A) (k : A -> M B) (s : sys) :
  (count p (trace_of (bind m k s))
   <= count p (trace_of (m s))
      + match m s with
        | Ok a s1 _ => count p (trace_of (k a s1))
        | _ => 0
        end)%nat.
Proof.
  unfold bind. destruct (m s) as [a s1 t1| |]; cbn [trace_of prefix]; try lia.
  destruct (k a s1) as [b s2 t2| |]; cbn [trace_of prefix]; rewrite ?count_app, ?count_nil; lia.
Qed.

Lemma sync_Ok (s s' : sys) (t : trace) : sync s = Ok tt s' t -> s' = after_sync s.
Proof.
  rewrite sync_spec.
  destruct (RenderThread.mutex (th s)); [discriminate|].
  destruct (RenderThread.guiIsLocked (th s)); [|discriminate].
  destruct (_ || _); [|discriminate]. now intros [= <- _].
Qed.

Lemma after_sync_windows (s : sys) :
  RenderThread.m_windows (th (after_sync s)) = RenderThread.m_windows (th s).
Proof.
  unfold after_sync, woken. simpl.
  destruct (RenderThread.waitCondition (th s)); reflexivity.
Qed.

Lemma sync_no_draw (s : sys) (r : RenderThread.Window) :
  NoDup (map RenderThread.window (RenderThread.m_windows (th s))) ->
  In r (RenderThread.m_windows (th s)) ->
  degenerate (RenderThread.size r) = true ->
  count (draws (RenderThread.window r)) (trace_of (sync s)) = 0%nat.
Proof.
  intros Hnd Hin Hdeg. rewrite sync_spec.
  destruct (RenderThread.mutex (th s)); [reflexivity|].
  destruct (RenderThread.guiIsLocked (th s)); [|reflexivity].
  destruct (_ || _); [|reflexivity].
  simpl trace_of. count_simpl. rewrite (no_draw_in_sync _ r Hnd Hin Hdeg). reflexivity.
Qed.

Section SyncAndRender.
Variable s : sys.
Variable r : RenderThread.Window.
Hypothesis Hnd : NoDup (map RenderThread.window (RenderThread.m_windows (th s))).
Hypothesis Hin : In r (RenderThread.m_windows (th s)).
Hypothesis Hdeg : degenerate (RenderThread.size r) = true.

(** The three parts of [syncAndRender()], one after the other. *)
Lemma animate_part :
  exists s1 t1, syncAndRender_animate s = Ok tt s1 t1
                /\ count (draws (RenderThread.window r)) t1 = 0%nat
                /\ RenderThread.m_windows (th s1) = RenderThread.m_windows (th s).
Proof. rewrite syncAndRender_animate_spec. destruct (_ && _); eexists _, _; repeat split. Qed.

Lemma sync_part (s1 : sys) :
  RenderThread.m_windows (th s1) = RenderThread.m_windows (th s) ->
  count (draws (RenderThread.window r)) (trace_of (syncAndRender_sync s1)) = 0%nat
  /\ forall s2 t2, syncAndRender_sync s1 = Ok tt s2 t2 ->
                  RenderThread.m_windows (th s2) = RenderThread.m_windows (th s).
Proof.
  intros Hw1. rewrite syncAndRender_sync_spec. destruct (has_flag _ _).
  - split; [apply sync_no_draw; rewrite ?Hw1; assumption|].
    intros s2 t2 H2. apply sync_Ok in H2. subst s2.
    rewrite after_sync_windows. exact Hw1.
  - split; [reflexivity|]. now intros s2 t2 [= <- _].
Qed.

Lemma render_part (s2 : sys) :
  RenderThread.m_windows (th s2) = RenderThread.m_windows (th s) ->
  count (draws (RenderThread.window r)) (trace_of (syncAndRender_render s2)) = 0%nat
  /\ forall s3 t3, syncAndRender_render s2 = Ok tt s3 t3 -> s3 = s2.
Proof.
  intros Hw. rewrite syncAndRender_render_spec. destruct (_ || _).
  - split; [|now intros s3 t3 [= <- _]]. simpl. rewrite Hw.
    now apply no_draw_in_render.
  - split; [reflexivity|discriminate].
Qed.

Lemma syncAndRender_no_draw :
  count (draws (RenderThread.window r)) (trace_of (syncAndRender s)) = 0%nat.
Proof.
  destruct animate_part as (s1 & t1 & H1 & Hc1 & Hw1).
  destruct (sync_part s1 Hw1) as (Hc2 & Hw2).
  apply Nat.le_0_r. unfold syncAndRender.
  etransitivity; [apply count_bind_le|]. rewrite H1. simpl trace_of. rewrite Hc1. simpl.
  etransitivity; [apply count_bind_le|]. rewrite Hc2. simpl.
  destruct (syncAndRender_sync s1) as [[] s2 t2| |] eqn:E2; try lia.
  destruct (render_part s2 (Hw2 _ _ eq_refl)) as [-> _]. lia.
Qed.

Lemma syncAndRender_keeps_windows (s' : sys) (t : trace) :
  syncAndRender s = Ok tt s' t ->
  RenderThread.m_windows (th s') = RenderThread.m_windows (th s).
Proof.
  destruct animate_part as (s1 & t1 & H1 & Hc1 & Hw1).
  destruct (sync_part s1 Hw1) as (Hc2 & Hw2).
  unfold syncAndRender. rewrite (bind_Ok _ _ _ _ _ _ H1).
  destruct (syncAndRender_sync s1) as [[] s2 t2| |] eqn:E2;
    [|rewrite (bind_Fault _ _ _ _ _ E2); discriminate
     |rewrite (bind_Blocked _ _ _ E2); discriminate].
  rewrite (bind_Ok _ _ _ _ _ _ E2).
  destruct (syncAndRender_render s2) as [[] s3 t3| |] eqn:E3; simpl; try discriminate.
  intros [= <- _]. destruct (render_part s2 (Hw2 _ _ eq_refl)) as [_ Hs].
  rewrite (Hs _ _ E3). exact (Hw2 _ _ eq_refl).
Qed.
End SyncAndRender.

(** C6. A window record of width zero or height zero: [sync()] does not
    bind the context or call the sync hook for its window,
    [syncAndRender()] issues no render, swap or frame-swapped call for
    it, and neither touches the list of records, so that the record stays
    in it. *)
Theorem degenerate_window_skipped_and_kept (s : sys) (r : RenderThread.Window) :
  NoDup (map RenderThread.window (RenderThread.m_windows (th s))) ->
  In r (RenderThread.m_windows (th s)) ->
  width (RenderThread.size r) = 0 \/ height (RenderThread.size r) = 0 ->
  count (draws (RenderThread.window r)) (trace_of (sync s)) = 0%nat
  /\ count (draws (RenderThread.window r)) (trace_of (syncAndRender s)) = 0%nat
  /\ (forall s' t, sync s = Ok tt s' t -> In r (RenderThread.m_windows (th s')))
  /\ (forall s' t, syncAndRender s = Ok tt s' t -> In r (RenderThread.m_windows (th s'))).
Proof.
  intros Hnd Hin Hdeg. apply degenerate_iff in Hdeg.
  split; [now apply sync_no_draw|].
  split; [now apply syncAndRender_no_draw|].
  split.
  - intros s' t H. apply sync_Ok in H. subst s'. rewrite after_sync_windows. exact Hin.
  - intros s' t H. rewrite (syncAndRender_keeps_windows s r Hnd Hin Hdeg s' t H). exact Hin.
Qed.

(** ** Invariants of the two threads *)

Lemma land_1_odd (q : Z) : Z.land q 1 = if Z.odd q then 1 else 0.
Proof.
  change 1 with (Z.ones 1) at 1. rewrite Z.land_ones by lia.
  change (2 ^ 1) with 2. apply Zmod_odd.
Qed.

Lemma has_flag_sync (q : Z) : has_flag q SyncRequest = Z.testbit q 0.
Proof.
  unfold has_flag, SyncRequest. rewrite land_1_odd, Z.bit0_odd.
  now destruct (Z.odd q).
Qed.

Lemma has_flag_set_sync (p : Z) : has_flag (set_flag p SyncRequest) SyncRequest = true.
Proof.
  rewrite has_flag_sync. unfold set_flag, SyncRequest.
  rewrite Z.land_spec, Z.lor_spec. simpl. now rewrite orb_true_r.
Qed.

Lemma has_flag_set_repaint (p : Z) :
  has_flag (set_flag p RepaintRequest) SyncRequest = has_flag p SyncRequest.
Proof.
  rewrite !has_flag_sync. unfold set_flag, RepaintRequest.
  rewrite Z.land_spec, Z.lor_spec. simpl. now rewrite orb_false_r, andb_true_r.
Qed.

Lemma has_flag_zero : has_flag 0 SyncRequest = false.
Proof. reflexivity. Qed.

Lemma occ_app {T} (p : T -> bool) (l1 l2 : list T) : occ p (l1 ++ l2) = (occ p l1 + occ p l2)%nat.
Proof. unfold occ. now rewrite filter_app, length_app. Qed.

Lemma occ_cons {T} (p : T -> bool) (x : T) (l : list T) :
  occ p (x :: l) = ((if p x then 1 else 0) + occ p l)%nat.
Proof. unfold occ. simpl. now destruct (p x). Qed.

Lemma occ_nil {T} (p : T -> bool) : occ p [] = 0%nat.
Proof. reflexivity. Qed.

Lemma wrap32_small (z : Z) : -2147483648 <= z < 2147483648 -> wrap32 z = z.
Proof. intros H. unfold wrap32. rewrite Z.mod_small; lia. Qed.

(** ** Invariants of the two threads: the proofs *)


Ltac innermost x :=
  lazymatch x with
  | context [match _ with _ => _ end] => fail
  | _ => idtac
  end.

Ltac break_in H :=
  repeat (simpl in H;
          match type of H with
          | context [match ?x with _ => _ end] => innermost x; destruct x eqn:?
          end); simpl in H.

Ltac unfold_gui :=
  unfold gui_frame, show, hide, hide_remove, windowDestroyed, exposureChanged, handleExposure,
    handleExposure_start, handleExposure_timer, handleObscurity, update,
    requestRepaint, releaseResources, releaseResources_check, releaseResources_wait,
    releaseResources_waiting, releaseResources_unlock, polishAndSync_lock,
    polishAndSync_setLocked, polishAndSync_post, polishAndSync_wait, polishAndSync_waiting,
    polishAndSync_clearLocked, polishAndSync_unlock, QSGThreadedRenderLoop_event, grab, grab_lock,
    grab_post, grab_wait, grab_waiting, grab_unlock, resize, driverStarted, driverStopped,
    animationStarted, animationStopped, maybeUpdate, lock, wait_return in *.

Ltac unfold_inv :=
  unfold sync_requests, awaits_sync, awaits_release, awaits_grab, awaits, gui_at in *.

#[local] Opaque occ has_flag set_flag size_of wrap32.

Ltac close :=
  intros; simpl in *;
  rewrite ?occ_app, ?occ_cons, ?occ_nil in *; simpl in *;
  rewrite ?has_flag_set_sync, ?has_flag_set_repaint, ?has_flag_zero in *;
  rewrite ?negb_true_iff, ?negb_false_iff in *;
  try assumption; try congruence; try lia.

Ltac finish :=
  close;
  repeat match goal with
         | H : context [match ?x with _ => _ end] |- _ => innermost x; destruct x eqn:?; close
         | |- context [match ?x with _ => _ end] => innermost x; destruct x eqn:?; close
         end.

Lemma polish_loop (l : list RenderLoop.Window) (s : sys) :
  foreach l (fun w => emit (APolishItems (RenderLoop.window w))) s
  = Ok tt s (map (fun w => APolishItems (RenderLoop.window w)) l).
Proof.
  induction l as [|x l IH]; simpl; [reflexivity|].
  rewrite bind_emit, IH. reflexivity.
Qed.

Lemma polishAndSync_spec (s : sys) :
  polishAndSync s =
  if anyoneShowing s
  then Ok [PS_lock]
          (set_wm (WmSet.m_windows
                     (map (fun w => RenderLoop.mkWindow (RenderLoop.window w) false)
                          (RenderLoop.m_windows (wm s))) (wm s)) s)
          (map (fun w => APolishItems (RenderLoop.window w)) (RenderLoop.m_windows (wm s)))
  else Ok [] s [].
Proof.
  unfold polishAndSync. rewrite bind_get. destruct (anyoneShowing s); simpl; [|reflexivity].
  rewrite (bind_Ok _ _ _ _ _ _ (polish_loop _ s)). prog. now rewrite app_nil_r.
Qed.

Ltac gcase H Hs k :=
  break_in H; try discriminate H; injection H as <- <- <-;
  constructor; unfold_inv; simpl; try assumption;
  try (destruct k as [|[] k']; simpl in Hs; try discriminate Hs); finish.

Lemma gui_step_inv s f k fs s' t :
  gstack s = f :: k -> protocol_inv s ->
  gui_frame f s = Ok fs s' t -> protocol_inv (set_gstack (fs ++ k) s').
Proof.
  intros Hst [Hm Hw Hl Hs Hsy Hr Hg Hc Hx] H.
  unfold_inv. rewrite Hst in *. simpl in Hs.
  destruct f; simpl in Hm, Hw, Hl, Hsy, Hr, Hg.
  all: try (unfold gui_frame in H; rewrite polishAndSync_spec in H).
  all: unfold_gui; unfold_prims.
  all: solve [gcase H Hs k].
Qed.

Ltac unfold_rt :=
  unfold run_step, run_callback, deliver_head, QSGRenderThread_event, QThread_event,
    rt_animationStarted, rt_animationStopped, invalidateOpenGL, initializeOpenGL, update,
    requestRepaint, maybeUpdate, lock in *.

Ltac rcase H :=
  break_in H; try discriminate H; injection H as <- <- <-;
  unfold_inv;
  try match goal with E : rq _ = _ |- _ => rewrite E in * end;
  constructor; unfold_inv; simpl; try assumption; finish.

Lemma rt_step_inv s leave pc s' t :
  protocol_inv s ->
  run_step leave s = Ok pc s' t -> protocol_inv (set_rpc pc s').
Proof.
  intros [Hm Hw Hl Hs Hsy Hr Hg Hc Hx] H.
  unfold run_step in H. rewrite bind_get in H.
  destruct (rpc s) eqn:Hpc; simpl in Hc.
  all: try (unfold bind in H;
            rewrite ?syncAndRender_sync_spec, ?syncAndRender_render_spec, ?sync_spec in H).
  all: unfold_rt; unfold_prims; unfold after_sync, woken in *.
  all: solve [rcase H].
Qed.

Ltac fcase H :=
  break_in H; try discriminate H; injection H as <- <-;
  unfold sync_assert, maybeUpdate_assert, run_assert in *; try discriminate;
  exfalso; unfold_inv; finish.

Lemma gui_step_fault s f k fl t :
  gstack s = f :: k -> protocol_inv s ->
  gui_frame f s = Fault fl t -> fl <> AssertFailure sync_assert.
Proof.
  intros Hst [Hm Hw Hl Hs Hsy Hr Hg Hc Hx] H.
  unfold_inv. rewrite Hst in *. simpl in Hs.
  destruct f; simpl in Hm, Hw, Hl, Hsy, Hr, Hg;
    try (unfold gui_frame in H; rewrite polishAndSync_spec in H);
    unfold_gui; unfold_prims.
  all: solve [fcase H].
Qed.

Lemma rt_step_fault s leave fl t :
  protocol_inv s ->
  run_step leave s = Fault fl t -> fl <> AssertFailure sync_assert.
Proof.
  intros [Hm Hw Hl Hs Hsy Hr Hg Hc Hx] H.
  unfold run_step in H. rewrite bind_get in H.
  destruct (rpc s) eqn:Hpc; simpl in Hc.
  all: try (unfold bind in H;
            rewrite ?syncAndRender_sync_spec, ?syncAndRender_render_spec, ?sync_spec in H).
  all: unfold_rt; unfold_prims; unfold after_sync, woken in *.
  all: solve [fcase H].
Qed.

Lemma callback_inv s cb a s' t :
  protocol_inv s -> run_callback cb s = Ok a s' t -> protocol_inv s'.
Proof.
  intros [Hm Hw Hl Hs Hsy Hr Hg Hc Hx] H.
  destruct cb; unfold_rt; unfold_prims; simpl in H.
  all: break_in H; try discriminate H; injection H as <- <- <-;
    constructor; unfold_inv; simpl; try assumption; finish.
Qed.

Lemma callback_fault s cb fl t :
  protocol_inv s -> run_callback cb s = Fault fl t -> fl <> AssertFailure sync_assert.
Proof.
  intros [Hm Hw Hl Hs Hsy Hr Hg Hc Hx] H.
  destruct cb; unfold_rt; unfold_prims; simpl in H.
  all: solve [fcase H].
Qed.

Lemma gui_callback_inv s w a s' t :
  protocol_inv s -> maybeUpdate GuiThread w s = Ok a s' t -> protocol_inv s'.
Proof.
  intros [Hm Hw Hl Hs Hsy Hr Hg Hc Hx] H.
  unfold_gui; unfold_prims; simpl in H.
  break_in H; try discriminate H; injection H as <- <- <-;
    constructor; unfold_inv; simpl; try assumption; finish.
Qed.

Lemma gui_callback_fault s w fl t :
  protocol_inv s -> maybeUpdate GuiThread w s = Fault fl t -> fl <> AssertFailure sync_assert.
Proof.
  intros [Hm Hw Hl Hs Hsy Hr Hg Hc Hx] H.
  unfold_gui; unfold_prims; simpl in H.
  solve [fcase H].
Qed.

Lemma crash_inv s fl :
  protocol_inv s -> fl <> AssertFailure sync_assert -> protocol_inv (set_crashed (Some fl) s).
Proof.
  intros [Hm Hw Hl Hs Hsy Hr Hg Hc Hx] H.
  constructor; unfold_inv; simpl; try assumption. congruence.
Qed.

Lemma step_inv c s s' t :
  protocol_inv s -> step c s = Some (s', t) -> protocol_inv s'.
Proof.
  intros Hinv H. unfold step in H.
  destruct (crashed s) eqn:Hcr; [discriminate|].
  destruct c.
  - (* the host calls an operation *)
    destruct (gstack s) eqn:Hst; [|discriminate].
    destruct (host_callable f) eqn:Hf; [|discriminate].
    injection H as <- <-. destruct Hinv as [Hm Hw Hl Hs Hsy Hr Hg Hc Hx].
    unfold_inv. rewrite Hst in *.
    destruct f; try discriminate Hf; constructor; unfold_inv; simpl; try assumption; finish.
  - injection H as <- <-. destruct Hinv as [Hm Hw Hl Hs Hsy Hr Hg Hc Hx].
    constructor; unfold_inv; simpl; assumption.
  - destruct ((1 <=? id) && (id <? timer_seq s)); [|discriminate].
    injection H as <- <-. destruct Hinv as [Hm Hw Hl Hs Hsy Hr Hg Hc Hx].
    constructor; unfold_inv; simpl; assumption.
  - (* the GUI event loop delivers an event *)
    destruct (gstack s) eqn:Hst; [|discriminate].
    destruct (gq s) eqn:Hgq; [discriminate|].
    injection H as <- <-. destruct Hinv as [Hm Hw Hl Hs Hsy Hr Hg Hc Hx].
    unfold_inv. rewrite Hst in *.
    constructor; unfold_inv; simpl; try assumption; finish.
  - (* the GUI thread goes on *)
    destruct (gstack s) as [|f k] eqn:Hst; [discriminate|].
    unfold settle in H. destruct (gui_frame f s) as [fs s1 t1|fl t1|] eqn:E; [| |discriminate].
    + injection H as <- <-. eapply gui_step_inv; eassumption.
    + injection H as <- <-. apply crash_inv; [assumption|]. eapply gui_step_fault; eassumption.
  - destruct (gstack s) as [|f k] eqn:Hst; [discriminate|].
    destruct (holds_mutex (gui_at s) || in_wait (gui_at s)); [discriminate|].
    unfold settle in H.
    destruct (maybeUpdate GuiThread w s) as [a s1 t1|fl t1|] eqn:E; [| |discriminate].
    + injection H as <- <-. eapply gui_callback_inv; eassumption.
    + injection H as <- <-. apply crash_inv; [assumption|]. eapply gui_callback_fault; eassumption.
  - unfold settle in H. destruct (run_step false s) as [pc s1 t1|fl t1|] eqn:E; [| |discriminate].
    + injection H as <- <-. eapply rt_step_inv; eassumption.
    + injection H as <- <-. apply crash_inv; [assumption|]. eapply rt_step_fault; eassumption.
  - unfold settle in H. destruct (run_step true s) as [pc s1 t1|fl t1|] eqn:E; [| |discriminate].
    + injection H as <- <-. eapply rt_step_inv; eassumption.
    + injection H as <- <-. apply crash_inv; [assumption|]. eapply rt_step_fault; eassumption.
  - destruct (isRunning s); [|discriminate].
    unfold settle in H. destruct (run_callback cb s) as [a s1 t1|fl t1|] eqn:E; [| |discriminate].
    + injection H as <- <-. eapply callback_inv; eassumption.
    + injection H as <- <-. apply crash_inv; [assumption|]. eapply callback_fault; eassumption.
Qed.

Lemma init_inv p h : protocol_inv (init p h).
Proof. constructor; unfold_inv; simpl; try reflexivity; try lia; discriminate. Qed.

Lemma run_inv cs s s' t :
  protocol_inv s -> run cs s = Some (s', t) -> protocol_inv s'.
Proof.
  revert s t. induction cs as [|c cs IH]; simpl; intros s t Hinv H.
  - now injection H as <- <-.
  - destruct (step c s) as [[s1 t1]|] eqn:E; [|discriminate].
    destruct (run cs s1) as [[s2 t2]|] eqn:E2; [|discriminate].
    injection H as <- <-. eapply IH; [|eassumption]. eapply step_inv; eassumption.
Qed.

Lemma reachable_inv p h s : reachable p h s -> protocol_inv s.
Proof. intros (cs & t & H). eapply run_inv; [apply init_inv|eassumption]. Qed.

Lemma windowFor_None_not_in (l : list RenderThread.Window) (w : window) :
  windowFor RenderThread.window l w = None -> ~ In w (map RenderThread.window l).
Proof.
  unfold windowFor. induction l as [|x l IH]; simpl; [tauto|].
  destruct (Nat.eqb (RenderThread.window x) w) eqn:E; [discriminate|].
  apply Nat.eqb_neq in E. intros H [Hx|Hin]; [congruence|]. now apply IH.
Qed.

Lemma nodup_expose (l : list RenderThread.Window) (w : window) (sz : QSize) :
  NoDup (map RenderThread.window l) ->
  windowFor RenderThread.window l w = None ->
  NoDup (map RenderThread.window (l ++ [RenderThread.mkWindow w sz])).
Proof.
  intros Hnd Hnone. apply windowFor_None_not_in in Hnone.
  rewrite map_app. simpl. apply NoDup_app; [exact Hnd|repeat constructor; simpl; tauto|].
  intros a Ha [<-|[]]. contradiction.
Qed.

Lemma removeFirst_incl (l : list RenderThread.Window) (w x : window) :
  In x (map RenderThread.window (rt_removeFirst w l)) -> In x (map RenderThread.window l).
Proof.
  induction l as [|y l IH]; simpl; [tauto|].
  destruct (Nat.eqb (RenderThread.window y) w); simpl; tauto.
Qed.

Lemma nodup_removeFirst (l : list RenderThread.Window) (w : window) :
  NoDup (map RenderThread.window l) -> NoDup (map RenderThread.window (rt_removeFirst w l)).
Proof.
  induction l as [|y l IH]; simpl; intros Hnd; [constructor|].
  inversion Hnd as [|? ? Hnotin Hnd']; subst.
  destruct (Nat.eqb (RenderThread.window y) w); simpl; [assumption|].
  constructor; [|now apply IH]. intros Hin. apply Hnotin. eapply removeFirst_incl; eassumption.
Qed.

Ltac unfold_anim := unfold in_flight, gui_at in *.

Ltac aclose :=
  intros; unfold isRunning in *; simpl in *;
  rewrite ?occ_app, ?occ_cons, ?occ_nil in *; simpl in *;
  try rewrite wrap32_small in * by lia;
  rewrite ?rt_setSize_windows;
  try assumption; try congruence; try lia;
  try (apply nodup_removeFirst; assumption);
  try (apply nodup_expose; assumption);
  try match goal with
      | E : RenderThread.m_windows _ = _ |- NoDup _ => rewrite E; simpl; assumption
      end.

Ltac afinish :=
  aclose;
  repeat match goal with
         | H : context [match ?x with _ => _ end] |- _ => innermost x; destruct x eqn:?; aclose
         | |- context [match ?x with _ => _ end] => innermost x; destruct x eqn:?; aclose
         end.

Ltac split_counters := split; constructor; unfold_anim; simpl; try assumption.

Ltac acase H Hs k :=
  break_in H; try discriminate H; injection H as <- <- <-;
  unfold_anim;
  try match goal with E : gq _ = _ |- _ => rewrite E in * end;
  split_counters;
  try (destruct k as [|[] k']; simpl in Hs; try discriminate Hs); afinish.

Lemma gui_step_counters p s f k fs s' t :
  gstack s = f :: k -> forallb resumable k = true -> counters_inv p s ->
  gui_frame f s = Ok fs s' t -> counters_inv p (set_gstack (fs ++ k) s').
Proof.
  intros Hst Hs [[Hcnt Hb Ht] [Hd Hts Hnd]] H.
  unfold_anim. rewrite Hst in *.
  destruct f; simpl in Hcnt;
    try (unfold gui_frame in H; rewrite polishAndSync_spec in H);
    unfold_gui; unfold_prims.
  all: solve [acase H Hs k].
Qed.

Ltac rcase_counters H :=
  break_in H; try discriminate H; injection H as <- <- <-;
  split_counters; afinish.

Lemma rt_step_counters p s leave pc s' t :
  counters_inv p s ->
  run_step leave s = Ok pc s' t -> counters_inv p (set_rpc pc s').
Proof.
  intros [[Hcnt Hb Ht] [Hd Hts Hnd]] H.
  unfold run_step in H. rewrite bind_get in H.
  destruct (rpc s) eqn:Hpc; try specialize (Ht eq_refl).
  all: try (unfold bind in H;
            rewrite ?syncAndRender_sync_spec, ?syncAndRender_render_spec, ?sync_spec in H).
  all: unfold_rt; unfold_prims; unfold after_sync, woken in *.
  all: solve [rcase_counters H].
Qed.

Lemma callback_counters p s cb a s' t :
  counters_inv p s -> run_callback cb s = Ok a s' t -> counters_inv p s'.
Proof.
  intros [[Hcnt Hb Ht] [Hd Hts Hnd]] H.
  destruct cb; unfold_rt; unfold_prims; simpl in H.
  all: solve [rcase_counters H].
Qed.

Lemma gui_callback_counters p s w a s' t :
  counters_inv p s -> maybeUpdate GuiThread w s = Ok a s' t -> counters_inv p s'.
Proof.
  intros [[Hcnt Hb Ht] [Hd Hts Hnd]] H.
  unfold_gui; unfold_prims; simpl in H.
  solve [rcase_counters H].
Qed.

Lemma crash_counters p s fl : counters_inv p s -> counters_inv p (set_crashed (Some fl) s).
Proof. intros [[Hcnt Hb Ht] [Hd Hts Hnd]]. split_counters. Qed.

Lemma step_counters p c s s' t :
  protocol_inv s -> counters_inv p s -> step c s = Some (s', t) -> counters_inv p s'.
Proof.
  intros Hp Hinv H. unfold step in H.
  destruct (crashed s) eqn:Hcr; [discriminate|].
  destruct c.
  - destruct (gstack s) eqn:Hst; [|discriminate].
    destruct (host_callable f) eqn:Hf; [|discriminate].
    injection H as <- <-. destruct Hinv as [[Hcnt Hb Ht] [Hd Hts Hnd]].
    unfold_anim. rewrite Hst in *.
    destruct f; try discriminate Hf; split_counters; afinish.
  - injection H as <- <-. destruct Hinv as [[Hcnt Hb Ht] [Hd Hts Hnd]]. split_counters.
  - destruct ((1 <=? id) && (id <? timer_seq s)); [|discriminate].
    injection H as <- <-. destruct Hinv as [[Hcnt Hb Ht] [Hd Hts Hnd]]. split_counters; afinish.
  - destruct (gstack s) eqn:Hst; [|discriminate].
    destruct (gq s) as [|e q] eqn:Hgq; [discriminate|].
    injection H as <- <-. destruct Hinv as [[Hcnt Hb Ht] [Hd Hts Hnd]].
    unfold_anim. rewrite Hst, Hgq in *.
    split_counters; afinish.
  - destruct (gstack s) as [|f k] eqn:Hst; [discriminate|].
    unfold settle in H. destruct (gui_frame f s) as [fs s1 t1|fl t1|] eqn:E; [| |discriminate].
    + injection H as <- <-. eapply gui_step_counters; try eassumption.
      pose proof (inv_stack Hp) as Hs. now rewrite Hst in Hs.
    + injection H as <- <-. now apply crash_counters.
  - destruct (gstack s) as [|f k] eqn:Hst; [discriminate|].
    destruct (holds_mutex (gui_at s) || in_wait (gui_at s)); [discriminate|].
    unfold settle in H.
    destruct (maybeUpdate GuiThread w s) as [a s1 t1|fl t1|] eqn:E; [| |discriminate].
    + injection H as <- <-. eapply gui_callback_counters; eassumption.
    + injection H as <- <-. now apply crash_counters.
  - unfold settle in H. destruct (run_step false s) as [pc s1 t1|fl t1|] eqn:E; [| |discriminate].
    + injection H as <- <-. eapply rt_step_counters; eassumption.
    + injection H as <- <-. now apply crash_counters.
  - unfold settle in H. destruct (run_step true s) as [pc s1 t1|fl t1|] eqn:E; [| |discriminate].
    + injection H as <- <-. eapply rt_step_counters; eassumption.
    + injection H as <- <-. now apply crash_counters.
  - destruct (isRunning s); [|discriminate].
    unfold settle in H. destruct (run_callback cb s) as [a s1 t1|fl t1|] eqn:E; [| |discriminate].
    + injection H as <- <-. eapply callback_counters; eassumption.
    + injection H as <- <-. now apply crash_counters.
Qed.

Lemma init_counters p h : counters_inv p (init p h).
Proof.
  split; constructor; unfold_anim; simpl; try reflexivity; try lia; try discriminate.
  constructor.
Qed.

Lemma run_counters p cs s s' t :
  protocol_inv s -> counters_inv p s -> run cs s = Some (s', t) -> counters_inv p s'.
Proof.
  revert s t. induction cs as [|c cs IH]; simpl; intros s t Hp Hinv H.
  - now injection H as <- <-.
  - destruct (step c s) as [[s1 t1]|] eqn:E; [|discriminate].
    destruct (run cs s1) as [[s2 t2]|] eqn:E2; [|discriminate].
    injection H as <- <-. eapply IH; [| |eassumption].
    + eapply step_inv; eassumption.
    + eapply step_counters; eassumption.
Qed.

Lemma reachable_counters p h s : reachable p h s -> counters_inv p s.
Proof.
  intros (cs & t & H). eapply run_counters; [apply init_inv|apply init_counters|eassumption].
Qed.

#[local] Transparent occ has_flag set_flag size_of wrap32.

(** ** The protocol *)


Lemma maybeUpdate_spec (s : sys) (caller : thread) (w : window) :
  caller = GuiThread \/ RenderThread.guiIsLocked (th s) = true ->
  maybeUpdate caller w s =
  match windowFor RenderLoop.window (RenderLoop.m_windows (wm s)) w with
  | None => Ok tt s []
  | Some r =>
      if RenderLoop.pendingUpdate r || negb (isRunning s) then Ok tt s []
      else match caller with
           | RenderThread =>
               Ok tt (set_gq (gq s ++ [WM_UpdateLater w]) s) [APostGUI (WM_UpdateLater w)]
           | GuiThread =>
               if RenderLoop.m_update_timer (wm s) >? 0 then Ok tt (flagged w s) []
               else Ok tt (timer_started w s)
                       [AStartTimer (timer_seq s)
                          (if RenderLoop.driver_running (wm s)
                           then RenderLoop.m_exhaust_delay (wm s) else 0) true]
           end
  end.
Proof.
  intros Hcall. unfold maybeUpdate. rewrite bind_get.
  replace (thread_eqb caller GuiThread || RenderThread.guiIsLocked (th s)) with true
    by (destruct Hcall as [->| ->]; [reflexivity|now rewrite orb_true_r]).
  unfold Q_ASSERT_X. rewrite bind_ret.
  destruct (windowFor _ _ w) as [r|]; [|reflexivity].
  destruct (RenderLoop.pendingUpdate r || negb (isRunning s)); [reflexivity|].
  destruct caller; unfold_prims; simpl.
  - destruct (RenderLoop.m_update_timer (wm s) >? 0); reflexivity.
  - reflexivity.
Qed.

(** *** Concrete runs *)

Lemma run_computed (cs : list choice) (s : sys) :
  run cs s <> None -> run cs s = Some (state_after cs s, trace_after cs s).
Proof.
  unfold state_after, trace_after. destruct (run cs s) as [[s' t]|]; congruence.
Qed.

Lemma reachable_after (cs : list choice) :
  run cs sys0 <> None -> reachable platform0 host0 (state_after cs sys0).
Proof. intros H. exists cs, (trace_after cs sys0). now apply run_computed. Qed.

(** *** The animation requests *)



(** *** [sync()] *)

(** C4. Whenever the render thread comes to call [sync()] (at that
    point of [run()], with [SyncRequest] set), [guiIsLocked] is true: the
    assertion of [sync()] fails in no reachable state.  With the mutex
    free [sync()] takes it, clears the whole of [pendingUpdate], runs the
    sync hooks, and only then signals the wait condition, on which the
    GUI thread was waiting, and releases the mutex. *)
Theorem sync_runs_with_gui_locked (p : Platform) (h : Host) (s : sys) :
  reachable p h s ->
  crashed s <> Some (AssertFailure sync_assert)
  /\ (rpc s = RSync ->
      has_flag (RenderThread.pendingUpdate (th s)) SyncRequest = true ->
      RenderThread.guiIsLocked (th s) = true
      /\ (RenderThread.mutex (th s) = None ->
          RenderThread.waitCondition (th s) = GuiWaiting
          /\ sync s
             = Ok tt (after_sync s)
                  (ALock :: AStore f_pendingUpdate 0
                     :: flat_map sync_actions (RenderThread.m_windows (th s))
                     ++ [AWakeOne; AUnlock])
          /\ count is_sync_action (flat_map sync_actions (RenderThread.m_windows (th s))) = 0%nat
          /\ RenderThread.pendingUpdate (th (after_sync s)) = 0
          /\ RenderThread.waitCondition (th (after_sync s)) = GuiWoken
          /\ RenderThread.mutex (th (after_sync s)) = None)).
Proof.
  intros Hr. destruct (reachable_inv p h s Hr) as [Hm Hw Hl Hs Hsy Hrl Hg Hc Hx].
  split; [exact Hx|]. intros Hpc Hflag.
  rewrite Hpc in Hc. specialize (Hc eq_refl).
  unfold sync_requests in Hsy. rewrite Hflag in Hsy.
  assert (Hat : gui_at s = Some PS_wait
                \/ (gui_at s = Some PS_waiting
                    /\ RenderThread.waitCondition (th s) = GuiWaiting)).
  { unfold awaits_sync, awaits in Hsy. destruct (gui_at s) as [[]|]; simpl in Hsy; try lia.
    - now left.
    - right. split; [reflexivity|]. destruct (RenderThread.waitCondition (th s)); (reflexivity || lia). }
  split.
  { rewrite Hl. destruct Hat as [-> | [-> _]]; reflexivity. }
  intros Hfree. destruct Hat as [Hat | [Hat Hwait]].
  { rewrite Hat in Hm. simpl in Hm. congruence. }
  split; [exact Hwait|].
  rewrite sync_spec, Hfree, Hl, Hat, Hc. simpl.
  split; [reflexivity|]. split.
  { clear. induction (RenderThread.m_windows (th s)) as [|x l IH]; [reflexivity|].
    simpl. rewrite count_app, IH. unfold sync_actions.
    destruct (degenerate (RenderThread.size x)); reflexivity. }
  unfold after_sync, woken. simpl. rewrite Hwait. simpl. repeat split.
Qed.

Lemma sync_runs_with_gui_locked_witness :
  reachable platform0 host0 (state_after run_to_sync sys0)
  /\ rpc (state_after run_to_sync sys0) = RSync
  /\ has_flag (RenderThread.pendingUpdate (th (state_after run_to_sync sys0))) SyncRequest = true
  /\ RenderThread.guiIsLocked (th (state_after run_to_sync sys0)) = true.
Proof.
  assert (H : reachable platform0 host0 (state_after run_to_sync sys0))
    by (apply reachable_after; vm_compute; discriminate).
  split; [exact H|]. split; [reflexivity|]. split; [reflexivity|].
  exact (proj1 (proj2 (sync_runs_with_gui_locked platform0 host0 _ H) eq_refl eq_refl)).
Defined.

(** *** [polishAndSync()] *)

Lemma gui_step_at (s : sys) (f : gframe) (k : list gframe) :
  crashed s = None -> gstack s = f :: k ->
  step GuiStep s = settle s (gui_frame f s) (fun fs s' => set_gstack (fs ++ k) s').
Proof. intros Hc Hst. unfold step. now rewrite Hc, Hst. Qed.



(** *** [maybeUpdate] *)




(** *** [grab] *)

(** C9. Called while the render thread is not running, [grab(window)]
    returns a null image at once: it creates no surface, polishes
    nothing, posts no event, and uses neither the mutex nor the wait
    condition. *)
Theorem grab_without_render_thread (s : sys) (w : window) (k : list gframe) :
  isRunning s = false ->
  grab w s = Ok [] (set_grab_return (Some NullImage) s) []
  /\ (crashed s = None -> gstack s = F_grab w :: k ->
      step GuiStep s = Some (set_gstack k (set_grab_return (Some NullImage) s), [])).
Proof.
  intros Hrun.
  assert (H : grab w s = Ok [] (set_grab_return (Some NullImage) s) []).
  { unfold grab. rewrite bind_get, Hrun. reflexivity. }
  split; [exact H|]. intros Hcr Hst.
  rewrite (gui_step_at s _ _ Hcr Hst). simpl gui_frame. rewrite H. reflexivity.
Qed.

Lemma grab_without_render_thread_witness :
  isRunning sys0 = false
  /\ grab 1%nat sys0 = Ok [] (set_grab_return (Some NullImage) sys0) [].
Proof.
  split; [reflexivity|].
  exact (proj1 (grab_without_render_thread sys0 1%nat [] eq_refl)).
Defined.

(** *** [syncAndRender()] as steps of [run()] *)

Lemma sync_at_any_point (pc : rpoint) (s : sys) :
  sync (set_rpc pc s) = map_state (set_rpc pc) (sync s).
Proof.
  rewrite !sync_spec. cbn [th set_rpc].
  destruct (RenderThread.mutex (th s)); cbn [map_state]; try reflexivity.
  destruct (RenderThread.guiIsLocked (th s)); cbn [map_state]; try reflexivity.
  destruct (_ || _); reflexivity.
Qed.

Lemma render_at_any_point (pc : rpoint) (s : sys) :
  syncAndRender_render (set_rpc pc s) = map_state (set_rpc pc) (syncAndRender_render s).
Proof.
  rewrite !syncAndRender_render_spec. cbn [th host set_rpc]. destruct (_ || _); reflexivity.
Qed.

Lemma step_rt (s : sys) :
  crashed s = None -> step RtStep s = settle s (run_step false s) set_rpc.
Proof. intros H. unfold step. now rewrite H. Qed.

(** The function [syncAndRender()] and the five program points of
    [run()] it is cut into agree: whenever the function returns, the
    steps of the render thread alone, from its entry, do the same
    actions and reach the same state, ready to process events. *)
Lemma syncAndRender_in_steps (s s1 : sys) (t1 : trace) :
  crashed s = None -> rpc s = RAnimTest ->
  syncAndRender s = Ok tt s1 t1 ->
  exists n, run (repeat RtStep n) s = Some (set_rpc RProcessEvents s1, t1).
Proof.
  intros Hcr Hpc Hsr. unfold syncAndRender in Hsr.
  unfold bind in Hsr at 1. rewrite syncAndRender_animate_spec in Hsr.
  set (cond := RenderThread.animationRunning (th s)
               && (RenderThread.animationRequestsPending (th s) <? 2)) in *.
  (* the state and the actions after the first part, and the steps to get there *)
  assert (Hfirst : exists n sa ta,
             (if cond then Ok tt (after_animate s)
                              [AStore f_animationRequestsPending
                                 (wrap32 (RenderThread.animationRequestsPending (th s) + 1));
                               APostGUI WM_AdvanceAnimations]
              else Ok tt s []) = Ok tt sa ta
             /\ forall cs r, run cs (set_rpc RSync sa) = Some r ->
                  run (repeat RtStep n ++ cs) s = Some (fst r, ta ++ snd r)).
  { destruct cond eqn:Hcond.
    - exists 3%nat, (after_animate s). eexists. split; [reflexivity|].
      intros cs [s' t'] Hrun. cbn [repeat app run].
      rewrite (step_rt s Hcr). unfold run_step. rewrite bind_get, Hpc. fold cond.
      rewrite Hcond. cbn [ret settle].
      rewrite step_rt by exact Hcr. unfold run_step. rewrite bind_get. cbn [rpc set_rpc].
      unfold store_animationRequestsPending, upd_th, modify, emit, bind, ret, prefix.
      cbn [settle]. rewrite step_rt by exact Hcr.
      unfold run_step. rewrite bind_get. cbn [rpc set_rpc].
      unfold postGUI, upd_th, modify, emit, bind, ret, prefix. cbn [settle].
      change (set_rpc RSync _) with (set_rpc RSync (after_animate s)).
      rewrite Hrun. reflexivity.
    - exists 1%nat, s. eexists. split; [reflexivity|].
      intros cs [s' t'] Hrun. cbn [repeat app run].
      rewrite (step_rt s Hcr). unfold run_step. rewrite bind_get, Hpc. fold cond.
      rewrite Hcond. cbn [ret settle]. rewrite Hrun. reflexivity. }
  destruct Hfirst as (n & sa & ta & Ha & Hsteps). rewrite Ha in Hsr. cbn [prefix] in Hsr.
  assert (Hcra : crashed sa = None).
  { destruct cond; injection Ha as <- _; exact Hcr. }
  unfold bind in Hsr.
  destruct (syncAndRender_sync sa) as [[] sb tb| |] eqn:Hsync; try discriminate Hsr.
  cbn [prefix] in Hsr.
  destruct (syncAndRender_render sb) as [[] sc tc| |] eqn:Hrender; try discriminate Hsr.
  cbn [prefix] in Hsr. injection Hsr as <- <-.
  assert (Hcrb : crashed sb = None).
  { rewrite syncAndRender_sync_spec in Hsync. destruct (has_flag _ _).
    - apply sync_Ok in Hsync. subst sb. exact Hcra.
    - injection Hsync as <- _. exact Hcra. }
  exists (n + 2)%nat. rewrite repeat_app.
  apply (Hsteps (repeat RtStep 2) (set_rpc RProcessEvents sc, tb ++ tc)).
  cbn [repeat run].
  rewrite step_rt by exact Hcra. unfold run_step. rewrite bind_get. cbn [rpc set_rpc].
  assert (Hsync' : syncAndRender_sync (set_rpc RSync sa) = Ok tt (set_rpc RSync sb) tb).
  { rewrite syncAndRender_sync_spec in *. cbn [th set_rpc].
    destruct (has_flag _ _).
    - rewrite sync_at_any_point, Hsync. reflexivity.
    - injection Hsync as <- <-. reflexivity. }
  rewrite (bind_Ok _ _ _ _ _ _ Hsync'). cbn [ret prefix settle].
  rewrite step_rt by exact Hcrb. unfold run_step. rewrite bind_get. cbn [rpc set_rpc].
  assert (Hrender' : syncAndRender_render (set_rpc RRender sb)
                     = Ok tt (set_rpc RRender sc) tc).
  { rewrite render_at_any_point, Hrender. reflexivity. }
  rewrite (bind_Ok _ _ _ _ _ _ Hrender'). cbn [ret prefix settle fst snd].
  rewrite !app_nil_r. reflexivity.
Qed.

(** *** Window records *)

(** The render thread never holds two records for one window. *)
Lemma reachable_nodup (p : Platform) (h : Host) (s : sys) :
  reachable p h s -> NoDup (map RenderThread.window (RenderThread.m_windows (th s))).
Proof. intros Hr. exact (inv_nodup (proj2 (reachable_counters p h s Hr))). Qed.

(** So, in a reachable state, no record of zero width or height is
    synced, rendered or presented. *)
Lemma reachable_degenerate_skipped (p : Platform) (h : Host) (s : sys)
      (r : RenderThread.Window) :
  reachable p h s ->
  In r (RenderThread.m_windows (th s)) ->
  width (RenderThread.size r) = 0 \/ height (RenderThread.size r) = 0 ->
  count (draws (RenderThread.window r)) (trace_of (sync s)) = 0%nat
  /\ count (draws (RenderThread.window r)) (trace_of (syncAndRender s)) = 0%nat.
Proof.
  intros Hr Hin Hdeg.
  apply degenerate_iff in Hdeg. pose proof (reachable_nodup p h s Hr) as Hnd.
  split; [now apply sync_no_draw|now apply syncAndRender_no_draw].
Qed.

(** *** Examples *)

Lemma degenerate_window_skipped_and_kept_witness :
  NoDup (map RenderThread.window (RenderThread.m_windows (th sys_degenerate)))
  /\ In (RenderThread.mkWindow 1%nat (mkSize 0 480)) (RenderThread.m_windows (th sys_degenerate))
  /\ (width (mkSize 0 480) = 0 \/ height (mkSize 0 480) = 0)
  /\ count (draws 1%nat) (trace_of (syncAndRender sys_degenerate)) = 0%nat.
Proof.
  assert (Hnd : NoDup (map RenderThread.window (RenderThread.m_windows (th sys_degenerate)))).
  { simpl. repeat constructor; simpl; intuition discriminate. }
  assert (Hin : In (RenderThread.mkWindow 1%nat (mkSize 0 480))
                   (RenderThread.m_windows (th sys_degenerate))) by (left; reflexivity).
  split; [exact Hnd|]. split; [exact Hin|]. split; [left; reflexivity|].
  exact (proj1 (proj2 (degenerate_window_skipped_and_kept sys_degenerate
                         (RenderThread.mkWindow 1%nat (mkSize 0 480)) Hnd Hin
                         (or_introl eq_refl)))).
Defined.

(** In that state the other window is synced, rendered and presented. *)
Example degenerate_window_next_to_a_good_one :
  syncAndRender sys_degenerate
  = Ok tt (after_sync sys_degenerate)
       [ALock; AStore f_pendingUpdate 0; AMakeCurrent 2%nat; ASyncSceneGraph 2%nat; AWakeOne;
        AUnlock; AMakeCurrent 2%nat; ARenderSceneGraph 2%nat size0; ASwapBuffers 2%nat;
        AFireFrameSwapped 2%nat].
Proof. reflexivity. Qed.

(** The first frame of a window: what the two threads do, in order. *)
Example first_frame :
  trace_after run_first_frame sys0
  = [APostRT (WM_Expose 1%nat size0); AStore f_shouldExit 0; AStartThread;
     APolishItems 1%nat; ALock; AStore f_guiIsLocked 1; APostRT WM_RequestSync; AWait;
     AStore f_pendingUpdate 1; ASendDeferredDelete; ACreateContext; AMakeCurrent 1%nat;
     ASgInitialize;
     ALock; AStore f_pendingUpdate 0; AMakeCurrent 1%nat; ASyncSceneGraph 1%nat; AWakeOne;
     AUnlock;
     AWaitReturn; AStore f_guiIsLocked 0; AUnlock;
     AMakeCurrent 1%nat; ARenderSceneGraph 1%nat size0; ASwapBuffers 1%nat;
     AFireFrameSwapped 1%nat]
  /\ gstack (state_after run_first_frame sys0) = [].
Proof. split; reflexivity. Qed.

(** The [WM_Resize] of C2 can be posted: a window hidden while still
    exposed, shown again and resized; the render thread dropped its
    record at [WM_Obscure] and stops at the null pointer. *)
Example resize_race_reaches_null_dereference :
  crashed (state_after run_resize_race (init platform0 host_persistentSG))
  = Some NullDereference
  /\ rq (state_after run_resize_race (init platform0 host_persistentSG))
     = [WM_Resize 1%nat (mkSize 800 600)]
  /\ RenderThread.m_windows (th (state_after run_resize_race (init platform0 host_persistentSG)))
     = [].
Proof. repeat split. Qed.

(** * Further properties of the code *)

(** ** The helpers of the file *)


(** X2. [windowFor] returns the first entry of the list whose window is
    the one asked for, and null exactly when the list has no entry for
    it. *)
Theorem windowFor_first_match {T} (win : T -> window) (l : list T) (w : window) :
  match windowFor win l w with
  | Some r => exists l1 l2, l = l1 ++ r :: l2 /\ win r = w /\ Forall (fun x => win x <> w) l1
  | None => Forall (fun x => win x <> w) l
  end.
Proof.
  unfold windowFor. induction l as [|x l IH]; simpl; [constructor|].
  destruct (Nat.eqb (win x) w) eqn:E.
  - apply Nat.eqb_eq in E. exists [], l. repeat split; [exact E|constructor].
  - apply Nat.eqb_neq in E. destruct (find _ l) as [r|].
    + destruct IH as (l1 & l2 & -> & Hr & Hall).
      exists (x :: l1), l2. repeat split; [exact Hr|now constructor].
    + now constructor.
Qed.

(** ** The events of the render thread *)

Lemma windowFor_app {T} (win : T -> window) (l1 l2 : list T) (w : window) :
  windowFor win (l1 ++ l2) w
  = match windowFor win l1 w with Some r => Some r | None => windowFor win l2 w end.
Proof.
  unfold windowFor. induction l1 as [|x l1 IH]; simpl; [reflexivity|].
  now destruct (Nat.eqb (win x) w).
Qed.

Lemma windowFor_window {T} (win : T -> window) (l : list T) (w : window) (r : T) :
  windowFor win l w = Some r -> win r = w.
Proof.
  unfold windowFor. intros H. apply find_some in H as [_ H]. now apply Nat.eqb_eq.
Qed.

Lemma removeFirst_other (l : list RenderThread.Window) (w w' : window) :
  w' <> w ->
  windowFor RenderThread.window (rt_removeFirst w l) w' = windowFor RenderThread.window l w'.
Proof.
  intros Hne. unfold windowFor. induction l as [|x l IH]; simpl; [reflexivity|].
  destruct (Nat.eqb (RenderThread.window x) w) eqn:E; simpl.
  - apply Nat.eqb_eq in E.
    destruct (Nat.eqb (RenderThread.window x) w') eqn:E'; [|reflexivity].
    apply Nat.eqb_eq in E'. congruence.
  - now rewrite IH.
Qed.

Lemma removeFirst_same (l : list RenderThread.Window) (w : window) :
  NoDup (map RenderThread.window l) ->
  windowFor RenderThread.window (rt_removeFirst w l) w = None.
Proof.
  unfold windowFor. induction l as [|x l IH]; simpl; intros Hnd; [reflexivity|].
  inversion Hnd as [|? ? Hnotin Hnd']; subst.
  destruct (Nat.eqb (RenderThread.window x) w) eqn:E; simpl.
  - apply Nat.eqb_eq in E. subst w.
    destruct (find _ l) as [r|] eqn:F; [|reflexivity].
    apply find_some in F as [Hin Hr]. apply Nat.eqb_eq in Hr.
    exfalso. apply Hnotin. rewrite <- Hr. now apply in_map.
  - rewrite E. now apply IH.
Qed.

Lemma removeFirst_absent (l : list RenderThread.Window) (w : window) :
  windowFor RenderThread.window l w = None -> rt_removeFirst w l = l.
Proof.
  unfold windowFor. induction l as [|x l IH]; simpl; [reflexivity|].
  destruct (Nat.eqb (RenderThread.window x) w); [discriminate|].
  intros H. now rewrite IH.
Qed.

Lemma removeFirst_last (l : list RenderThread.Window) (w : window) (sz : QSize) :
  windowFor RenderThread.window l w = None ->
  rt_removeFirst w (l ++ [RenderThread.mkWindow w sz]) = l.
Proof.
  unfold windowFor. induction l as [|x l IH]; simpl.
  - now rewrite Nat.eqb_refl.
  - destruct (Nat.eqb (RenderThread.window x) w); [discriminate|].
    intros H. now rewrite IH.
Qed.

(** What [WM_Expose] and [WM_Obscure] do, as equations. *)
Lemma expose_spec (s : sys) (w : window) (sz : QSize) :
  QSGRenderThread_event (WM_Expose w sz) s
  = Ok true
       (match rt_lookup s w with
        | Some _ => s
        | None => set_th (ThSet.m_windows (rt_windows s ++ [RenderThread.mkWindow w sz]) (th s)) s
        end) [].
Proof.
  unfold QSGRenderThread_event, rt_lookup, rt_windows. rewrite bind_get.
  destruct (windowFor _ _ w); [reflexivity|]. now prog.
Qed.

Lemma obscure_spec (s : sys) (w : window) :
  QSGRenderThread_event (WM_Obscure w) s
  = let l := rt_removeFirst w (rt_windows s) in
    if RenderThread.sleeping (th s) && negb (size_of l =? 0)
    then Ok true (set_th (ThSet.exit_called true (ThSet.m_windows l (th s))) s) [AExit]
    else Ok true (set_th (ThSet.m_windows l (th s)) s) [].
Proof.
  unfold QSGRenderThread_event, rt_windows. prog. cbn [th set_th].
  change (RenderThread.sleeping (ThSet.m_windows ?l ?t)) with (RenderThread.sleeping t).
  change (RenderThread.m_windows (ThSet.m_windows ?l ?t)) with l.
  cbv zeta. destruct (_ && _); now prog.
Qed.

(** X3. [WM_Expose] makes the render thread track the window, once: a
    window it does not track yet is appended with the size of the event;
    for a window it tracks already the event changes nothing, and the
    recorded size stays what it was.  The records of other windows are
    not touched, and the event does nothing else. *)
Theorem expose_tracks_window_once (s : sys) (w : window) (sz : QSize) :
  exists s',
    QSGRenderThread_event (WM_Expose w sz) s = Ok true s' []
    /\ rt_lookup s' w
       = Some (match rt_lookup s w with Some r => r | None => RenderThread.mkWindow w sz end)
    /\ (forall w', w' <> w -> rt_lookup s' w' = rt_lookup s w')
    /\ (forall sz', QSGRenderThread_event (WM_Expose w sz') s' = Ok true s' []).
Proof.
  rewrite expose_spec. eexists. split; [reflexivity|].
  unfold rt_lookup, rt_windows.
  destruct (windowFor RenderThread.window (RenderThread.m_windows (th s)) w) as [r|] eqn:F.
  - split; [exact F|]. split; [reflexivity|].
    intros sz'. rewrite expose_spec. unfold rt_lookup, rt_windows. now rewrite F.
  - cbn [th set_th]. change (RenderThread.m_windows (ThSet.m_windows ?l ?t)) with l.
    assert (Hw : windowFor RenderThread.window
                   (RenderThread.m_windows (th s) ++ [RenderThread.mkWindow w sz]) w
                 = Some (RenderThread.mkWindow w sz)).
    { rewrite windowFor_app, F. unfold windowFor. simpl. now rewrite Nat.eqb_refl. }
    split; [exact Hw|]. split.
    + intros w' Hne. rewrite windowFor_app.
      destruct (windowFor RenderThread.window (RenderThread.m_windows (th s)) w'); [reflexivity|].
      unfold windowFor. simpl.
      destruct (Nat.eqb w w') eqn:E; [apply Nat.eqb_eq in E; congruence|reflexivity].
    + intros sz'. rewrite expose_spec. unfold rt_lookup, rt_windows. cbn [th set_th].
      change (RenderThread.m_windows (ThSet.m_windows ?l ?t)) with l. now rewrite Hw.
Qed.

(** X4. [WM_Obscure] removes the record of the window: afterwards the
    render thread has none for it (the windows of the list being
    distinct), the records of the other windows are as before, and for a
    window that is not tracked the list is unchanged; the handler never
    fails.  It calls [exit()] exactly when the thread sleeps and a window
    is left. *)
Theorem obscure_forgets_window (s : sys) (w : window) :
  NoDup (map RenderThread.window (rt_windows s)) ->
  exists s' t,
    QSGRenderThread_event (WM_Obscure w) s = Ok true s' t
    /\ rt_lookup s' w = None
    /\ (forall w', w' <> w -> rt_lookup s' w' = rt_lookup s w')
    /\ (rt_lookup s w = None -> rt_windows s' = rt_windows s)
    /\ t = (if RenderThread.sleeping (th s) && negb (size_of (rt_windows s') =? 0)
            then [AExit] else []).
Proof.
  intros Hnd. rewrite obscure_spec. cbv zeta.
  assert (H : forall s',
             rt_windows s' = rt_removeFirst w (rt_windows s) ->
             rt_lookup s' w = None
             /\ (forall w', w' <> w -> rt_lookup s' w' = rt_lookup s w')
             /\ (rt_lookup s w = None -> rt_windows s' = rt_windows s)).
  { intros s' E. unfold rt_lookup. rewrite E. split; [now apply removeFirst_same|].
    split; [intros w' Hne; now apply removeFirst_other|].
    intros Hnone. now apply removeFirst_absent. }
  destruct (RenderThread.sleeping (th s) && _) eqn:E; eexists _, _;
    (split; [reflexivity|]);
    match goal with
    | |- rt_lookup ?x _ = _ /\ _ => destruct (H x eq_refl) as (H1 & H2 & H3)
    end;
    repeat (split; [assumption|]); unfold rt_windows; cbn [th set_th];
    change (RenderThread.m_windows (ThSet.exit_called ?b ?t)) with (RenderThread.m_windows t);
    change (RenderThread.m_windows (ThSet.m_windows ?l ?t)) with l;
    unfold rt_windows in E; now rewrite E.
Qed.

Lemma obscure_forgets_window_witness :
  NoDup (map RenderThread.window (rt_windows sys_tracking_2))
  /\ exists s' t,
       QSGRenderThread_event (WM_Obscure 2%nat) sys_tracking_2 = Ok true s' t
       /\ rt_lookup s' 2%nat = None.
Proof.
  assert (Hnd : NoDup (map RenderThread.window (rt_windows sys_tracking_2)))
    by (repeat constructor; simpl; tauto).
  split; [exact Hnd|].
  destruct (obscure_forgets_window sys_tracking_2 2%nat Hnd) as (s' & t & H & Hl & _).
  now exists s', t.
Defined.

(** X5. Exposing a window the render thread does not track and then
    obscuring it gives back the window list there was. *)
Theorem expose_then_obscure (s : sys) (w : window) (sz : QSize) :
  rt_lookup s w = None ->
  exists s1 s2 t,
    QSGRenderThread_event (WM_Expose w sz) s = Ok true s1 []
    /\ QSGRenderThread_event (WM_Obscure w) s1 = Ok true s2 t
    /\ rt_windows s2 = rt_windows s.
Proof.
  intros Hnone. rewrite expose_spec, Hnone. eexists. rewrite obscure_spec. cbv zeta.
  destruct (_ && _); eexists _, _; (split; [reflexivity|]); (split; [reflexivity|]);
    unfold rt_windows; cbn [th set_th];
    change (RenderThread.m_windows (ThSet.exit_called ?b ?t)) with (RenderThread.m_windows t);
    change (RenderThread.m_windows (ThSet.m_windows ?l ?t)) with l;
    now apply removeFirst_last.
Qed.

Lemma expose_then_obscure_witness :
  rt_lookup sys_tracking_2 1%nat = None
  /\ exists s1 s2 t,
       QSGRenderThread_event (WM_Expose 1%nat size0) sys_tracking_2 = Ok true s1 []
       /\ QSGRenderThread_event (WM_Obscure 1%nat) s1 = Ok true s2 t
       /\ rt_windows s2 = rt_windows sys_tracking_2.
Proof. split; [reflexivity|]. apply (expose_then_obscure sys_tracking_2 1%nat size0). reflexivity. Defined.

Lemma has_flag_repaint (q : Z) : has_flag q RepaintRequest = Z.testbit q 1.
Proof.
  unfold has_flag, RepaintRequest.
  assert (H : Z.land q 2 = if Z.testbit q 1 then 2 else 0).
  { apply Z.bits_inj'. intros n Hn. rewrite Z.land_spec.
    destruct (Z.eq_dec n 1) as [->|Hne].
    - destruct (Z.testbit q 1); reflexivity.
    - replace (Z.testbit 2 n) with false.
      + rewrite andb_false_r. destruct (Z.testbit q 1); [|now rewrite Z.bits_0].
        destruct n as [|[ | |]|]; try reflexivity; try lia.
      + destruct n as [|[ | |]|]; try reflexivity; lia. }
  rewrite H. now destruct (Z.testbit q 1).
Qed.

Lemma set_flag_bits (p flag : Z) (n : Z) :
  0 <= n ->
  Z.testbit (set_flag p flag) n = (Z.testbit p n || Z.testbit flag n) && Z.testbit 3 n.
Proof. intros Hn. unfold set_flag. now rewrite Z.land_spec, Z.lor_spec. Qed.

Lemma requestSync_spec (s : sys) :
  QSGRenderThread_event WM_RequestSync s
  = Ok true (set_th (requested SyncRequest (th s)) s)
       ((if RenderThread.sleeping (th s) then [AExit] else [])
        ++ (if size_of (RenderThread.m_windows (th s)) >? 0
            then [AStore f_pendingUpdate (set_flag (RenderThread.pendingUpdate (th s)) SyncRequest)]
            else [])).
Proof.
  unfold QSGRenderThread_event, requested. rewrite bind_get.
  destruct s as [t ? ? ? ? ? ? ? ? ? ?]. destruct t as [? ? ? sl ? ? ? ? ? ? l ?].
  cbn [th RenderThread.sleeping RenderThread.m_windows RenderThread.pendingUpdate].
  destruct sl, (size_of l >? 0); prog; reflexivity.
Qed.

Lemma requestRepaint_spec (s : sys) :
  requestRepaint s
  = Ok tt (set_th (requested RepaintRequest (th s)) s)
       ((if RenderThread.sleeping (th s) then [AExit] else [])
        ++ (if size_of (RenderThread.m_windows (th s)) >? 0
            then [AStore f_pendingUpdate
                    (set_flag (RenderThread.pendingUpdate (th s)) RepaintRequest)]
            else [])).
Proof.
  unfold requestRepaint, requested. rewrite bind_get.
  destruct s as [t ? ? ? ? ? ? ? ? ? ?]. destruct t as [? ? ? sl ? ? ? ? ? ? l ?].
  cbn [th RenderThread.sleeping RenderThread.m_windows RenderThread.pendingUpdate].
  destruct sl; prog; cbn [th set_th RenderThread.m_windows RenderThread.pendingUpdate
                          ThSet.exit_called];
    destruct (size_of l >? 0); prog; reflexivity.
Qed.

Lemma requested_flags (flag : Z) (t : RenderThread.t) (n : Z) :
  0 <= n ->
  Z.testbit (RenderThread.pendingUpdate (requested flag t)) n
  = if size_of (RenderThread.m_windows t) >? 0
    then (Z.testbit (RenderThread.pendingUpdate t) n || Z.testbit flag n) && Z.testbit 3 n
    else Z.testbit (RenderThread.pendingUpdate t) n.
Proof.
  intros Hn. unfold requested.
  destruct (size_of _ >? 0), (RenderThread.sleeping t); cbn; try reflexivity;
    now apply set_flag_bits.
Qed.

Lemma requested_rest (flag : Z) (t : RenderThread.t) :
  RenderThread.m_windows (requested flag t) = RenderThread.m_windows t
  /\ RenderThread.mutex (requested flag t) = RenderThread.mutex t
  /\ RenderThread.waitCondition (requested flag t) = RenderThread.waitCondition t
  /\ RenderThread.exit_called (requested flag t)
     = RenderThread.exit_called t || RenderThread.sleeping t.
Proof.
  unfold requested.
  destruct (size_of _ >? 0), (RenderThread.sleeping t) eqn:E; cbn;
    rewrite ?orb_false_r, ?orb_true_r; repeat split; reflexivity.
Qed.

(** X6. [WM_RequestSync] raises the [SyncRequest] bit of [pendingUpdate]
    and leaves the [RepaintRequest] bit as it is; with no window on the
    render thread the request is dropped, [pendingUpdate] stays what it
    was.  [exit()] is called exactly when the thread sleeps.  Neither the
    window list nor the mutex, the wait condition or the event queues are
    touched. *)
Theorem requestSync_raises_flag (s : sys) :
  exists s' t,
    QSGRenderThread_event WM_RequestSync s = Ok true s' t
    /\ has_flag (RenderThread.pendingUpdate (th s')) SyncRequest
       = has_flag (RenderThread.pendingUpdate (th s)) SyncRequest
         || (size_of (rt_windows s) >? 0)
    /\ has_flag (RenderThread.pendingUpdate (th s')) RepaintRequest
       = has_flag (RenderThread.pendingUpdate (th s)) RepaintRequest
    /\ (if size_of (rt_windows s) >? 0 then True
        else RenderThread.pendingUpdate (th s') = RenderThread.pendingUpdate (th s))
    /\ count is_exit t = (if RenderThread.sleeping (th s) then 1 else 0)%nat
    /\ rt_windows s' = rt_windows s
    /\ RenderThread.mutex (th s') = RenderThread.mutex (th s)
    /\ RenderThread.waitCondition (th s') = RenderThread.waitCondition (th s)
    /\ rq s' = rq s /\ gq s' = gq s /\ wm s' = wm s.
Proof.
  rewrite requestSync_spec. eexists _, _. split; [reflexivity|].
  cbn [th set_th rq gq wm]. unfold rt_windows.
  destruct (requested_rest SyncRequest (th s)) as (Hw & Hm & Hc & _).
  rewrite !has_flag_sync, !has_flag_repaint, !requested_flags by lia.
  split; [destruct (size_of _ >? 0); cbn;
          rewrite ?andb_true_r, ?orb_true_r, ?orb_false_r; reflexivity|].
  split; [destruct (size_of _ >? 0); cbn;
          rewrite ?andb_true_r, ?orb_true_r, ?orb_false_r; reflexivity|].
  split; [unfold requested; destruct (size_of _ >? 0); [exact I|];
          now destruct (RenderThread.sleeping (th s))|].
  split; [destruct (RenderThread.sleeping (th s)), (size_of _ >? 0); reflexivity|].
  repeat split; assumption.
Qed.

(** X7. [update(window)] called on the render thread is
    [requestRepaint()], whatever the window: it raises the
    [RepaintRequest] bit if the render thread has a window, leaves the
    [SyncRequest] bit alone, and calls [exit()] exactly when the thread
    sleeps.  It never fails, posts no event and does not touch the
    render loop's own data. *)
Theorem update_on_render_thread (s : sys) (w : window) :
  exists s' t,
    update RenderThread w s = Ok tt s' t
    /\ has_flag (RenderThread.pendingUpdate (th s')) RepaintRequest
       = has_flag (RenderThread.pendingUpdate (th s)) RepaintRequest
         || (size_of (rt_windows s) >? 0)
    /\ has_flag (RenderThread.pendingUpdate (th s')) SyncRequest
       = has_flag (RenderThread.pendingUpdate (th s)) SyncRequest
    /\ count is_exit t = (if RenderThread.sleeping (th s) then 1 else 0)%nat
    /\ count is_post t = 0%nat
    /\ rt_windows s' = rt_windows s
    /\ rq s' = rq s /\ gq s' = gq s /\ wm s' = wm s.
Proof.
  unfold update. cbn [thread_eqb]. rewrite requestRepaint_spec.
  eexists _, _. split; [reflexivity|].
  cbn [th set_th rq gq wm]. unfold rt_windows.
  destruct (requested_rest RepaintRequest (th s)) as (Hw & _).
  rewrite !has_flag_sync, !has_flag_repaint, !requested_flags by lia.
  split; [destruct (size_of _ >? 0); cbn;
          rewrite ?andb_true_r, ?orb_true_r, ?orb_false_r; reflexivity|].
  split; [destruct (size_of _ >? 0); cbn;
          rewrite ?andb_true_r, ?orb_true_r, ?orb_false_r; reflexivity|].
  split; [destruct (RenderThread.sleeping (th s)), (size_of _ >? 0); reflexivity|].
  split; [destruct (RenderThread.sleeping (th s)), (size_of _ >? 0); reflexivity|].
  repeat split; assumption.
Qed.

Lemma woken_unlocked (who : thread) (t : RenderThread.t) :
  RenderThread.mutex t = None ->
  ThSet.mutex None (woken (ThSet.mutex (Some who) t)) = woken t.
Proof.
  intros H. destruct t; simpl in *; subst. unfold woken; simpl.
  now destruct waitCondition.
Qed.

(** X8. For a window the render thread tracks, with the context there
    and the mutex free, [WM_Grab] binds the context to the window, syncs
    and renders it at the recorded size, reads the framebuffer into the
    image of the event, then wakes the GUI thread and unlocks.  The size
    is not looked at: a window of width or height zero is rendered and
    read as any other. *)
Theorem grab_known_window_reads_framebuffer (s : sys) (w : window) (r : RenderThread.Window) :
  rt_lookup s w = Some r ->
  RenderThread.gl (th s) = true ->
  RenderThread.mutex (th s) = None ->
  QSGRenderThread_event (WM_Grab w) s
  = Ok true
       (set_grab_image (FramebufferImage (RenderThread.size r)) (set_th (woken (th s)) s))
       [ALock; AMakeCurrent w; ASyncSceneGraph w;
        ARenderSceneGraph w (RenderThread.size r); AReadFramebuffer (RenderThread.size r);
        AWakeOne; AUnlock].
Proof.
  intros Hr Hgl Hm. unfold rt_lookup, rt_windows in Hr.
  pose proof (windowFor_window _ _ _ _ Hr) as Hw.
  unfold QSGRenderThread_event. rewrite bind_get, Hr.
  rewrite (bind_lock_free _ _ _ Hm). unfold gl_makeCurrent. prog.
  cbn [th set_th]. change (RenderThread.gl (ThSet.mutex ?m ?t)) with (RenderThread.gl t).
  rewrite Hgl. prog. cbn [th set_th set_grab_image app].
  rewrite Hw, (woken_unlocked _ _ Hm). destruct s; reflexivity.
Qed.

Lemma grab_known_window_reads_framebuffer_witness :
  rt_lookup sys_degenerate 1%nat = Some (RenderThread.mkWindow 1%nat (mkSize 0 480))
  /\ grab_image (match QSGRenderThread_event (WM_Grab 1%nat) sys_degenerate with
                 | Ok _ s' _ => s'
                 | _ => sys_degenerate
                 end) = FramebufferImage (mkSize 0 480).
Proof.
  split; [reflexivity|].
  now rewrite (grab_known_window_reads_framebuffer sys_degenerate 1%nat _ eq_refl eq_refl eq_refl).
Defined.

(** ** Invariants by induction on the moves *)

Lemma run_snoc (cs : list choice) (c : choice) (s : sys) :
  run (cs ++ [c]) s
  = match run cs s with
    | Some (s1, t1) =>
        match step c s1 with
        | Some (s2, t2) => Some (s2, t1 ++ t2)
        | None => None
        end
    | None => None
    end.
Proof.
  revert s. induction cs as [|c' cs IH]; intros s; simpl.
  - destruct (step c s) as [[s2 t2]|]; [|reflexivity]. now rewrite app_nil_r.
  - destruct (step c' s) as [[s1 t1]|]; [|reflexivity]. rewrite IH.
    destruct (run cs s1) as [[s2 t2]|]; [|reflexivity].
    destruct (step c s2) as [[s3 t3]|]; [|reflexivity]. now rewrite app_assoc.
Qed.

Lemma reachable_init (p : Platform) (h : Host) : reachable p h (init p h).
Proof. now exists [], []. Qed.

Lemma reachable_step (p : Platform) (h : Host) (c : choice) (s s' : sys) (t : trace) :
  reachable p h s -> step c s = Some (s', t) -> reachable p h s'.
Proof.
  intros (cs & t0 & H) Hstep. exists (cs ++ [c]), (t0 ++ t).
  now rewrite run_snoc, H, Hstep.
Qed.

Lemma reachable_invariant (p : Platform) (h : Host) (P : sys -> Prop) :
  P (init p h) ->
  (forall c s s' t, reachable p h s -> P s -> step c s = Some (s', t) -> P s') ->
  forall s, reachable p h s -> P s.
Proof.
  intros Hinit Hstep s (cs & t & H).
  assert (G : forall cs s0 s t, reachable p h s0 -> P s0 -> run cs s0 = Some (s, t) -> P s).
  { clear - Hstep. induction cs as [|c cs IH]; simpl; intros s0 s t Hr HP H.
    - now injection H as <- <-.
    - destruct (step c s0) as [[s1 t1]|] eqn:E; [|discriminate].
      destruct (run cs s1) as [[s2 t2]|] eqn:E2; [|discriminate].
      injection H as <- <-. eapply IH; [| |exact E2].
      + eapply reachable_step; eassumption.
      + eapply Hstep; eassumption. }
  eapply G; [apply reachable_init|exact Hinit|exact H].
Qed.

(** The moves one by one: what has to be shown of each kind of move for
    a property to be kept by [step]. *)
Section Moves.
Variables P Q : sys -> Prop.
Hypothesis host_call :
  forall s f, Q s -> P s -> crashed s = None -> gstack s = [] -> host_callable f = true ->
              P (set_gstack [f] s).
Hypothesis host_change : forall s h, Q s -> P s -> crashed s = None -> P (set_host h s).
Hypothesis timer_fires :
  forall s id, Q s -> P s -> crashed s = None -> 1 <= id < timer_seq s ->
               P (set_gq (gq s ++ [TimerEvent id]) s).
Hypothesis gui_deliver :
  forall s e q, Q s -> P s -> crashed s = None -> gstack s = [] -> gq s = e :: q ->
                P (set_gstack [F_event e] (set_gq q s)).
Hypothesis gui_step :
  forall s f k fs s' t, Q s -> P s -> crashed s = None -> gstack s = f :: k ->
                        gui_frame f s = Ok fs s' t -> P (set_gstack (fs ++ k) s').
Hypothesis gui_fault :
  forall s f k fl t, Q s -> P s -> crashed s = None -> gstack s = f :: k ->
                     gui_frame f s = Fault fl t -> P (set_crashed (Some fl) s).
Hypothesis gui_callback :
  forall s w a s' t, Q s -> P s -> crashed s = None ->
                     maybeUpdate GuiThread w s = Ok a s' t -> P s'.
Hypothesis gui_callback_fault :
  forall s w fl t, Q s -> P s -> crashed s = None ->
                   maybeUpdate GuiThread w s = Fault fl t -> P (set_crashed (Some fl) s).
Hypothesis rt_step :
  forall s leave pc s' t, Q s -> P s -> crashed s = None ->
                          run_step leave s = Ok pc s' t -> P (set_rpc pc s').
Hypothesis rt_fault :
  forall s leave fl t, Q s -> P s -> crashed s = None ->
                       run_step leave s = Fault fl t -> P (set_crashed (Some fl) s).
Hypothesis rt_callback :
  forall s cb a s' t, Q s -> P s -> crashed s = None -> isRunning s = true ->
                      run_callback cb s = Ok a s' t -> P s'.
Hypothesis rt_callback_fault :
  forall s cb fl t, Q s -> P s -> crashed s = None -> isRunning s = true ->
                    run_callback cb s = Fault fl t -> P (set_crashed (Some fl) s).

Lemma step_moves (c : choice) (s s' : sys) (t : trace) :
  Q s -> P s -> step c s = Some (s', t) -> P s'.
Proof.
  intros HQ HP H. unfold step in H.
  destruct (crashed s) eqn:Hcr; [discriminate|].
  destruct c.
  - destruct (gstack s) eqn:Hst; [|discriminate].
    destruct (host_callable f) eqn:Hf; [|discriminate].
    injection H as <- <-. now apply host_call.
  - injection H as <- <-. now apply host_change.
  - destruct ((1 <=? id) && (id <? timer_seq s)) eqn:E; [|discriminate].
    injection H as <- <-. apply timer_fires; try assumption.
    apply andb_prop in E as [E1 E2]. apply Z.leb_le in E1. apply Z.ltb_lt in E2. lia.
  - destruct (gstack s) eqn:Hst; [|discriminate].
    destruct (gq s) as [|e q] eqn:Hgq; [discriminate|].
    injection H as <- <-. now apply gui_deliver.
  - destruct (gstack s) as [|f k] eqn:Hst; [discriminate|].
    unfold settle in H. destruct (gui_frame f s) as [fs s1 t1|fl t1|] eqn:E; [| |discriminate];
      injection H as <- <-; [eapply gui_step|eapply gui_fault]; eassumption.
  - destruct (gstack s) as [|f k] eqn:Hst; [discriminate|].
    destruct (holds_mutex (gui_at s) || in_wait (gui_at s)); [discriminate|].
    unfold settle in H.
    destruct (maybeUpdate GuiThread w s) as [a s1 t1|fl t1|] eqn:E; [| |discriminate];
      injection H as <- <-; [eapply gui_callback|eapply gui_callback_fault]; eassumption.
  - unfold settle in H. destruct (run_step false s) as [pc s1 t1|fl t1|] eqn:E; [| |discriminate];
      injection H as <- <-; [eapply rt_step|eapply rt_fault]; eassumption.
  - unfold settle in H. destruct (run_step true s) as [pc s1 t1|fl t1|] eqn:E; [| |discriminate];
      injection H as <- <-; [eapply rt_step|eapply rt_fault]; eassumption.
  - destruct (isRunning s) eqn:Hrun; [|discriminate].
    unfold settle in H. destruct (run_callback cb s) as [a s1 t1|fl t1|] eqn:E; [| |discriminate];
      injection H as <- <-; [eapply rt_callback|eapply rt_callback_fault]; eassumption.
Qed.
End Moves.

(** *** The thread object *)

Lemma set_flag_range (q flag : Z) : 0 <= set_flag q flag <= 3.
Proof.
  unfold set_flag.
  change (Z.land (Z.lor q flag) 3) with (Z.land (Z.lor q flag) (Z.ones 2)).
  rewrite Z.land_ones by lia.
  pose proof (Z.mod_pos_bound (Z.lor q flag) (2 ^ 2) ltac:(lia)) as H.
  change (2 ^ 2) with 4 in *. lia.
Qed.

Lemma size_of_nil {T} : size_of (@nil T) = 0.
Proof. reflexivity. Qed.

#[local] Opaque occ has_flag set_flag size_of wrap32.

Ltac tclose :=
  intros; unfold isRunning, in_syncAndRender in *; simpl in *;
  rewrite ?size_of_nil in *;
  rewrite ?negb_true_iff, ?negb_false_iff in *;
  repeat match goal with
         | H : _ && _ = true |- _ => apply andb_prop in H; destruct H
         end;
  try assumption; try congruence; try lia;
  try apply set_flag_range;
  try solve [intuition congruence].

Ltac tfinish :=
  tclose;
  repeat match goal with
         | H : context [match ?x with _ => _ end] |- _ => innermost x; destruct x eqn:?; tclose
         | |- context [match ?x with _ => _ end] => innermost x; destruct x eqn:?; tclose
         end.

Ltac tcase H :=
  break_in H; try discriminate H; injection H as <- <- <-;
  constructor; simpl; try assumption; tfinish.

Ltac tfault H :=
  break_in H; try discriminate H; injection H as <- <-;
  constructor; simpl;
  unfold sync_assert, maybeUpdate_assert, run_assert, at_assert in *;
  try assumption; tfinish.

Lemma gui_step_thread s f k fs s' t :
  thread_inv s -> gui_frame f s = Ok fs s' t -> thread_inv (set_gstack (fs ++ k) s').
Proof.
  intros [He Hb Hsl Hx Hp Hsg Hf Hst Hsc] H.
  destruct f;
    try (unfold gui_frame in H; rewrite polishAndSync_spec in H);
    unfold_gui; unfold_prims.
  all: solve [tcase H].
Qed.

Lemma gui_fault_thread s f fl t :
  thread_inv s -> crashed s = None -> gui_frame f s = Fault fl t ->
  thread_inv (set_crashed (Some fl) s).
Proof.
  intros [He Hb Hsl Hx Hp Hsg Hf Hst Hsc] Hcr H.
  destruct f;
    try (unfold gui_frame in H; rewrite polishAndSync_spec in H);
    unfold_gui; unfold_prims.
  all: solve [tfault H].
Qed.

Lemma rt_step_thread s leave pc s' t :
  thread_inv s -> run_step leave s = Ok pc s' t -> thread_inv (set_rpc pc s').
Proof.
  intros [He Hb Hsl Hx Hp Hsg Hf Hst Hsc] H.
  unfold run_step in H. rewrite bind_get in H.
  destruct (rpc s) eqn:Hpc.
  all: try (unfold bind in H;
            rewrite ?syncAndRender_sync_spec, ?syncAndRender_render_spec, ?sync_spec in H).
  all: unfold_rt; unfold_prims; unfold after_sync, woken in *.
  all: solve [tcase H].
Qed.

Lemma rt_fault_thread s leave fl t :
  thread_inv s -> fl <> AssertFailure sync_assert -> run_step leave s = Fault fl t ->
  thread_inv (set_crashed (Some fl) s).
Proof.
  intros [He Hb Hsl Hx Hp Hsg Hf Hst Hsc] Hns H.
  unfold run_step in H. rewrite bind_get in H.
  destruct (rpc s) eqn:Hpc.
  all: try (unfold bind in H;
            rewrite ?syncAndRender_sync_spec, ?syncAndRender_render_spec, ?sync_spec in H).
  all: unfold_rt; unfold_prims; unfold after_sync, woken in *.
  all: solve [tfault H].
Qed.

Lemma callback_thread s cb a s' t :
  thread_inv s -> run_callback cb s = Ok a s' t -> thread_inv s'.
Proof.
  intros [He Hb Hsl Hx Hp Hsg Hf Hst Hsc] H.
  destruct cb; unfold_rt; unfold_prims; simpl in H.
  all: solve [tcase H].
Qed.

Lemma callback_fault_thread s cb fl t :
  thread_inv s -> run_callback cb s = Fault fl t -> thread_inv (set_crashed (Some fl) s).
Proof.
  intros [He Hb Hsl Hx Hp Hsg Hf Hst Hsc] H.
  destruct cb; unfold_rt; unfold_prims; simpl in H.
  all: solve [tfault H].
Qed.

Lemma gui_callback_thread s w a s' t :
  thread_inv s -> maybeUpdate GuiThread w s = Ok a s' t -> thread_inv s'.
Proof.
  intros [He Hb Hsl Hx Hp Hsg Hf Hst Hsc] H.
  unfold_gui; unfold_prims; simpl in H.
  solve [tcase H].
Qed.

Lemma gui_callback_fault_thread s w fl t :
  thread_inv s -> maybeUpdate GuiThread w s = Fault fl t -> thread_inv (set_crashed (Some fl) s).
Proof.
  intros [He Hb Hsl Hx Hp Hsg Hf Hst Hsc] H.
  unfold_gui; unfold_prims; simpl in H.
  solve [tfault H].
Qed.

Lemma init_thread p h : thread_inv (init p h).
Proof. constructor; simpl; try reflexivity; try lia; discriminate. Qed.

Lemma reachable_thread p h s : reachable p h s -> thread_inv s.
Proof.
  apply reachable_invariant; [apply init_thread|].
  intros c s0 s' t Hr. apply (step_moves thread_inv protocol_inv); clear - Hr;
    try solve [intros s; intros; destruct H0 as [He Hb Hsl Hx Hp Hsg Hf Hst Hsc];
               constructor; simpl; tfinish].
  - intros. eapply gui_step_thread; eassumption.
  - intros. eapply gui_fault_thread; eassumption.
  - intros. eapply gui_callback_thread; eassumption.
  - intros. eapply gui_callback_fault_thread; eassumption.
  - intros. eapply rt_step_thread; eassumption.
  - intros. eapply rt_fault_thread; try eassumption. eapply rt_step_fault; eassumption.
  - intros. eapply callback_thread; eassumption.
  - intros. eapply callback_fault_thread; eassumption.
  - now apply reachable_inv in Hr.
Qed.

#[local] Transparent occ has_flag set_flag size_of wrap32.

(** *** The render loop *)

Lemma animationRunning_after_snoc (q : list REvent) (e : REvent) (b : bool) :
  animationRunning_after (q ++ [e]) b
  = match e with
    | MetaCall slot_animationStarted => true
    | MetaCall slot_animationStopped => false
    | _ => animationRunning_after q b
    end.
Proof.
  revert b. induction q as [|x q IH]; intros b; simpl.
  - destruct e as [| | | | | | |[]]; reflexivity.
  - destruct x as [| | | | | | |[]]; apply IH.
Qed.

Lemma animationRunning_after_idem (q : list REvent) (b : bool) :
  animationRunning_after q (animationRunning_after q b) = animationRunning_after q b.
Proof.
  assert (H : forall b b', animationRunning_after q b = animationRunning_after q b'
                           \/ (animationRunning_after q b = b /\ animationRunning_after q b' = b')).
  { induction q as [|x q IH]; intros b1 b2; simpl; [now right|].
    destruct x as [| | | | | | |[]]; try apply IH; now left. }
  destruct (H b (animationRunning_after q b)) as [E|[E1 E2]]; congruence.
Qed.

#[local] Opaque occ has_flag set_flag size_of wrap32.

Ltac lclose :=
  intros; unfold isRunning in *; simpl in *;
  rewrite ?forallb_app, ?animationRunning_after_snoc in *; simpl in *;
  rewrite ?negb_true_iff, ?negb_false_iff, ?andb_true_r in *;
  repeat match goal with
         | H : _ && _ = true |- _ => apply andb_prop in H; destruct H
         | H : (_ =? _) = true |- _ => apply Z.eqb_eq in H
         | H : (_ =? _) = false |- _ => apply Z.eqb_neq in H
         | H : (_ >? _) = true |- _ => rewrite Z.gtb_ltb in H; apply Z.ltb_lt in H
         | H : (_ >? _) = false |- _ => rewrite Z.gtb_ltb in H; apply Z.ltb_ge in H
         | H : forallb resize_ok ?q = true |- context [forallb resize_ok ?q] => rewrite H
         | H : ?x = _ |- context [if ?x then _ else _] => rewrite H
         end;
  simpl in *;
  try assumption; try congruence; try lia;
  try match goal with
      | H : animationRunning_after ?q ?b = ?d |- animationRunning_after ?q ?d = ?d =>
          rewrite <- H; apply animationRunning_after_idem
      end;
  try solve [intuition congruence].

Ltac lfinish :=
  lclose;
  repeat match goal with
         | H : context [match ?x with _ => _ end] |- _ => innermost x; destruct x eqn:?; lclose
         | |- context [match ?x with _ => _ end] => innermost x; destruct x eqn:?; lclose
         end.

Ltac lcase H :=
  break_in H; try discriminate H; injection H as <- <- <-;
  try match goal with E : rq _ = _ |- _ => rewrite E in * end;
  constructor; simpl; try assumption; lfinish.

Lemma gui_step_loop s f k fs s' t :
  loop_inv s -> gui_frame f s = Ok fs s' t -> loop_inv (set_gstack (fs ++ k) s').
Proof.
  intros [Hq Ha Hu Hd Hr Hv] H.
  destruct f;
    try (unfold gui_frame in H; rewrite polishAndSync_spec in H);
    unfold_gui; unfold_prims.
  all: solve [lcase H].
Qed.

Lemma rt_step_loop s leave pc s' t :
  loop_inv s -> run_step leave s = Ok pc s' t -> loop_inv (set_rpc pc s').
Proof.
  intros [Hq Ha Hu Hd Hr Hv] H.
  unfold run_step in H. rewrite bind_get in H.
  destruct (rpc s) eqn:Hpc.
  all: try (unfold bind in H;
            rewrite ?syncAndRender_sync_spec, ?syncAndRender_render_spec, ?sync_spec in H).
  all: unfold_rt; unfold_prims; unfold after_sync, woken in *.
  all: solve [lcase H].
Qed.

Lemma callback_loop s cb a s' t :
  loop_inv s -> run_callback cb s = Ok a s' t -> loop_inv s'.
Proof.
  intros [Hq Ha Hu Hd Hr Hv] H.
  destruct cb; unfold_rt; unfold_prims; simpl in H.
  all: solve [lcase H].
Qed.

Lemma gui_callback_loop s w a s' t :
  loop_inv s -> maybeUpdate GuiThread w s = Ok a s' t -> loop_inv s'.
Proof.
  intros [Hq Ha Hu Hd Hr Hv] H.
  unfold_gui; unfold_prims; simpl in H.
  solve [lcase H].
Qed.

Lemma init_loop p h : loop_inv (init p h).
Proof. constructor; simpl; try reflexivity; try lia. Qed.

Lemma reachable_loop p h s : reachable p h s -> loop_inv s.
Proof.
  apply reachable_invariant; [apply init_loop|].
  intros c s0 s' t _. apply (step_moves loop_inv (fun _ => True)); clear;
    try solve [intros s; intros; destruct H0 as [Hq Ha Hu Hd Hr Hv];
               try match goal with E : gq _ = _ |- _ => rewrite E in * end;
               constructor; simpl; lfinish].
  - intros. eapply gui_step_loop; eassumption.
  - intros. eapply gui_callback_loop; eassumption.
  - intros. eapply rt_step_loop; eassumption.
  - intros. eapply callback_loop; eassumption.
  - exact I.
Qed.

#[local] Transparent occ has_flag set_flag size_of wrap32.

(** ** What holds in every reachable state *)

(** X9. [run()] returns only with the context deleted: whenever
    [shouldExit] is set the context pointer is null, so that the
    assertion at the end of [run()] holds in every reachable state, and a
    render thread that is not running has neither a context nor an
    initialised scene graph. *)
Theorem run_returns_without_context (p : Platform) (h : Host) (s : sys) :
  reachable p h s ->
  (RenderThread.shouldExit (th s) = true -> RenderThread.gl (th s) = false)
  /\ (isRunning s = false ->
      RenderThread.gl (th s) = false /\ RenderThread.sg_ready (th s) = false)
  /\ crashed s <> Some (AssertFailure run_assert).
Proof.
  intros Hr. destruct (reachable_thread p h s Hr) as [He Hb Hsl Hx Hp Hsg Hf Hst Hsc].
  split; [exact He|]. split.
  - unfold isRunning. intros Hrun.
    assert (Hgl : RenderThread.gl (th s) = false)
      by (apply Hst; destruct (rpc s); congruence).
    split; [exact Hgl|]. destruct (RenderThread.sg_ready (th s)); [|reflexivity].
    specialize (Hsc eq_refl). congruence.
  - intros Hc. specialize (Hf _ Hc). discriminate Hf.
Qed.

Lemma run_returns_without_context_witness :
  reachable platform0 host0 (state_after run_to_exit sys0)
  /\ isRunning (state_after run_to_exit sys0) = false
  /\ RenderThread.shouldExit (th (state_after run_to_exit sys0)) = true
  /\ RenderThread.gl (th (state_after run_to_exit sys0)) = false.
Proof.
  assert (H : reachable platform0 host0 (state_after run_to_exit sys0))
    by (apply reachable_after; vm_compute; discriminate).
  split; [exact H|]. split; [reflexivity|]. split; [reflexivity|].
  exact (proj1 (run_returns_without_context platform0 host0 _ H) eq_refl).
Defined.

(** X10. The flag [sleeping] is set exactly while the render thread is
    inside [exec()], and [exit()] is only ever called on a sleeping
    thread: no call of [exit()] is lost on a thread that is not in its
    event loop. *)
Theorem sleeping_exactly_in_exec (p : Platform) (h : Host) (s : sys) :
  reachable p h s ->
  (RenderThread.sleeping (th s) = true <-> rpc s = RExec)
  /\ (RenderThread.exit_called (th s) = true -> RenderThread.sleeping (th s) = true).
Proof.
  intros Hr. destruct (reachable_thread p h s Hr) as [He Hb Hsl Hx Hp Hsg Hf Hst Hsc].
  split.
  - rewrite Hsl. destruct (rpc s); split; congruence.
  - intros Hc. rewrite Hsl, (Hx Hc). reflexivity.
Qed.

Lemma sleeping_exactly_in_exec_witness :
  reachable platform0 host0 (state_after run_to_release sys0)
  /\ RenderThread.exit_called (th (state_after run_to_release sys0)) = true
  /\ RenderThread.sleeping (th (state_after run_to_release sys0)) = true.
Proof.
  assert (H : reachable platform0 host0 (state_after run_to_release sys0))
    by (apply reachable_after; vm_compute; discriminate).
  split; [exact H|]. split; [reflexivity|].
  exact (proj2 (sleeping_exactly_in_exec platform0 host0 _ H) eq_refl).
Defined.

(** X11. Of the assertions in the file only the one of [maybeUpdate]
    can fail: not the one of [sync()], not the one at the end of
    [run()], and [initializeOpenGL()] never reads the first window of an
    empty list. *)
Theorem only_maybeUpdate_can_assert (p : Platform) (h : Host) (s : sys) (what : string) :
  reachable p h s ->
  crashed s = Some (AssertFailure what) ->
  what = maybeUpdate_assert.
Proof.
  intros Hr. destruct (reachable_thread p h s Hr) as [He Hb Hsl Hx Hp Hsg Hf Hst Hsc].
  apply Hf.
Qed.

Lemma only_maybeUpdate_can_assert_witness :
  reachable platform0 host0 (state_after run_stray_callback sys0)
  /\ crashed (state_after run_stray_callback sys0) = Some (AssertFailure maybeUpdate_assert)
  /\ maybeUpdate_assert = maybeUpdate_assert.
Proof.
  assert (H : reachable platform0 host0 (state_after run_stray_callback sys0))
    by (apply reachable_after; vm_compute; discriminate).
  split; [exact H|]. split; [reflexivity|].
  exact (only_maybeUpdate_can_assert platform0 host0 _ _ H eq_refl).
Defined.

(** The GUI thread at the call of [sync()]: it waits in
    [polishAndSync()], with [guiIsLocked] set. *)
Lemma sync_point (s : sys) :
  protocol_inv s ->
  has_flag (RenderThread.pendingUpdate (th s)) SyncRequest = true ->
  RenderThread.mutex (th s) = None ->
  gui_at s = Some PS_waiting
  /\ RenderThread.waitCondition (th s) = GuiWaiting
  /\ RenderThread.guiIsLocked (th s) = true.
Proof.
  intros [Hm Hw Hl Hs Hsy Hrl Hg Hc Hx] Hflag Hfree.
  unfold sync_requests in Hsy. rewrite Hflag in Hsy.
  unfold awaits_sync, awaits in Hsy.
  destruct (gui_at s) as [[]|]; simpl in Hsy, Hm, Hl; try lia; try congruence.
  destruct (RenderThread.waitCondition (th s)); try lia. now rewrite Hl.
Qed.

(** X12. [syncAndRender()] runs with a context and an initialised scene
    graph, and no step the render thread takes inside it fails: neither
    [sync()] nor the rendering loop dereferences a null context. *)
Theorem syncAndRender_has_context (p : Platform) (h : Host) (s : sys) :
  reachable p h s ->
  in_syncAndRender (rpc s) = true ->
  RenderThread.gl (th s) = true
  /\ RenderThread.sg_ready (th s) = true
  /\ forall leave f t, run_step leave s <> Fault f t.
Proof.
  intros Hr Hin. pose proof (reachable_inv p h s Hr) as Hinv.
  destruct (reachable_thread p h s Hr) as [He Hb Hsl Hx Hp Hsg Hf Hst Hsc].
  pose proof (inv_context Hinv Hin) as Hgl.
  split; [exact Hgl|]. split; [now apply Hsg|].
  intros leave f t. unfold run_step. rewrite bind_get.
  destruct (rpc s); try discriminate Hin.
  - destruct (_ && _); discriminate.
  - now prog.
  - now prog.
  - unfold bind. rewrite syncAndRender_sync_spec.
    destruct (has_flag _ _) eqn:Hflag; [|discriminate].
    rewrite sync_spec.
    destruct (RenderThread.mutex (th s)) eqn:Hm; [discriminate|].
    destruct (sync_point s Hinv Hflag Hm) as (_ & _ & Hl). rewrite Hl, Hgl. discriminate.
  - unfold bind. rewrite syncAndRender_render_spec, Hgl. discriminate.
Qed.

Lemma syncAndRender_has_context_witness :
  reachable platform0 host0 (state_after run_to_sync sys0)
  /\ in_syncAndRender (rpc (state_after run_to_sync sys0)) = true
  /\ RenderThread.gl (th (state_after run_to_sync sys0)) = true.
Proof.
  assert (H : reachable platform0 host0 (state_after run_to_sync sys0))
    by (apply reachable_after; vm_compute; discriminate).
  split; [exact H|]. split; [reflexivity|].
  exact (proj1 (syncAndRender_has_context platform0 host0 _ H eq_refl)).
Defined.

(** X13. The two timers of the loop are never taken for one another:
    a running update timer has an id other than the animation timer's,
    so that its timer event stops it, clears [m_update_timer] and goes on
    to [polishAndSync()]. *)
Theorem update_timer_event_runs_polishAndSync (p : Platform) (h : Host) (s : sys) :
  reachable p h s ->
  RenderLoop.m_update_timer (wm s) <> 0 ->
  RenderLoop.m_update_timer (wm s) <> RenderLoop.m_animation_timer (wm s)
  /\ QSGThreadedRenderLoop_event (TimerEvent (RenderLoop.m_update_timer (wm s))) s
     = Ok [F_polishAndSync] (set_wm (WmSet.m_update_timer 0 (wm s)) s)
          [AKillTimer (RenderLoop.m_update_timer (wm s))].
Proof.
  intros Hr Hne. destruct (reachable_loop p h s Hr) as [Hq Ha Hu Hd Hrs Hv].
  assert (Hdiff : RenderLoop.m_update_timer (wm s) <> RenderLoop.m_animation_timer (wm s))
    by (destruct Hd; congruence).
  split; [exact Hdiff|].
  unfold QSGThreadedRenderLoop_event. rewrite bind_get.
  apply Z.eqb_neq in Hdiff. rewrite Hdiff, Z.eqb_refl.
  unfold killTimer. now prog.
Qed.

Lemma update_timer_event_runs_polishAndSync_witness :
  reachable platform0 host0 (state_after run_to_update_timer sys0)
  /\ RenderLoop.m_update_timer (wm (state_after run_to_update_timer sys0)) = 1
  /\ exists s',
       QSGThreadedRenderLoop_event (TimerEvent 1) (state_after run_to_update_timer sys0)
       = Ok [F_polishAndSync] s' [AKillTimer 1].
Proof.
  assert (H : reachable platform0 host0 (state_after run_to_update_timer sys0))
    by (apply reachable_after; vm_compute; discriminate).
  split; [exact H|]. split; [reflexivity|].
  eexists.
  exact (proj2 (update_timer_event_runs_polishAndSync platform0 host0 _ H
                  ltac:(vm_compute; discriminate))).
Defined.

(** X14. Every [WM_Resize] event in the queue of the render thread
    carries a size of non-zero width and height: [resize()] posts no
    other. *)
Theorem resize_events_have_sizes (p : Platform) (h : Host) (s : sys) (w : window) (sz : QSize) :
  reachable p h s ->
  In (WM_Resize w sz) (rq s) ->
  width sz <> 0 /\ height sz <> 0.
Proof.
  intros Hr Hin. destruct (reachable_loop p h s Hr) as [Hq Ha Hu Hd Hrs Hv].
  rewrite forallb_forall in Hrs. specialize (Hrs _ Hin). simpl in Hrs.
  apply negb_true_iff in Hrs. unfold degenerate in Hrs.
  apply orb_false_iff in Hrs as [H1 H2]. now apply Z.eqb_neq in H1, H2.
Qed.

(** X15. The render thread's [animationRunning] follows the animation
    driver: once the slot calls in its queue are delivered it is what
    [m_animation_driver->isRunning()] is, and with no slot call in the
    queue it is that already. *)
Theorem animationRunning_follows_driver (p : Platform) (h : Host) (s : sys) :
  reachable p h s ->
  animationRunning_after (rq s) (RenderThread.animationRunning (th s))
  = RenderLoop.driver_running (wm s)
  /\ (existsb is_MetaCall (rq s) = false ->
      RenderThread.animationRunning (th s) = RenderLoop.driver_running (wm s)).
Proof.
  intros Hr. destruct (reachable_loop p h s Hr) as [Hq Ha Hu Hd Hrs Hv].
  split; [exact Hv|]. rewrite <- Hv. clear.
  generalize (RenderThread.animationRunning (th s)).
  induction (rq s) as [|e q IH]; intros b; simpl; [reflexivity|].
  destruct e as [| | | | | | |[]]; simpl; try discriminate; apply IH.
Qed.

(** ** The rendezvous of the two threads *)

(** X16. At most one request that the GUI thread waits for is under
    way at any time: of the [WM_RequestSync], [WM_TryRelease] and
    [WM_Grab] events in the queue of the render thread and the
    [SyncRequest] flag, at most one is there. *)
Theorem one_request_at_a_time (p : Platform) (h : Host) (s : sys) :
  reachable p h s ->
  (sync_requests s + occ is_TryRelease (rq s) + occ is_Grab (rq s) <= 1)%nat.
Proof.
  intros Hr. destruct (reachable_inv p h s Hr) as [Hm Hw Hl Hs Hsy Hrl Hg Hc Hx].
  unfold awaits_sync, awaits_release, awaits_grab, awaits in *.
  destruct (gui_at s) as [[]|]; simpl in *; try lia;
    destruct (RenderThread.waitCondition (th s)); lia.
Qed.

Lemma one_request_at_a_time_witness :
  reachable platform0 host0 (state_after run_to_wait sys0)
  /\ sync_requests (state_after run_to_wait sys0) = 1%nat
  /\ (1 + occ is_TryRelease (rq (state_after run_to_wait sys0))
      + occ is_Grab (rq (state_after run_to_wait sys0)) <= 1)%nat.
Proof.
  assert (H : reachable platform0 host0 (state_after run_to_wait sys0))
    by (apply reachable_after; vm_compute; discriminate).
  split; [exact H|]. split; [reflexivity|].
  exact (one_request_at_a_time platform0 host0 _ H).
Defined.

Lemma count_map_none {T} (p : action -> bool) (f : T -> action) (l : list T) :
  (forall x, p (f x) = false) -> count p (map f l) = 0%nat.
Proof.
  intros H. induction l as [|x l IH]; [reflexivity|].
  simpl. rewrite count_cons, H, IH. reflexivity.
Qed.

Lemma count_flat_map_none {T} (p : action -> bool) (f : T -> trace) (l : list T) :
  (forall x, count p (f x) = 0%nat) -> count p (flat_map f l) = 0%nat.
Proof.
  intros H. induction l as [|x l IH]; [reflexivity|].
  simpl. rewrite count_app, H, IH. reflexivity.
Qed.

Lemma count_wake_sync_actions (l : list RenderThread.Window) :
  count is_wake (flat_map sync_actions l) = 0%nat.
Proof.
  apply count_flat_map_none. intros x. unfold sync_actions.
  now destruct (degenerate _).
Qed.

Lemma count_wake_render_actions (h : Host) (l : list RenderThread.Window) :
  count is_wake (flat_map (render_actions h) l) = 0%nat.
Proof.
  apply count_flat_map_none. intros x. unfold render_actions.
  now destruct (_ || _).
Qed.

Lemma count_wake_polish (l : list RenderLoop.Window) :
  count is_wake (map (fun w => APolishItems (RenderLoop.window w)) l) = 0%nat.
Proof. now apply count_map_none. Qed.

#[local] Opaque occ has_flag set_flag size_of wrap32.

Ltac wclose :=
  intros; simpl in *;
  rewrite ?count_cons, ?count_app, ?count_nil, ?count_wake_sync_actions,
    ?count_wake_render_actions, ?count_wake_polish in *;
  simpl in *;
  rewrite ?occ_app, ?occ_cons, ?occ_nil in *; simpl in *;
  rewrite ?has_flag_set_sync, ?has_flag_set_repaint, ?has_flag_zero in *;
  rewrite ?negb_true_iff, ?negb_false_iff in *;
  try assumption; try congruence; try lia.

Ltac wfinish :=
  wclose;
  repeat match goal with
         | H : context [match ?x with _ => _ end] |- _ => innermost x; destruct x eqn:?; wclose
         | |- context [match ?x with _ => _ end] => innermost x; destruct x eqn:?; wclose
         end.

Lemma gui_frame_no_wake s f fs s' t :
  gui_frame f s = Ok fs s' t -> count is_wake t = 0%nat.
Proof.
  intros H.
  destruct f;
    try (unfold gui_frame in H; rewrite polishAndSync_spec in H);
    unfold_gui; unfold_prims.
  all: solve [break_in H; try discriminate H; injection H as <- <- <-; wclose; reflexivity].
Qed.

Lemma gui_frame_no_fault s f fl t : gui_frame f s <> Fault fl t.
Proof.
  intros H.
  destruct f;
    try (unfold gui_frame in H; rewrite polishAndSync_spec in H);
    unfold_gui; unfold_prims.
  all: solve [break_in H; discriminate H].
Qed.

Lemma maybeUpdate_no_wake s caller w a s' t :
  maybeUpdate caller w s = Ok a s' t -> count is_wake t = 0%nat.
Proof.
  intros H. unfold_gui; unfold_prims.
  solve [break_in H; try discriminate H; injection H as <- <- <-; wclose; reflexivity].
Qed.

Lemma callback_no_wake s cb a s' t :
  run_callback cb s = Ok a s' t -> count is_wake t = 0%nat.
Proof.
  intros H. destruct cb; unfold_rt; unfold_prims; simpl in H.
  all: solve [break_in H; try discriminate H; injection H as <- <- <-; wclose; reflexivity].
Qed.

Lemma rt_fault_no_wake s leave fl t :
  run_step leave s = Fault fl t -> count is_wake t = 0%nat.
Proof.
  intros H. unfold run_step in H. rewrite bind_get in H.
  destruct (rpc s) eqn:Hpc.
  all: try (unfold bind in H;
            rewrite ?syncAndRender_sync_spec, ?syncAndRender_render_spec, ?sync_spec in H).
  all: unfold_rt; unfold_prims; unfold after_sync, woken in *.
  all: solve [break_in H; try discriminate H; injection H as <- <-; wclose; reflexivity].
Qed.

Lemma rt_step_wake s leave pc s' t :
  protocol_inv s ->
  run_step leave s = Ok pc s' t ->
  count is_wake t <> 0%nat ->
  count is_wake t = 1%nat
  /\ in_wait (gui_at s) = true
  /\ RenderThread.waitCondition (th s) = GuiWaiting
  /\ RenderThread.waitCondition (th s') = GuiWoken.
Proof.
  intros [Hm Hw Hl Hs Hsy Hr Hg Hc Hx] H.
  unfold run_step in H. rewrite bind_get in H.
  destruct (rpc s) eqn:Hpc; simpl in Hc.
  all: try (unfold bind in H;
            rewrite ?syncAndRender_sync_spec, ?syncAndRender_render_spec, ?sync_spec in H).
  all: unfold_rt; unfold_prims; unfold after_sync, woken in *.
  all: solve [break_in H; try discriminate H; injection H as <- <- <-;
              intros Hcount;
              try solve [exfalso; apply Hcount;
                         rewrite ?count_cons, ?count_app, ?count_nil, ?count_wake_sync_actions,
                           ?count_wake_render_actions; reflexivity];
              unfold_inv;
              try match goal with E : rq _ = _ |- _ => rewrite E in * end;
              wclose; repeat split; wfinish].
Qed.

(** X17. No wake-up is lost: whenever a move of the system signals the
    wait condition, it is the render thread that does so, once, and the
    GUI thread is waiting on the condition at that time and is woken. *)
Theorem wake_finds_gui_waiting (p : Platform) (h : Host) (s s' : sys) (c : choice) (t : trace) :
  reachable p h s ->
  step c s = Some (s', t) ->
  count is_wake t <> 0%nat ->
  (c = RtStep \/ c = RtLeave)
  /\ count is_wake t = 1%nat
  /\ in_wait (gui_at s) = true
  /\ RenderThread.waitCondition (th s) = GuiWaiting
  /\ RenderThread.waitCondition (th s') = GuiWoken.
Proof.
  intros Hr H Hcount. pose proof (reachable_inv p h s Hr) as Hinv.
  unfold step in H. destruct (crashed s) eqn:Hcr; [discriminate|].
  assert (Hsettle : forall leave, settle s (run_step leave s) set_rpc = Some (s', t) ->
                                  count is_wake t = 1%nat
                                  /\ in_wait (gui_at s) = true
                                  /\ RenderThread.waitCondition (th s) = GuiWaiting
                                  /\ RenderThread.waitCondition (th s') = GuiWoken).
  { intros leave E. unfold settle in E.
    destruct (run_step leave s) as [pc s1 t1|fl t1|] eqn:E1; [| |discriminate];
      injection E as <- <-.
    - now apply (rt_step_wake s leave pc s1 t1).
    - apply rt_fault_no_wake in E1. contradiction. }
  destruct c.
  - destruct (gstack s); [|discriminate]. destruct (host_callable f); [|discriminate].
    injection H as <- <-. now contradiction Hcount.
  - injection H as <- <-. now contradiction Hcount.
  - destruct (_ && _); [|discriminate]. injection H as <- <-. now contradiction Hcount.
  - destruct (gstack s); [|discriminate]. destruct (gq s); [discriminate|].
    injection H as <- <-. now contradiction Hcount.
  - destruct (gstack s) as [|f k]; [discriminate|]. unfold settle in H.
    destruct (gui_frame f s) as [fs s1 t1|fl t1|] eqn:E; [| |discriminate].
    + injection H as <- <-. apply gui_frame_no_wake in E. contradiction.
    + now apply gui_frame_no_fault in E.
  - destruct (gstack s) as [|f k]; [discriminate|].
    destruct (_ || _); [discriminate|]. unfold settle in H.
    destruct (maybeUpdate GuiThread w s) as [a s1 t1|fl t1|] eqn:E; [| |discriminate].
    + injection H as <- <-. apply maybeUpdate_no_wake in E. contradiction.
    + exfalso. revert E. unfold_gui; unfold_prims. simpl.
      intros E; break_in E; discriminate E.
  - split; [now left|]. now apply (Hsettle false).
  - split; [now right|]. now apply (Hsettle true).
  - destruct (isRunning s); [|discriminate]. unfold settle in H.
    destruct (run_callback cb s) as [a s1 t1|fl t1|] eqn:E; [| |discriminate].
    + injection H as <- <-. apply callback_no_wake in E. contradiction.
    + injection H as <- <-. exfalso. revert E Hcount.
      destruct cb; unfold_rt; unfold_prims; simpl;
        intros E; break_in E; try discriminate E; injection E as <- <-; wclose.
Qed.

#[local] Transparent occ has_flag set_flag size_of wrap32.

Lemma step_computed (c : choice) (s : sys) :
  run [c] s <> None -> step c s = Some (state_after [c] s, trace_after [c] s).
Proof.
  unfold state_after, trace_after. simpl.
  destruct (step c s) as [[s' t]|]; [|congruence]. now rewrite app_nil_r.
Qed.

Lemma wake_finds_gui_waiting_witness :
  reachable platform0 host0 (state_after run_to_sync sys0)
  /\ count is_wake (trace_after [RtStep] (state_after run_to_sync sys0)) = 1%nat
  /\ RenderThread.waitCondition (th (state_after run_to_sync sys0)) = GuiWaiting
  /\ RenderThread.waitCondition (th (state_after [RtStep] (state_after run_to_sync sys0)))
     = GuiWoken.
Proof.
  assert (H : reachable platform0 host0 (state_after run_to_sync sys0))
    by (apply reachable_after; vm_compute; discriminate).
  split; [exact H|].
  assert (Hstep : step RtStep (state_after run_to_sync sys0)
                  = Some (state_after [RtStep] (state_after run_to_sync sys0),
                          trace_after [RtStep] (state_after run_to_sync sys0)))
    by (apply step_computed; vm_compute; discriminate).
  assert (Hc : count is_wake (trace_after [RtStep] (state_after run_to_sync sys0)) <> 0%nat)
    by (vm_compute; discriminate).
  destruct (wake_finds_gui_waiting platform0 host0 _ _ _ _ H Hstep Hc) as (_ & H1 & _ & H2 & H3).
  repeat split; assumption.
Defined.

(** ** What each thread leaves alone *)

#[local] Opaque occ has_flag set_flag size_of wrap32.

Lemma gui_frame_render_data s f k fs s' t :
  gui_frame f s = Ok fs s' t -> render_data (set_gstack (fs ++ k) s') = render_data s.
Proof.
  intros H.
  destruct f;
    try (unfold gui_frame in H; rewrite polishAndSync_spec in H);
    unfold_gui; unfold_prims.
  all: solve [break_in H; try discriminate H; injection H as <- <- <-; reflexivity].
Qed.

Lemma gui_callback_render_data s w a s' t :
  maybeUpdate GuiThread w s = Ok a s' t -> render_data s' = render_data s.
Proof.
  intros H. unfold_gui; unfold_prims.
  solve [break_in H; try discriminate H; injection H as <- <- <-; reflexivity].
Qed.

(** X18. The GUI thread leaves the data of the render thread alone:
    no call the host makes on the loop, no event the loop handles and no
    step of its functions writes the window list of the render thread,
    [pendingUpdate], the context, the state of the scene graph,
    [sleeping] or the exit request of its event loop. *)
Theorem gui_thread_leaves_render_data (s s' : sys) (c : choice) (t : trace) :
  gui_move c = true ->
  step c s = Some (s', t) ->
  render_data s' = render_data s.
Proof.
  intros Hc H. unfold step in H. destruct (crashed s); [discriminate|].
  destruct c; try discriminate Hc.
  - destruct (gstack s); [|discriminate]. destruct (host_callable f); [|discriminate].
    now injection H as <- <-.
  - destruct (_ && _); [|discriminate]. now injection H as <- <-.
  - destruct (gstack s); [|discriminate]. destruct (gq s); [discriminate|].
    now injection H as <- <-.
  - destruct (gstack s) as [|f k]; [discriminate|]. unfold settle in H.
    destruct (gui_frame f s) as [fs s1 t1|fl t1|] eqn:E; [| |discriminate];
      injection H as <- <-; [|reflexivity].
    eapply gui_frame_render_data; eassumption.
  - destruct (gstack s) as [|f k]; [discriminate|].
    destruct (_ || _); [discriminate|]. unfold settle in H.
    destruct (maybeUpdate GuiThread w s) as [a s1 t1|fl t1|] eqn:E; [| |discriminate];
      injection H as <- <-; [|reflexivity].
    eapply gui_callback_render_data; eassumption.
Qed.

Lemma gui_thread_leaves_render_data_witness :
  gui_move GuiStep = true
  /\ render_data (state_after [GuiStep] (state_after (run_to_sleep ++ [HostCall (F_hide 1%nat)]) sys0))
     = render_data (state_after (run_to_sleep ++ [HostCall (F_hide 1%nat)]) sys0).
Proof.
  split; [reflexivity|].
  assert (Hstep : step GuiStep (state_after (run_to_sleep ++ [HostCall (F_hide 1%nat)]) sys0)
                  = Some (state_after [GuiStep] (state_after (run_to_sleep ++ [HostCall (F_hide 1%nat)]) sys0),
                          trace_after [GuiStep] (state_after (run_to_sleep ++ [HostCall (F_hide 1%nat)]) sys0))).
  { apply step_computed. vm_compute. discriminate. }
  exact (gui_thread_leaves_render_data _ _ GuiStep _ eq_refl Hstep).
Defined.





#[local] Transparent occ has_flag set_flag size_of wrap32.

(** ** The operations of the loop *)

Lemma anyoneShowing_wm (s : sys) (f : RenderLoop.t -> RenderLoop.t) :
  RenderLoop.m_windows (f (wm s)) = RenderLoop.m_windows (wm s) ->
  anyoneShowing (set_wm (f (wm s)) s) = anyoneShowing s.
Proof. intros H. unfold anyoneShowing. cbn [host wm set_wm]. now rewrite H. Qed.

(** X20. The non-visual animation timer runs only while no window is
    showing.  With a window visible and exposed the slots
    [animationStarted()] and [animationStopped()] of the loop do
    nothing.  Otherwise [animationStarted()] starts the timer, with the
    interval of [qsgrl_animation_interval()], unless one is running, and
    [animationStopped()] kills the timer it finds in
    [m_animation_timer] and clears the field. *)
Theorem animation_timer_only_when_hidden (s : sys) :
  if anyoneShowing s
  then animationStarted s = Ok tt s [] /\ animationStopped s = Ok tt s []
  else
    animationStopped s
    = Ok tt (animation_timer_cleared s) [AKillTimer (RenderLoop.m_animation_timer (wm s))]
    /\ if RenderLoop.m_animation_timer (wm s) =? 0
       then exists s1,
           animationStarted s
           = Ok tt s1 [AStartTimer (timer_seq s) (qsgrl_animation_interval (host s)) false]
           /\ RenderLoop.m_animation_timer (wm s1) = timer_seq s
           /\ timer_seq s1 = timer_seq s + 1
           /\ animationStopped s1
              = Ok tt (animation_timer_cleared s1) [AKillTimer (timer_seq s)]
       else animationStarted s = Ok tt s [].
Proof.
  unfold animationStarted, animationStopped, animation_timer_cleared.
  rewrite !bind_get.
  destruct (anyoneShowing s) eqn:Hs; cbn [negb andb].
  - split; reflexivity.
  - split; [unfold killTimer; now prog|].
    destruct (RenderLoop.m_animation_timer (wm s) =? 0) eqn:Ht; [|reflexivity].
    unfold startTimer, killTimer. prog. eexists. split; [reflexivity|].
    cbn [wm set_wm set_timer_seq timer_seq RenderLoop.m_animation_timer WmSet.m_animation_timer].
    split; [reflexivity|]. split; [reflexivity|].
    rewrite bind_get.
    match goal with
    | |- context [anyoneShowing ?x] => change (anyoneShowing x) with (anyoneShowing s)
    end.
    rewrite Hs. cbn [negb]. now prog.
Qed.

Lemma gui_removeFirst_last (l : list RenderLoop.Window) (w : window) :
  windowFor RenderLoop.window l w = None ->
  gui_removeFirst w (l ++ [RenderLoop.mkWindow w false]) = l.
Proof.
  unfold windowFor. induction l as [|x l IH]; simpl.
  - now rewrite Nat.eqb_refl.
  - destruct (Nat.eqb (RenderLoop.window x) w); [discriminate|].
    intros H. now rewrite IH.
Qed.

Lemma gui_removeFirst_length (l : list RenderLoop.Window) (w : window) :
  List.length (gui_removeFirst w (l ++ [RenderLoop.mkWindow w false])) = List.length l.
Proof.
  induction l as [|x l IH]; simpl.
  - now rewrite Nat.eqb_refl.
  - destruct (Nat.eqb (RenderLoop.window x) w); simpl.
    + rewrite length_app. simpl. lia.
    + now rewrite IH.
Qed.

(** X21. [show()] tracks the window, without looking whether it is
    tracked already; the removal at the end of [hide()] takes out the
    first record of the window.  So showing a window that is not tracked
    and hiding it gives back the list of the loop as it was, and in every
    case the list is as long as it was. *)
Theorem show_then_hide (s : sys) (w : window) :
  exists s1 s2,
    show w s = Ok [] s1 []
    /\ hide_remove w s1 = Ok [] s2 []
    /\ windowFor RenderLoop.window (RenderLoop.m_windows (wm s1)) w <> None
    /\ List.length (RenderLoop.m_windows (wm s2)) = List.length (RenderLoop.m_windows (wm s))
    /\ (windowFor RenderLoop.window (RenderLoop.m_windows (wm s)) w = None ->
        RenderLoop.m_windows (wm s2) = RenderLoop.m_windows (wm s)).
Proof.
  unfold show, hide_remove. prog. eexists _, _.
  split; [reflexivity|]. split; [reflexivity|].
  cbn [wm set_wm RenderLoop.m_windows WmSet.m_windows].
  split; [|split].
  - rewrite windowFor_app.
    destruct (windowFor RenderLoop.window (RenderLoop.m_windows (wm s)) w); [discriminate|].
    unfold windowFor. simpl. now rewrite Nat.eqb_refl.
  - apply gui_removeFirst_length.
  - apply gui_removeFirst_last.
Qed.

Lemma gui_step_ok (s s1 : sys) (f : gframe) (k fs : list gframe) (t : trace) :
  crashed s = None -> gstack s = f :: k -> gui_frame f s = Ok fs s1 t ->
  step GuiStep s = Some (set_gstack (fs ++ k) s1, t).
Proof. intros Hc Hst H. rewrite (gui_step_at s f k Hc Hst), H. reflexivity. Qed.

Lemma run_cons_ok (c : choice) (cs : list choice) (s s1 s2 : sys) (t1 t2 : trace) :
  step c s = Some (s1, t1) -> run cs s1 = Some (s2, t2) ->
  run (c :: cs) s = Some (s2, t1 ++ t2).
Proof. intros H1 H2. simpl. now rewrite H1, H2. Qed.

(** X22. [handleExposure()] posts [WM_Expose] with the size the window
    has then, after creating the platform window if there is none, and
    goes on to [polishAndSync()] and then to the end of the function.  A
    render thread that is running is left alone; one that is not is
    started, with [shouldExit] reset and [animationRunning] taken from the
    animation driver. *)
Theorem handleExposure_starts_thread (s : sys) (w : window) (k : list gframe) :
  crashed s = None ->
  gstack s = F_handleExposure w :: k ->
  exists s2 t2,
    run [GuiStep; GuiStep] s = Some (s2, t2)
    /\ gstack s2 = F_polishAndSync :: K_handleExposure_timer :: k
    /\ rq s2 = rq s ++ [WM_Expose w (windowSize (host s) w)]
    /\ handle (host s2) w = true
    /\ isRunning s2 = true
    /\ count is_start_thread t2 = (if isRunning s then 0 else 1)%nat
    /\ if isRunning s
       then th s2 = th s /\ rpc s2 = rpc s
       else rpc s2 = RLoopTop
            /\ RenderThread.shouldExit (th s2) = false
            /\ RenderThread.animationRunning (th s2) = RenderLoop.driver_running (wm s).
Proof.
  intros Hc Hst.
  assert (H1 : exists s1 t1,
             gui_frame (F_handleExposure w) s
             = Ok [K_handleExposure_start; F_polishAndSync; K_handleExposure_timer] s1 t1
             /\ crashed s1 = None /\ rq s1 = rq s ++ [WM_Expose w (windowSize (host s) w)]
             /\ handle (host s1) w = true /\ th s1 = th s /\ rpc s1 = rpc s /\ wm s1 = wm s
             /\ count is_start_thread t1 = 0%nat).
  { unfold gui_frame, handleExposure, window_create. rewrite bind_get.
    destruct (handle (host s) w) eqn:Hh; cbn [negb]; prog; eexists _, _;
      (split; [reflexivity|]); cbn; rewrite ?Nat.eqb_refl; repeat split; assumption. }
  destruct H1 as (s1 & t1 & E1 & Hc1 & Hrq1 & Hh1 & Hth1 & Hpc1 & Hwm1 & Hcnt1).
  pose proof (gui_step_ok s s1 _ k _ t1 Hc Hst E1) as S1. cbn [app] in S1.
  set (s1' := set_gstack (K_handleExposure_start :: F_polishAndSync :: K_handleExposure_timer :: k)
                s1) in *.
  assert (Hrun : isRunning s1' = isRunning s) by (unfold isRunning; cbn; now rewrite Hpc1).
  assert (H2 : exists s2 t2,
             gui_frame K_handleExposure_start s1' = Ok [] s2 t2
             /\ gstack s2 = gstack s1' /\ rq s2 = rq s1 /\ host s2 = host s1
             /\ isRunning s2 = true
             /\ count is_start_thread t2 = (if isRunning s then 0 else 1)%nat
             /\ if isRunning s
                then th s2 = th s /\ rpc s2 = rpc s
                else rpc s2 = RLoopTop
                     /\ RenderThread.shouldExit (th s2) = false
                     /\ RenderThread.animationRunning (th s2) = RenderLoop.driver_running (wm s)).
  { unfold gui_frame, handleExposure_start. rewrite bind_get, Hrun.
    destruct (isRunning s) eqn:Hr; cbn [negb]; prog; eexists _, _;
      (split; [reflexivity|]); cbn; rewrite ?Hwm1; repeat split; assumption. }
  destruct H2 as (s2 & t2 & E2 & Hst2 & Hrq2 & Hh2 & Hr2 & Hcnt2 & Hrest).
  assert (S2 := gui_step_ok s1' s2 _ _ _ t2 Hc1 eq_refl E2). cbn [app] in S2.
  exists (set_gstack (F_polishAndSync :: K_handleExposure_timer :: k) s2), (t1 ++ t2 ++ []).
  split; [eapply run_cons_ok; [exact S1|]; eapply run_cons_ok; [exact S2|reflexivity]|].
  cbn [gstack set_gstack rq host th rpc].
  split; [reflexivity|]. split; [congruence|]. split; [congruence|].
  split; [exact Hr2|].
  split; [rewrite !count_app, Hcnt1, Hcnt2, count_nil; lia|].
  exact Hrest.
Qed.

Lemma handleExposure_starts_thread_witness :
  crashed (state_after [HostCall (F_show 1%nat); GuiStep; HostCall (F_exposureChanged 1%nat);
                        GuiStep] sys0) = None
  /\ exists s2 t2,
       run [GuiStep; GuiStep]
           (state_after [HostCall (F_show 1%nat); GuiStep; HostCall (F_exposureChanged 1%nat);
                         GuiStep] sys0) = Some (s2, t2)
       /\ isRunning s2 = true.
Proof.
  split; [reflexivity|].
  destruct (handleExposure_starts_thread
              (state_after [HostCall (F_show 1%nat); GuiStep; HostCall (F_exposureChanged 1%nat);
                            GuiStep] sys0) 1%nat [] eq_refl eq_refl)
    as (s2 & t2 & H & _ & _ & _ & Hr & _).
  exists s2, t2. split; assumption.
Defined.

Lemma wait_unlocked_eta (who : thread) (t : RenderThread.t) :
  RenderThread.mutex t = None ->
  ThSet.waitCondition GuiWaiting (ThSet.mutex None (ThSet.mutex (Some who) t))
  = ThSet.waitCondition GuiWaiting t.
Proof. intros H. destruct t; simpl in *; subst; reflexivity. Qed.

(** X23. [releaseResources()] takes the mutex and, if the render thread
    is running and not already told to exit, posts [WM_TryRelease] and
    waits on the condition; otherwise it unlocks again at once, having
    posted nothing and changed nothing: it never waits for a thread that
    cannot answer. *)
Theorem releaseResources_contract (p : Platform) (h : Host) (s : sys) (w : window) (d : bool)
        (k : list gframe) :
  reachable p h s ->
  crashed s = None ->
  gstack s = F_releaseResources w d :: k ->
  run (repeat GuiStep 3) s
  = if isRunning s && negb (RenderThread.shouldExit (th s))
    then Some (set_gstack (RR_waiting :: k) (requested_and_waiting (WM_TryRelease w d) s),
               [ALock; APostRT (WM_TryRelease w d); AWait])
    else Some (set_gstack k s, [ALock; AUnlock]).
Proof.
  intros Hr Hcr Hst. destruct (reachable_inv p h s Hr) as [Hm Hw Hl Hs Hsy Hrl Hg Hc Hx].
  unfold gui_at in Hm. rewrite Hst in Hm. simpl in Hm.
  cbn [repeat run]. rewrite (gui_step_at s _ _ Hcr Hst).
  unfold gui_frame at 1, releaseResources. rewrite (bind_lock_free _ _ _ Hm). prog.
  cbn [settle app].
  unfold step, settle, gui_frame, releaseResources_check, releaseResources_wait,
    releaseResources_unlock, requested_and_waiting.
  unfold_prims. unfold isRunning. simpl. rewrite Hcr. simpl.
  destruct (match rpc s with RNotRunning => false | _ => true end
            && negb (RenderThread.shouldExit (th s))); simpl; rewrite ?Hcr; simpl.
  - do 2 f_equal. rewrite (wait_unlocked_eta _ _ Hm). destruct s; reflexivity.
  - do 2 f_equal. rewrite (relock_eta _ _ Hm). destruct s; reflexivity.
Qed.

Lemma releaseResources_contract_witness :
  reachable platform0 host0 (state_after [HostCall (F_releaseResources 1%nat false)] sys0)
  /\ run (repeat GuiStep 3) (state_after [HostCall (F_releaseResources 1%nat false)] sys0)
     = Some (set_gstack [] (state_after [HostCall (F_releaseResources 1%nat false)] sys0),
             [ALock; AUnlock]).
Proof.
  assert (H : reachable platform0 host0
                (state_after [HostCall (F_releaseResources 1%nat false)] sys0))
    by (apply reachable_after; vm_compute; discriminate).
  split; [exact H|].
  exact (releaseResources_contract platform0 host0 _ 1%nat false [] H eq_refl eq_refl).
Defined.

(** The delivery of the first event of the queue, in either event loop. *)
Lemma deliver_step (s s1 : sys) (e : REvent) (q : list REvent) (b : bool) (t : trace) :
  crashed s = None -> in_event_loop (rpc s) = true -> rq s = e :: q ->
  QSGRenderThread_event e (set_rq q s) = Ok b s1 t ->
  step RtStep s = Some (set_rpc (rpc s) s1, t).
Proof.
  intros Hcr Hpc Hrq E. rewrite (step_rt s Hcr). unfold run_step. rewrite bind_get.
  destruct (rpc s); try discriminate Hpc; cbv iota;
    unfold deliver_head; rewrite ?bind_bind, ?bind_get, ?Hrq; prog;
    rewrite (bind_Ok _ _ _ _ _ _ E); prog; cbn [settle]; now rewrite ?app_nil_r.
Qed.

#[local] Opaque occ has_flag set_flag size_of wrap32.

(** [WM_TryRelease] and [WM_Grab] with the mutex free: they run to the
    end, wake the waiter, and leave the mutex free. *)
Lemma tryRelease_runs (s : sys) (w : window) (d : bool) :
  RenderThread.mutex (th s) = None ->
  exists s' t,
    QSGRenderThread_event (WM_TryRelease w d) s = Ok true s' t
    /\ RenderThread.mutex (th s') = None
    /\ RenderThread.waitCondition (th s') = RenderThread.waitCondition (woken (th s))
    /\ rq s' = rq s /\ gstack s' = gstack s /\ crashed s' = crashed s
    /\ count is_wake t = 1%nat.
Proof.
  intros Hm. unfold QSGRenderThread_event, invalidateOpenGL, lock, woken.
  unfold_prims. rewrite Hm. simpl.
  repeat match goal with
         | |- context [match ?x with _ => _ end] => innermost x; destruct x eqn:?; simpl
         end;
    first [solve [exfalso; simpl in *; congruence] | eexists _, _; repeat split].
Qed.

Lemma grab_runs (s : sys) (w : window) (r : RenderThread.Window) :
  RenderThread.mutex (th s) = None ->
  rt_lookup s w = Some r ->
  RenderThread.gl (th s) = true ->
  exists s' t,
    QSGRenderThread_event (WM_Grab w) s = Ok true s' t
    /\ grab_image s' = FramebufferImage (RenderThread.size r)
    /\ RenderThread.mutex (th s') = None
    /\ RenderThread.waitCondition (th s') = RenderThread.waitCondition (woken (th s))
    /\ rq s' = rq s /\ gstack s' = gstack s /\ crashed s' = crashed s
    /\ count is_wake t = 1%nat.
Proof.
  intros Hm Hr Hgl. unfold rt_lookup, rt_windows in Hr.
  unfold QSGRenderThread_event, lock, woken.
  unfold_prims. rewrite Hr, Hm. simpl. rewrite Hgl. simpl.
  destruct (RenderThread.waitCondition (th s)); eexists _, _; repeat split.
Qed.

(** The GUI thread woken at a wait of [wait_point], going on to
    [unlock_point]. *)
Lemma woken_returns (s : sys) (wait_point unlock_point : gframe) (k : list gframe) :
  crashed s = None ->
  gstack s = wait_point :: k ->
  gui_frame wait_point = (wait_return ;; ret [unlock_point]) ->
  RenderThread.waitCondition (th s) = GuiWoken ->
  RenderThread.mutex (th s) = None ->
  step GuiStep s
  = Some (set_gstack (unlock_point :: k)
            (set_th (ThSet.waitCondition NoWaiter (ThSet.mutex (Some GuiThread) (th s))) s),
          [AWaitReturn]).
Proof.
  intros Hcr Hst Hf Hw Hm. rewrite (gui_step_at s _ _ Hcr Hst), Hf.
  unfold bind, wait_return, ret. rewrite Hw, Hm. reflexivity.
Qed.

(** X24. The release rendezvous completes: with the GUI thread waiting
    in [releaseResources()] and its [WM_TryRelease] first in the queue of
    a render thread that processes events, the render thread handles the
    event and wakes the GUI thread, which takes the mutex again, releases
    it and returns from [releaseResources()]. *)
Theorem release_rendezvous_completes (p : Platform) (h : Host) (s : sys) (w : window) (d : bool)
        (q : list REvent) (k : list gframe) :
  reachable p h s ->
  crashed s = None ->
  gstack s = RR_waiting :: k ->
  rq s = WM_TryRelease w d :: q ->
  in_event_loop (rpc s) = true ->
  exists s1 t1 s2,
    step RtStep s = Some (s1, t1)
    /\ count is_wake t1 = 1%nat
    /\ run [GuiStep; GuiStep] s1 = Some (s2, [AWaitReturn; AUnlock])
    /\ gstack s2 = k
    /\ rq s2 = q
    /\ RenderThread.mutex (th s2) = None
    /\ RenderThread.waitCondition (th s2) = NoWaiter
    /\ crashed s2 = None.
Proof.
  intros Hr Hcr Hst Hrq Hpc.
  destruct (reachable_inv p h s Hr) as [Hm Hw Hl Hs Hsy Hrl Hg Hc Hx].
  unfold awaits_release, awaits, gui_at in *. rewrite Hst in *. rewrite Hrq in Hrl.
  simpl in Hm, Hrl.
  assert (Hwait : RenderThread.waitCondition (th s) = GuiWaiting).
  { rewrite occ_cons in Hrl. simpl in Hrl.
    destruct (RenderThread.waitCondition (th s)); (reflexivity || lia). }
  destruct (tryRelease_runs (set_rq q s) w d Hm)
    as (s1 & t1 & E & Hm1 & Hw1 & Hrq1 & Hst1 & Hcr1 & Hcnt).
  cbn [th set_rq rq gstack crashed] in Hw1, Hrq1, Hst1, Hcr1.
  unfold woken in Hw1. rewrite Hwait in Hw1. cbn in Hw1.
  pose proof (deliver_step s s1 _ q true t1 Hcr Hpc Hrq E) as S1.
  set (s1' := set_rpc (rpc s) s1) in *.
  assert (S2 := woken_returns s1' RR_waiting RR_unlock k
                  (eq_trans Hcr1 Hcr) (eq_trans Hst1 Hst) eq_refl Hw1 Hm1).
  exists s1', t1. eexists. split; [exact S1|]. split; [exact Hcnt|].
  split.
  - eapply (run_cons_ok _ _ _ _ _ [AWaitReturn]); [exact S2|].
    eapply (run_cons_ok _ _ _ _ _ [AUnlock] []); [|reflexivity].
    apply gui_step_ok with (f := RR_unlock) (k := k) (fs := []);
      [exact (eq_trans Hcr1 Hcr)|reflexivity|].
    unfold gui_frame, releaseResources_unlock. now prog.
  - cbn. repeat split; try reflexivity; try assumption. exact (eq_trans Hcr1 Hcr).
Qed.

Lemma release_rendezvous_completes_witness :
  reachable platform0 host0
    (state_after (run_to_sleep ++ [HostCall (F_hide 1%nat)] ++ repeat GuiStep 5 ++ [RtStep]) sys0)
  /\ exists s1 t1 s2,
       step RtStep
         (state_after (run_to_sleep ++ [HostCall (F_hide 1%nat)] ++ repeat GuiStep 5 ++ [RtStep])
            sys0) = Some (s1, t1)
       /\ run [GuiStep; GuiStep] s1 = Some (s2, [AWaitReturn; AUnlock])
       /\ RenderThread.mutex (th s2) = None.
Proof.
  assert (H : reachable platform0 host0
                (state_after (run_to_sleep ++ [HostCall (F_hide 1%nat)] ++ repeat GuiStep 5
                                ++ [RtStep]) sys0))
    by (apply reachable_after; vm_compute; discriminate).
  split; [exact H|].
  destruct (release_rendezvous_completes platform0 host0 _ 1%nat false [] [K_hide_remove 1%nat]
              H eq_refl eq_refl eq_refl eq_refl)
    as (s1 & t1 & s2 & H1 & _ & H2 & _ & _ & H3 & _).
  exists s1, t1, s2. repeat split; assumption.
Defined.

#[local] Transparent occ has_flag set_flag size_of wrap32.

Lemma run_app_ok (cs1 cs2 : list choice) (s s1 s2 : sys) (t1 t2 : trace) :
  run cs1 s = Some (s1, t1) -> run cs2 s1 = Some (s2, t2) ->
  run (cs1 ++ cs2) s = Some (s2, t1 ++ t2).
Proof.
  revert s t1. induction cs1 as [|c cs1 IH]; simpl; intros s t1 H1 H2.
  - injection H1 as <- <-. exact H2.
  - destruct (step c s) as [[sa ta]|]; [|discriminate].
    destruct (run cs1 sa) as [[sb tb]|] eqn:E; [|discriminate].
    injection H1 as <- <-. rewrite (IH _ _ E H2). now rewrite app_assoc.
Qed.

(** [grab()] with the render thread running, up to its wait. *)
Lemma grab_posts (s : sys) (w : window) (k : list gframe) :
  crashed s = None ->
  gstack s = F_grab w :: k ->
  isRunning s = true ->
  RenderThread.mutex (th s) = None ->
  exists s4 t4,
    run (repeat GuiStep 4) s = Some (s4, t4)
    /\ t4 = (if handle (host s) w then [] else [AWindowCreate w])
            ++ [APolishItems w; ALock; APostRT (WM_Grab w); AWait]
    /\ gstack s4 = G_waiting :: k
    /\ rq s4 = rq s ++ [WM_Grab w]
    /\ th s4 = ThSet.waitCondition GuiWaiting (th s)
    /\ rpc s4 = rpc s
    /\ crashed s4 = None.
Proof.
  intros Hcr Hst Hrun Hm.
  assert (H1 : exists s1,
             gui_frame (F_grab w) s
             = Ok [G_lock w] s1
                  ((if handle (host s) w then [] else [AWindowCreate w]) ++ [APolishItems w])
             /\ th s1 = th s /\ rq s1 = rq s /\ rpc s1 = rpc s /\ crashed s1 = None).
  { unfold gui_frame, grab, window_create. rewrite bind_get, Hrun. cbn [negb].
    destruct (handle (host s) w); cbn [negb]; prog; eexists; (split; [reflexivity|]);
      cbn; repeat split; assumption. }
  destruct H1 as (s1 & E1 & Hth1 & Hrq1 & Hpc1 & Hcr1).
  pose proof (gui_step_ok s s1 _ k _ _ Hcr Hst E1) as S1. cbn [app] in S1.
  set (a := set_gstack (G_lock w :: k) s1) in *.
  assert (Hma : RenderThread.mutex (th a) = None) by (cbn; now rewrite Hth1).
  assert (S2 : step GuiStep a
               = Some (set_gstack (G_post w :: k)
                         (set_th (ThSet.mutex (Some GuiThread) (th a)) a), [ALock])).
  { apply gui_step_ok with (f := G_lock w) (k := k) (fs := [G_post w]);
      [exact Hcr1|reflexivity|].
    unfold gui_frame, grab_lock. rewrite (bind_lock_free _ _ _ Hma). now prog. }
  set (b := set_gstack (G_post w :: k) (set_th (ThSet.mutex (Some GuiThread) (th a)) a)) in *.
  assert (S3 : step GuiStep b
               = Some (set_gstack (G_wait :: k) (set_rq (rq b ++ [WM_Grab w]) b),
                       [APostRT (WM_Grab w)])).
  { apply gui_step_ok with (f := G_post w) (k := k) (fs := [G_wait]);
      [exact Hcr1|reflexivity|].
    unfold gui_frame, grab_post. now prog. }
  set (c := set_gstack (G_wait :: k) (set_rq (rq b ++ [WM_Grab w]) b)) in *.
  assert (S4 : step GuiStep c
               = Some (set_gstack (G_waiting :: k)
                         (set_th (ThSet.waitCondition GuiWaiting (ThSet.mutex None (th c))) c),
                       [AWait])).
  { apply gui_step_ok with (f := G_wait) (k := k) (fs := [G_waiting]);
      [exact Hcr1|reflexivity|].
    unfold gui_frame, grab_wait, wait. now prog. }
  eexists _, _. split.
  - cbn [repeat]. eapply run_cons_ok; [exact S1|]. eapply run_cons_ok; [exact S2|].
    eapply run_cons_ok; [exact S3|]. eapply run_cons_ok; [exact S4|reflexivity].
  - split; [now rewrite <- !app_assoc|].
    cbn. rewrite Hth1, Hrq1, Hpc1, (wait_unlocked_eta _ _ Hm). repeat split. exact Hcr1.
Qed.

(** X25. [grab()] of a window the render thread tracks returns what
    the render thread read from the framebuffer, at the size the render
    thread has for the window: the GUI thread posts [WM_Grab] and waits,
    the render thread renders, reads and wakes it, and [grab()] returns
    the image after releasing the mutex. *)
Theorem grab_returns_framebuffer (p : Platform) (h : Host) (s : sys) (w : window)
        (r : RenderThread.Window) (k : list gframe) :
  reachable p h s ->
  crashed s = None ->
  gstack s = F_grab w :: k ->
  rq s = [] ->
  in_event_loop (rpc s) = true ->
  rt_lookup s w = Some r ->
  RenderThread.gl (th s) = true ->
  exists s' t,
    run run_grab s = Some (s', t)
    /\ grab_return s' = Some (FramebufferImage (RenderThread.size r))
    /\ gstack s' = k
    /\ RenderThread.mutex (th s') = None
    /\ RenderThread.waitCondition (th s') = NoWaiter
    /\ crashed s' = None.
Proof.
  intros Hr Hcr Hst Hrq Hpc Hlook Hgl.
  destruct (reachable_inv p h s Hr) as [Hm Hw Hl Hs Hsy Hrl Hg Hc Hx].
  unfold gui_at in Hm. rewrite Hst in Hm. simpl in Hm.
  assert (Hrun : isRunning s = true)
    by (unfold isRunning; destruct (rpc s); (reflexivity || discriminate)).
  destruct (grab_posts s w k Hcr Hst Hrun Hm)
    as (s4 & t4 & R4 & _ & Hst4 & Hrq4 & Hth4 & Hpc4 & Hcr4).
  rewrite Hrq in Hrq4. simpl in Hrq4.
  assert (Hm4 : RenderThread.mutex (th (set_rq [] s4)) = None)
    by (cbn [th set_rq]; now rewrite Hth4).
  assert (Hlook4 : rt_lookup (set_rq [] s4) w = Some r)
    by (unfold rt_lookup, rt_windows in *; cbn [th set_rq]; now rewrite Hth4).
  assert (Hgl4 : RenderThread.gl (th (set_rq [] s4)) = true)
    by (cbn [th set_rq]; now rewrite Hth4).
  destruct (grab_runs (set_rq [] s4) w r Hm4 Hlook4 Hgl4)
    as (s5 & t5 & E & Himg & Hm5 & Hw5 & Hrq5 & Hst5 & Hcr5 & _).
  cbn [th set_rq rq gstack crashed] in Hw5, Hrq5, Hst5, Hcr5.
  rewrite Hth4 in Hw5. unfold woken in Hw5. cbn in Hw5.
  assert (Hpc4' : in_event_loop (rpc s4) = true) by now rewrite Hpc4.
  pose proof (deliver_step s4 s5 _ [] true t5 Hcr4 Hpc4' Hrq4 E) as S5.
  set (s5' := set_rpc (rpc s4) s5) in *.
  assert (S6 := woken_returns s5' G_waiting G_unlock k
                  (eq_trans Hcr5 Hcr4) (eq_trans Hst5 Hst4) eq_refl Hw5 Hm5).
  set (s6 := set_gstack (G_unlock :: k)
               (set_th (ThSet.waitCondition NoWaiter (ThSet.mutex (Some GuiThread) (th s5')))
                       s5')) in *.
  assert (S7 : step GuiStep s6
               = Some (set_gstack k
                         (set_grab_return (Some (grab_image s6))
                            (set_th (ThSet.mutex None (th s6)) s6)), [AUnlock])).
  { apply gui_step_ok with (f := G_unlock) (k := k) (fs := []);
      [exact (eq_trans Hcr5 Hcr4)|reflexivity|].
    unfold gui_frame, grab_unlock. now prog. }
  eexists _, _. split.
  - unfold run_grab. eapply run_app_ok; [exact R4|].
    eapply run_cons_ok; [exact S5|]. eapply run_cons_ok; [exact S6|].
    eapply run_cons_ok; [exact S7|reflexivity].
  - cbn. rewrite Himg. repeat split; try reflexivity. exact (eq_trans Hcr5 Hcr4).
Qed.

Lemma resize_events_have_sizes_witness :
  reachable platform0 host0 (state_after run_to_resize sys0)
  /\ In (WM_Resize 1%nat (mkSize 800 600)) (rq (state_after run_to_resize sys0))
  /\ 800 <> 0 /\ 600 <> 0.
Proof.
  assert (H : reachable platform0 host0 (state_after run_to_resize sys0))
    by (apply reachable_after; vm_compute; discriminate).
  assert (Hin : In (WM_Resize 1%nat (mkSize 800 600)) (rq (state_after run_to_resize sys0)))
    by (left; reflexivity).
  split; [exact H|]. split; [exact Hin|].
  exact (resize_events_have_sizes platform0 host0 _ 1%nat (mkSize 800 600) H Hin).
Defined.

Lemma animationRunning_follows_driver_witness :
  reachable platform0 host0 (state_after run_to_increment sys0)
  /\ RenderLoop.driver_running (wm (state_after run_to_increment sys0)) = true
  /\ animationRunning_after (rq (state_after run_to_increment sys0))
       (RenderThread.animationRunning (th (state_after run_to_increment sys0)))
     = RenderLoop.driver_running (wm (state_after run_to_increment sys0)).
Proof.
  assert (H : reachable platform0 host0 (state_after run_to_increment sys0))
    by (apply reachable_after; vm_compute; discriminate).
  split; [exact H|]. split; [reflexivity|].
  exact (proj1 (animationRunning_follows_driver platform0 host0 _ H)).
Defined.

Lemma grab_returns_framebuffer_witness :
  reachable platform0 host0 (state_after run_to_grab sys0)
  /\ exists s' t,
       run run_grab (state_after run_to_grab sys0) = Some (s', t)
       /\ grab_return s' = Some (FramebufferImage size0).
Proof.
  assert (H : reachable platform0 host0 (state_after run_to_grab sys0))
    by (apply reachable_after; vm_compute; discriminate).
  split; [exact H|].
  destruct (grab_returns_framebuffer platform0 host0 _ 1%nat (RenderThread.mkWindow 1%nat size0) []
              H eq_refl eq_refl eq_refl eq_refl eq_refl eq_refl)
    as (s' & t & H1 & H2 & _).
  exists s', t. split; assumption.
Defined.

(** X26. The handler of [WM_UpdateLater] is [maybeUpdate] called on the
    GUI thread: the test it makes first, whether the window is still
    tracked, changes nothing, since [maybeUpdate] does nothing for a
    window that is not tracked; and on the GUI thread the assertion of
    [maybeUpdate] holds, so that the handler never fails. *)
Theorem updateLater_replays_maybeUpdate (s : sys) (w : window) :
  QSGThreadedRenderLoop_event (WM_UpdateLater w) s = (maybeUpdate GuiThread w ;; ret []) s
  /\ forall f t, QSGThreadedRenderLoop_event (WM_UpdateLater w) s <> Fault f t.
Proof.
  assert (E : QSGThreadedRenderLoop_event (WM_UpdateLater w) s
              = (maybeUpdate GuiThread w ;; ret []) s).
  { unfold QSGThreadedRenderLoop_event. rewrite bind_get.
    destruct (windowFor RenderLoop.window (RenderLoop.m_windows (wm s)) w) eqn:F;
      [reflexivity|].
    unfold bind at 1. rewrite (maybeUpdate_spec s GuiThread w (or_introl eq_refl)), F.
    reflexivity. }
  split; [exact E|]. intros f t. rewrite E. unfold bind.
  rewrite (maybeUpdate_spec s GuiThread w (or_introl eq_refl)).
  destruct (windowFor _ _ w); [|discriminate].
  destruct (_ || _); [discriminate|]. destruct (_ >? 0); discriminate.
Qed.


(** X28. The sync rendezvous completes: with the GUI thread waiting in
    [polishAndSync()] and the render thread at the call of [sync()] with
    [SyncRequest] set, the render thread syncs, clears [pendingUpdate] and
    wakes the GUI thread once, and the GUI thread takes the mutex again,
    clears [guiIsLocked], unlocks and returns from [polishAndSync()]. *)
Theorem sync_rendezvous_completes (p : Platform) (h : Host) (s : sys) (k : list gframe) :
  reachable p h s ->
  crashed s = None ->
  gstack s = PS_waiting :: k ->
  rpc s = RSync ->
  has_flag (RenderThread.pendingUpdate (th s)) SyncRequest = true ->
  exists s1 t1 s2,
    step RtStep s = Some (s1, t1)
    /\ count is_wake t1 = 1%nat
    /\ rpc s1 = RRender
    /\ RenderThread.pendingUpdate (th s1) = 0
    /\ run (repeat GuiStep 3) s1 = Some (s2, [AWaitReturn; AStore f_guiIsLocked 0; AUnlock])
    /\ gstack s2 = k
    /\ RenderThread.guiIsLocked (th s2) = false
    /\ RenderThread.mutex (th s2) = None
    /\ RenderThread.waitCondition (th s2) = NoWaiter
    /\ crashed s2 = None.
Proof.
  intros Hr Hcr Hst Hpc Hflag. pose proof (reachable_inv p h s Hr) as Hinv.
  assert (Hm : RenderThread.mutex (th s) = None).
  { rewrite (inv_mutex Hinv). unfold gui_at. now rewrite Hst. }
  destruct (sync_point s Hinv Hflag Hm) as (_ & Hwait & Hl).
  assert (Hgl : RenderThread.gl (th s) = true)
    by (apply (inv_context Hinv); now rewrite Hpc).
  assert (S1 : step RtStep s
               = Some (set_rpc RRender (after_sync s),
                       ALock :: AStore f_pendingUpdate 0
                         :: flat_map sync_actions (RenderThread.m_windows (th s))
                         ++ [AWakeOne; AUnlock])).
  { rewrite (step_rt s Hcr). unfold run_step. rewrite bind_get, Hpc.
    unfold bind. rewrite syncAndRender_sync_spec, Hflag, sync_spec, Hm, Hl, Hgl.
    cbn. now rewrite app_nil_r. }
  set (s1 := set_rpc RRender (after_sync s)) in *.
  assert (Hw1 : RenderThread.waitCondition (th s1) = GuiWoken)
    by (cbn; unfold woken; cbn; now rewrite Hwait).
  assert (S2 := woken_returns s1 PS_waiting PS_clearLocked k Hcr Hst eq_refl Hw1 eq_refl).
  set (s2 := set_gstack (PS_clearLocked :: k)
               (set_th (ThSet.waitCondition NoWaiter (ThSet.mutex (Some GuiThread) (th s1))) s1))
    in *.
  assert (S3 : step GuiStep s2
               = Some (set_gstack (PS_unlock :: k)
                         (set_th (ThSet.guiIsLocked false (th s2)) s2),
                       [AStore f_guiIsLocked 0])).
  { apply gui_step_ok with (f := PS_clearLocked) (k := k) (fs := [PS_unlock]);
      [exact Hcr|reflexivity|].
    unfold gui_frame, polishAndSync_clearLocked. now prog. }
  set (s3 := set_gstack (PS_unlock :: k) (set_th (ThSet.guiIsLocked false (th s2)) s2)) in *.
  assert (S4 : step GuiStep s3
               = Some (set_gstack k (set_th (ThSet.mutex None (th s3)) s3), [AUnlock])).
  { apply gui_step_ok with (f := PS_unlock) (k := k) (fs := []);
      [exact Hcr|reflexivity|].
    unfold gui_frame, polishAndSync_unlock. now prog. }
  exists s1. eexists. eexists. split; [exact S1|].
  split; [rewrite !count_cons, count_app, count_wake_sync_actions; reflexivity|].
  split; [reflexivity|].
  split; [unfold s1; cbn; unfold woken; cbn; now rewrite Hwait|].
  split.
  - cbn [repeat]. eapply (run_cons_ok _ _ _ _ _ [AWaitReturn]); [exact S2|].
    eapply (run_cons_ok _ _ _ _ _ [AStore f_guiIsLocked 0]); [exact S3|].
    eapply (run_cons_ok _ _ _ _ _ [AUnlock] []); [exact S4|reflexivity].
  - cbn. repeat split. exact Hcr.
Qed.

Lemma sync_rendezvous_completes_witness :
  reachable platform0 host0 (state_after run_to_sync sys0)
  /\ exists s1 t1 s2,
       step RtStep (state_after run_to_sync sys0) = Some (s1, t1)
       /\ run (repeat GuiStep 3) s1
          = Some (s2, [AWaitReturn; AStore f_guiIsLocked 0; AUnlock])
       /\ RenderThread.guiIsLocked (th s2) = false.
Proof.
  assert (H : reachable platform0 host0 (state_after run_to_sync sys0))
    by (apply reachable_after; vm_compute; discriminate).
  split; [exact H|].
  destruct (sync_rendezvous_completes platform0 host0 _ [K_handleExposure_timer]
              H eq_refl eq_refl eq_refl eq_refl)
    as (s1 & t1 & s2 & H1 & _ & _ & _ & H2 & _ & H3 & _).
  exists s1, t1, s2. repeat split; assumption.
Defined.
